(** * Beyond-Chat-Blogs: the content-enhancement pipeline of [node-script]

  A shallow embedding of

  - [node-script/services/googleSearcher.js]  (competitor discovery),
  - [node-script/services/llmEnhancer.js]     (gap analysis, enhancement),
  - [node-script/services/contentScraper.js]  ([scrapeMultipleArticles]),
  - [node-script/processAll.js]               (citations, batch orchestrator),

  followed by the properties of the specification that concern them.
  After them come further properties of the same code and of

  - [node-script/services/contentScraper.js]  ([cleanText]),
  - [node-script/index.js]                    (the script for one article),
  - [react-frontend/src/pages/HomePage.jsx]   (the pages of the article list).

  Conventions of the embedding.

  - A JavaScript string is a [string]: a sequence of code units, each one
    an [ascii] standing for the UTF-16 code unit of the same number
    (the Latin-1 range).  [toLowerCase], [trim] and the regular
    expressions are modelled on that range.
  - A value that may be [undefined] or [null] is an [option].
  - Code that may throw returns an [Outcome]; [try]/[catch] is
    [tryCatch].
  - What the process receives from the network (search providers, pages,
    the generative service, the article store) is an explicit argument:
    a [World] gives, for each item of the batch, what every external
    call of that item answers.
  - Built-ins of the runtime that the code calls and that are no part of
    the repository ([JSON.parse], [new URL(..).hostname],
    [decodeURIComponent]) are the fields of a [Runtime]. *)

From Stdlib Require Import ZArith NArith List String Ascii Lia Bool.
From stdpp Require Import base gmap strings list pretty.
Import ListNotations.

Local Open Scope N_scope.

(** ** Outcomes: a returned value or a thrown error *)

Inductive Outcome (A : Type) : Type :=
| Returns (a : A)
| Throws (message : string).
Arguments Returns {A} a.
Arguments Throws {A} message.

Definition bindO {A B} (m : Outcome A) (k : A -> Outcome B) : Outcome B :=
  match m with
  | Returns a => k a
  | Throws e => Throws e
  end.

(** [try { body } catch (error) { handler(error.message) }] *)
Definition tryCatch {A} (body : Outcome A) (handler : string -> A) : A :=
  match body with
  | Returns a => a
  | Throws e => handler e
  end.

#[global] Instance Outcome_ret : MRet Outcome := fun A a => Returns a.
#[global] Instance Outcome_bind : MBind Outcome := fun A B k m => bindO m k.

(** ** The string operations of the runtime that the code uses *)

Module JS.

(** [a || b] on strings: the empty string is falsy. *)
Definition orElse (a b : string) : string :=
  match a with
  | EmptyString => b
  | _ => a
  end.

(** [a || b] where [a] may be [undefined]. *)
Definition orElseOpt (a : option string) (b : string) : string :=
  match a with
  | Some s => orElse s b
  | None => b
  end.

Definition truthy (a : option string) : bool :=
  match a with
  | Some (String _ _) => true
  | _ => false
  end.

Definition strlen (s : string) : N := N.of_nat (String.length s).

Fixpoint startsWith (s p : string) : bool :=
  match p, s with
  | EmptyString, _ => true
  | String a p', String b s' => Ascii.eqb a b && startsWith s' p'
  | String _ _, EmptyString => false
  end.

Fixpoint includes (s p : string) : bool :=
  startsWith s p ||
  match s with
  | EmptyString => false
  | String _ s' => includes s' p
  end.

Fixpoint endsWith1 (s : string) (c : ascii) : bool :=
  match s with
  | EmptyString => false
  | String a EmptyString => Ascii.eqb a c
  | String _ s' => endsWith1 s' c
  end.

(** [s.split(c)] for a separator of one character. *)
Fixpoint split1 (s : string) (c : ascii) : list string :=
  match s with
  | EmptyString => [EmptyString]
  | String a s' =>
      if Ascii.eqb a c then EmptyString :: split1 s' c
      else match split1 s' c with
           | piece :: pieces => String a piece :: pieces
           | [] => [String a EmptyString]
           end
  end.

Fixpoint dropN (n : nat) (s : string) : string :=
  match n, s with
  | O, _ => s
  | S n', String _ s' => dropN n' s'
  | S _, EmptyString => EmptyString
  end.

Fixpoint takeN (n : N) (s : string) : string :=
  match s with
  | EmptyString => EmptyString
  | String a s' =>
      if N.eqb n 0 then EmptyString else String a (takeN (N.pred n) s')
  end.

(** [s.substring(i, j)]: the arguments are swapped when [i > j]. *)
Definition substring (s : string) (i j : N) : string :=
  let lo := N.min i j in
  let hi := N.max i j in
  takeN (hi - lo) (dropN (N.to_nat lo) s).

(** Code units that [toLowerCase] changes in the Latin-1 range:
    A-Z, and U+00C0..U+00DE except the multiplication sign U+00D7. *)
Definition lowerChar (c : ascii) : ascii :=
  let n := N_of_ascii c in
  if ((65 <=? n) && (n <=? 90))
     || ((192 <=? n) && (n <=? 222) && negb (n =? 215))
  then ascii_of_N (n + 32)
  else c.

Fixpoint toLowerCase (s : string) : string :=
  match s with
  | EmptyString => EmptyString
  | String a s' => String (lowerChar a) (toLowerCase s')
  end.

(** The class [\s] of regular expressions, which is also what [trim]
    removes: TAB, LF, VT, FF, CR, space and U+00A0. *)
Definition isSpace (c : ascii) : bool :=
  let n := N_of_ascii c in
  ((9 <=? n) && (n <=? 13)) || (n =? 32) || (n =? 160).

Fixpoint trimStart (s : string) : string :=
  match s with
  | String a s' => if isSpace a then trimStart s' else s
  | EmptyString => EmptyString
  end.

Fixpoint allSpace (s : string) : bool :=
  match s with
  | EmptyString => true
  | String a s' => isSpace a && allSpace s'
  end.

Fixpoint trimEnd (s : string) : string :=
  match s with
  | EmptyString => EmptyString
  | String a s' => if allSpace s then EmptyString else String a (trimEnd s')
  end.

Definition trim (s : string) : string := trimEnd (trimStart s).

(** [s.replace(/\s+/g, ' ')]: [inRun] is true while a run of spaces,
    already replaced, is being skipped. *)
Fixpoint collapseSpaces (inRun : bool) (s : string) : string :=
  match s with
  | EmptyString => EmptyString
  | String a s' =>
      if isSpace a
      then if inRun then collapseSpaces true s'
           else String " " (collapseSpaces true s')
      else String a (collapseSpaces false s')
  end.

(** [s.replace(/<[^>]*>/g, ' ')]: a [<] opens a match when a [>]
    follows somewhere; [inTag] is true while that match is skipped. *)
Fixpoint replaceTags (inTag : bool) (s : string) : string :=
  match s with
  | EmptyString => EmptyString
  | String a s' =>
      if inTag
      then if Ascii.eqb a ">" then replaceTags false s'
           else replaceTags true s'
      else if Ascii.eqb a "<" && includes s' ">"
           then String " " (replaceTags true s')
           else String a (replaceTags false s')
  end.

(** [s.replace(/P\n?/g, '')] for a literal, non-empty [P]: [skip]
    counts the code units of the current match still to drop. *)
Fixpoint removeAllWithNewline (p : string) (skip : nat) (s : string) : string :=
  match s with
  | EmptyString => EmptyString
  | String a s' =>
      match skip with
      | S k => removeAllWithNewline p k s'
      | O =>
          if startsWith s p
          then let more := if startsWith (dropN (String.length p) s) (String "010" EmptyString)
                           then 1%nat else 0%nat in
               removeAllWithNewline p (String.length p - 1 + more)%nat s'
          else String a (removeAllWithNewline p O s')
      end
  end.

(** Decimal text of a number, as a template literal prints it. *)
Definition showNat (n : nat) : string := pretty n.

End JS.

(** ** The built-ins of the runtime that stay abstract *)

(** A parsed JSON text.  A number keeps its decimal literal: sign,
    digits of the integer part and of the fraction, and exponent. *)
#[warnings="-register-all"]
Inductive JValue : Type :=
| JNull
| JBool (b : bool)
| JNum (negative : bool) (mantissa : N) (exponent : Z)
| JString (codeUnits : list N)
| JArray (items : list JValue)
| JObject (members : list (list N * JValue)).

Record Runtime := {
  (** [JSON.parse(text)]: the value, or the message of the SyntaxError. *)
  JSON_parse : string -> Outcome JValue;
  (** [new URL(url).hostname]: [None] when the constructor throws. *)
  URL_hostname : string -> option string;
  (** [decodeURIComponent(s)]: [None] when it throws a URIError. *)
  decodeURIComponent : string -> option string;
}.

(** ** services/googleSearcher.js *)

Module GoogleSearcher.
Import JS.

(** What a search provider lists for one hit. *)
Record SerpResult := {
  r_link : string;
  r_title : string;
  r_snippet : option string;
}.

(** One [.result] element of the DuckDuckGo page: the text of its title
    link, the [href] of that link, the text of its snippet. *)
Record DdgElement := {
  e_titleText : string;
  e_href : option string;
  e_snippetText : string;
}.

(** A competitor candidate: [{ title, url, snippet }]. *)
Record Candidate := {
  cand_title : string;
  cand_url : string;
  cand_snippet : string;
}.

Inductive SerpResponse :=
| SerpFails (message : string)
| SerpData (organic_results : option (list SerpResult)).

Inductive DdgResponse :=
| DdgFails (message : string)
| DdgPage (results : list DdgElement).

Definition excludePatterns : list string :=
  [ "youtube.com"; "youtu.be";
    "twitter.com"; "x.com";
    "facebook.com"; "instagram.com";
    "linkedin.com/company"; "linkedin.com/in/";
    ".pdf"; ".doc"; ".ppt";
    "wikipedia.org";
    "/login"; "/signup"; "/register";
    "/shop"; "/product"; "/cart";
    "amazon.com"; "ebay.com" ].

Definition includePatterns : list string :=
  [ "/blog"; "/article"; "/post"; "/news";
    "/guide"; "/how-to"; "/tutorial";
    "/insights"; "/resources"; "/learn" ].

Definition articleKeywords : list string :=
  [ "how to"; "guide"; "tips"; "ways"; "best"; "top"; "complete" ].

(** [arr.some(f)] *)
Definition some {A} (f : A -> bool) (arr : list A) : bool := existsb f arr.

Definition isBlogOrArticle (url title : string) : bool :=
  let lowerUrl := toLowerCase url in
  let lowerTitle := toLowerCase title in
  if some (fun pattern => includes lowerUrl pattern) excludePatterns then false
  else if some (fun pattern => includes lowerUrl pattern) includePatterns then true
  else if some (fun kw => includes lowerTitle kw) articleKeywords then true
  else negb (endsWith1 lowerUrl "/")
       || (4 <? N.of_nat (length (split1 lowerUrl "/"))).

Definition notBeyondChats (url : string) : bool :=
  negb (includes (toLowerCase url) "beyondchats.com").

(** [url.match(/uddg=([^&]+)/)]: the capture of the leftmost [uddg=]
    that a code unit other than [&] follows. *)
Fixpoint untilAmp (s : string) : string :=
  match s with
  | EmptyString => EmptyString
  | String a s' => if Ascii.eqb a "&" then EmptyString else String a (untilAmp s')
  end.

Fixpoint matchUddg (s : string) : option string :=
  match s with
  | EmptyString => None
  | String _ s' =>
      if startsWith s "uddg=" && negb (String.eqb (untilAmp (dropN 5 s)) "")
      then Some (untilAmp (dropN 5 s))
      else matchUddg s'
  end.

(** The redirect of DuckDuckGo resolved: [Throws] when
    [decodeURIComponent] does. *)
Definition resolveRedirect (rt : Runtime) (url : option string)
  : Outcome (option string) :=
  match url with
  | Some u =>
      if truthy url && includes u "uddg="
      then match matchUddg u with
           | Some captured =>
               match decodeURIComponent rt captured with
               | Some decoded => Returns (Some decoded)
               | None => Throws "URI malformed"
               end
           | None => Returns url
           end
      else Returns url
  | None => Returns None
  end.

(** The callback of [$('.result').each(..)], folded over the elements;
    [results] is the array the callback pushes to.  Returning [false]
    from the callback stops the iteration. *)
Fixpoint eachResult (rt : Runtime) (count : nat) (elements : list DdgElement)
         (results : list Candidate) : Outcome (list Candidate) :=
  match elements with
  | [] => Returns results
  | element :: rest =>
      if (count + 5 <=? length results)%nat then Returns results
      else
        let title := trim (e_titleText element) in
        let snippet := trim (e_snippetText element) in
        url ← resolveRedirect rt (e_href element);
        match url with
        | Some u =>
            if truthy url && truthy (Some title) && isBlogOrArticle u title
               && notBeyondChats u
            then eachResult rt count rest
                   (results ++ [{| cand_title := title; cand_url := u; cand_snippet := snippet |}])
            else eachResult rt count rest results
        | None => eachResult rt count rest results
        end
  end.

Definition searchWithDuckDuckGo (rt : Runtime) (page : DdgResponse) (count : nat)
  : list Candidate :=
  tryCatch
    (match page with
     | DdgFails e => Throws e
     | DdgPage elements =>
         results ← eachResult rt count elements [];
         mret (take count results)
     end)
    (fun _ => []).

Definition searchWithSerpAPI (rt : Runtime) (response : SerpResponse)
           (page : DdgResponse) (count : nat) : list Candidate :=
  match response with
  | SerpData organic_results =>
      let results := default [] organic_results in
      map (fun r => {| cand_title := r_title r; cand_url := r_link r;
                       cand_snippet := orElseOpt (r_snippet r) "" |})
          (take count
             (List.filter (fun r => notBeyondChats (r_link r))
                (List.filter (fun r => isBlogOrArticle (r_link r) (r_title r)) results)))
  | SerpFails _ => searchWithDuckDuckGo rt page count
  end.

(** [SERP_API_KEY] is the environment variable, [None] when unset. *)
Definition searchRelatedArticles (rt : Runtime) (SERP_API_KEY : option string)
           (response : SerpResponse) (page : DdgResponse) (count : nat)
  : list Candidate :=
  if truthy SERP_API_KEY
     && negb (String.eqb (default "" SERP_API_KEY) "your_serpapi_key_here")
  then searchWithSerpAPI rt response page count
  else searchWithDuckDuckGo rt page count.

End GoogleSearcher.

(** ** JSON values as the code reads them, and a reference [JSON.parse] *)

Module JSON.

(** The code units of a string literal of this file. *)
Definition u16 (s : string) : list N :=
  map N_of_ascii (list_ascii_of_string s).

(** The number read by the runtime is the double nearest to the
    literal; that double is zero when the literal is, or when it lies
    at or below half the least subnormal, 2^-1075. *)
Definition roundsToZero (mantissa : N) (exponent : Z) : bool :=
  (mantissa =? 0) ||
  ((exponent <? 0)%Z &&
   (Z.of_N mantissa * 2 ^ 1075 <=? 10 ^ (- exponent))%Z).

(** [!!v] *)
Definition truthy (v : JValue) : bool :=
  match v with
  | JNull => false
  | JBool b => b
  | JNum _ m e => negb (roundsToZero m e)
  | JString l => match l with [] => false | _ => true end
  | JArray _ => true
  | JObject _ => true
  end.

Definition sameKey (a b : list N) : bool := bool_decide (a = b).

(** The own property [key] of an object built by [JSON.parse]: of two
    members with one key the later one wins. *)
Fixpoint lookupMember (members : list (list N * JValue)) (key : list N)
  : option JValue :=
  match members with
  | [] => None
  | (k, v) :: rest =>
      match lookupMember rest key with
      | Some later => Some later
      | None => if sameKey k key then Some v else None
      end
  end.

(** The own property [key] of a value that is not [null]: only an
    object built by the parser has one under the names that the gap
    analysis reads, which no prototype defines. *)
Definition ownProperty (v : JValue) (key : string) : option JValue :=
  match v with
  | JObject members => lookupMember members (u16 key)
  | _ => None
  end.

(** [v.key]: a TypeError on [null], [undefined] for a missing property. *)
Definition getProp (v : JValue) (key : string) : Outcome (option JValue) :=
  match v with
  | JNull =>
      Throws ("Cannot read properties of null (reading '" +:+ key +:+ "')")
  | _ => Returns (ownProperty v key)
  end.

(** [x || d] where [x] may be [undefined]. *)
Definition orElse (x : option JValue) (d : JValue) : JValue :=
  match x with
  | Some v => if truthy v then v else d
  | None => d
  end.

(** The integer a number literal denotes, if it denotes one. *)
Definition denotesInteger (v : JValue) (k : Z) : Prop :=
  match v with
  | JNum neg m e =>
      let signed := (if neg then - Z.of_N m else Z.of_N m)%Z in
      if (0 <=? e)%Z then (signed * 10 ^ e)%Z = k
      else signed = (k * 10 ^ (- e))%Z
  | _ => False
  end.

(** *** The reference parser (ECMA-404 grammar) *)

Definition isWs (c : ascii) : bool :=
  let n := N_of_ascii c in (n =? 32) || (n =? 9) || (n =? 10) || (n =? 13).

Fixpoint skipWs (s : string) : string :=
  match s with
  | String a s' => if isWs a then skipWs s' else s
  | EmptyString => EmptyString
  end.

Definition digitOf (c : ascii) : option N :=
  let n := N_of_ascii c in
  if (48 <=? n) && (n <=? 57) then Some (n - 48) else None.

Definition hexOf (c : ascii) : option N :=
  let n := N_of_ascii c in
  if (48 <=? n) && (n <=? 57) then Some (n - 48)
  else if (65 <=? n) && (n <=? 70) then Some (n - 55)
  else if (97 <=? n) && (n <=? 102) then Some (n - 87)
  else None.

(** Reads the digits at the head of [s] after the digits [acc]:
    the number read, how many digits were read, the rest. *)
Fixpoint readDigits (s : string) (acc : N) (count : nat) : N * nat * string :=
  match s with
  | String a s' =>
      match digitOf a with
      | Some d => readDigits s' (10 * acc + d) (S count)
      | None => (acc, count, s)
      end
  | EmptyString => (acc, count, s)
  end.

Definition readExponent (s : string) : option (Z * string) :=
  match s with
  | String a s' =>
      if Ascii.eqb a "e" || Ascii.eqb a "E" then
        let '(negative, s'') :=
          match s' with
          | String b t =>
              if Ascii.eqb b "-" then (true, t)
              else if Ascii.eqb b "+" then (false, t)
              else (false, s')
          | EmptyString => (false, s')
          end in
        match readDigits s'' 0 0 with
        | (_, O, _) => None
        | (x, _, rest) =>
            Some ((if negative then - Z.of_N x else Z.of_N x)%Z, rest)
        end
      else Some (0%Z, s)
  | EmptyString => Some (0%Z, s)
  end.

Definition readFraction (s : string) (int : N) : option (N * nat * string) :=
  match s with
  | String a s' =>
      if Ascii.eqb a "." then
        match readDigits s' int 0 with
        | (_, O, _) => None
        | r => Some r
        end
      else Some (int, O, s)
  | EmptyString => Some (int, O, s)
  end.

Definition parseNumber (s : string) : option (JValue * string) :=
  let '(negative, s1) :=
    match s with
    | String a t => if Ascii.eqb a "-" then (true, t) else (false, s)
    | EmptyString => (false, s)
    end in
  let int :=
    match s1 with
    | String a t =>
        if Ascii.eqb a "0" then Some (0, t)
        else match readDigits s1 0 0 with
             | (_, O, _) => None
             | (x, _, rest) => Some (x, rest)
             end
    | EmptyString => None
    end in
  match int with
  | None => None
  | Some (i, s2) =>
      match readFraction s2 i with
      | None => None
      | Some (m, fractionDigits, s3) =>
          match readExponent s3 with
          | None => None
          | Some (x, s4) =>
              Some (JNum negative m (x - Z.of_nat fractionDigits)%Z, s4)
          end
      end
  end.

Inductive StringState :=
| Plain
| Escaped
| Hex (remaining : nat) (acc : N).

(** The characters of a string after its opening quote. *)
Fixpoint parseChars (st : StringState) (s : string) (acc : list N)
  : option (list N * string) :=
  match s with
  | EmptyString => None
  | String a s' =>
      let n := N_of_ascii a in
      match st with
      | Plain =>
          if n =? 34 then Some (acc, s')
          else if n =? 92 then parseChars Escaped s' acc
          else if n <? 32 then None
          else parseChars Plain s' (acc ++ [n])
      | Escaped =>
          if (n =? 34) || (n =? 92) || (n =? 47) then parseChars Plain s' (acc ++ [n])
          else if n =? 98 then parseChars Plain s' (acc ++ [8])
          else if n =? 102 then parseChars Plain s' (acc ++ [12])
          else if n =? 110 then parseChars Plain s' (acc ++ [10])
          else if n =? 114 then parseChars Plain s' (acc ++ [13])
          else if n =? 116 then parseChars Plain s' (acc ++ [9])
          else if n =? 117 then parseChars (Hex 4 0) s' acc
          else None
      | Hex remaining h =>
          match hexOf a, remaining with
          | Some d, 1%nat => parseChars Plain s' (acc ++ [16 * h + d])
          | Some d, S r => parseChars (Hex r (16 * h + d)) s' acc
          | _, _ => None
          end
      end
  end.

Fixpoint parseValue (fuel : nat) (s : string) : option (JValue * string) :=
  match fuel with
  | O => None
  | S fuel' =>
      match skipWs s with
      | EmptyString => None
      | String a rest as s0 =>
          if JS.startsWith s0 "null" then Some (JNull, JS.dropN 4 s0)
          else if JS.startsWith s0 "true" then Some (JBool true, JS.dropN 4 s0)
          else if JS.startsWith s0 "false" then Some (JBool false, JS.dropN 5 s0)
          else if (N_of_ascii a =? 34) then
            match parseChars Plain rest [] with
            | Some (l, rest') => Some (JString l, rest')
            | None => None
            end
          else if Ascii.eqb a "[" then
            match skipWs rest with
            | String b rest' as s1 =>
                if Ascii.eqb b "]" then Some (JArray [], rest')
                else match parseItems fuel' s1 [] with
                     | Some (items, rest'') => Some (JArray items, rest'')
                     | None => None
                     end
            | EmptyString => None
            end
          else if Ascii.eqb a "{" then
            match skipWs rest with
            | String b rest' as s1 =>
                if Ascii.eqb b "}" then Some (JObject [], rest')
                else match parseMembers fuel' s1 [] with
                     | Some (members, rest'') => Some (JObject members, rest'')
                     | None => None
                     end
            | EmptyString => None
            end
          else parseNumber s0
      end
  end
with parseItems (fuel : nat) (s : string) (acc : list JValue)
  : option (list JValue * string) :=
  match fuel with
  | O => None
  | S fuel' =>
      match parseValue fuel' s with
      | Some (v, rest) =>
          match skipWs rest with
          | String b rest' =>
              if Ascii.eqb b "," then parseItems fuel' rest' (acc ++ [v])
              else if Ascii.eqb b "]" then Some (acc ++ [v], rest')
              else None
          | EmptyString => None
          end
      | None => None
      end
  end
with parseMembers (fuel : nat) (s : string) (acc : list (list N * JValue))
  : option (list (list N * JValue) * string) :=
  match fuel with
  | O => None
  | S fuel' =>
      match skipWs s with
      | String q afterQuote =>
          if (N_of_ascii q =? 34) then
            match parseChars Plain afterQuote [] with
            | Some (key, rest) =>
                match skipWs rest with
                | String c rest' =>
                    if Ascii.eqb c ":" then
                      match parseValue fuel' rest' with
                      | Some (v, rest'') =>
                          match skipWs rest'' with
                          | String b rest3 =>
                              if Ascii.eqb b ","
                              then parseMembers fuel' rest3 (acc ++ [(key, v)])
                              else if Ascii.eqb b "}"
                              then Some (acc ++ [(key, v)], rest3)
                              else None
                          | EmptyString => None
                          end
                      | None => None
                      end
                    else None
                | EmptyString => None
                end
            | None => None
            end
          else None
      | EmptyString => None
      end
  end.

(** [JSON.parse(text)].  Every call of the parser consumes a code
    unit, so the length of the text is fuel enough.  The message of the
    SyntaxError is the engine's; a fixed one stands for it. *)
Definition parse (text : string) : Outcome JValue :=
  match parseValue (S (String.length text)) text with
  | Some (v, rest) =>
      match skipWs rest with
      | EmptyString => Returns v
      | _ => Throws "Unexpected non-whitespace character after JSON"
      end
  | None => Throws "Unexpected token in JSON"
  end.

End JSON.

(** ** The records that travel through the pipeline *)

(** A source article as the store returns it. *)
Record Article := {
  a_id : N;
  a_title : string;
  a_content : string;
  a_excerpt : option string;
  a_author : option string;
  a_published_at : option string;
  a_featured_image : option string;
  a_original_url : option string;
}.

(** A competitor document: the candidate ([title], [url], [snippet])
    with what the scraper read from its page. *)
Record Competitor := {
  c_title : string;
  c_url : string;
  c_snippet : string;
  c_content : string;
  c_htmlContent : string;
  c_excerpt : string;
  c_image_url : option string;
}.

(** The double quote, which no string literal of this file contains. *)
Definition dq : string := String (ascii_of_N 34) EmptyString.

(** [arr.map((c, i) => f(c, i))] *)
Fixpoint mapi {A B} (f : A -> nat -> B) (i : nat) (arr : list A) : list B :=
  match arr with
  | [] => []
  | c :: rest => f c i :: mapi f (S i) rest
  end.

(** [arr.join(sep)] *)
Fixpoint join (sep : string) (arr : list string) : string :=
  match arr with
  | [] => EmptyString
  | [s] => s
  | s :: rest => s +:+ sep +:+ join sep rest
  end.

Definition newline : string := String (ascii_of_N 10) EmptyString.

(** ** services/llmEnhancer.js *)

Module LlmEnhancer.

Record Message := { m_content : option string }.
Record Choice := { ch_message : option Message }.

(** What [client.chat.completions.create] settles to. *)
Inductive Completion :=
| Rejects (message : string)
| Resolves (choices : list Choice).

(** The generative service: from the prompt of the one user message to
    the completion.  Model, temperature and token limit are constants
    of each call site. *)
Definition Client := string -> Completion.

(** [chatCompletion.choices[0]?.message?.content] *)
Definition firstContent (choices : list Choice) : option string :=
  match choices with
  | [] => None
  | ch :: _ =>
      match ch_message ch with
      | Some m => m_content m
      | None => None
      end
  end.

Definition keyMissingMessage : string :=
  "GROQ_API_KEY is not set. Get a free key at https://console.groq.com/keys".

(** [GROQ_API_KEY] is the environment variable, [None] when unset.
    The client object is created once and kept; the code reads nothing
    from it but the call above, so it is not part of the state. *)
Definition initializeClient (GROQ_API_KEY : option string) : Outcome unit :=
  if negb (JS.truthy GROQ_API_KEY)
     || String.eqb (default "" GROQ_API_KEY) "your_groq_api_key_here"
  then Throws keyMissingMessage
  else Returns tt.

Definition stripHtml (html : string) : string :=
  JS.orElse (JS.trim (JS.collapseSpaces false (JS.replaceTags false html))) "".

(** Matching of [/<h1[^>]*>(.*?)<\/h1>/i].  Letters of the pattern
    match in either case. *)
Definition upperAZ (c : ascii) : ascii :=
  let n := N_of_ascii c in
  if (97 <=? n) && (n <=? 122) then ascii_of_N (n - 32) else c.

Fixpoint startsWithCI (s p : string) : bool :=
  match p, s with
  | EmptyString, _ => true
  | String a p', String b s' =>
      Ascii.eqb (upperAZ a) (upperAZ b) && startsWithCI s' p'
  | String _ _, EmptyString => false
  end.

(** [[^>]*>]: what follows the first [>], if there is one. *)
Fixpoint afterGt (s : string) : option string :=
  match s with
  | EmptyString => None
  | String a s' => if Ascii.eqb a ">" then Some s' else afterGt s'
  end.

(** [(.*?)<\/h1>]: the shortest text, free of line terminators, that
    the closing tag follows. *)
Fixpoint untilCloseH1 (s : string) : option string :=
  if startsWithCI s "</h1>" then Some EmptyString
  else match s with
       | EmptyString => None
       | String a s' =>
           if (N_of_ascii a =? 10) || (N_of_ascii a =? 13) then None
           else match untilCloseH1 s' with
                | Some captured => Some (String a captured)
                | None => None
                end
       end.

(** The first capture of the leftmost match. *)
Fixpoint matchH1 (html : string) : option string :=
  match html with
  | EmptyString => None
  | String _ rest =>
      let here :=
        if startsWithCI html "<h1"
        then match afterGt (JS.dropN 3 html) with
             | Some body => untilCloseH1 body
             | None => None
             end
        else None in
      match here with
      | Some captured => Some captured
      | None => matchH1 rest
      end
  end.

Definition extractTitle (html : string) : option string :=
  match matchH1 html with
  | Some captured => Some (stripHtml captured)
  | None => None
  end.

Record Enhanced := {
  en_content : string;
  en_title : string;
}.

Definition enhanceCompetitorContent (competitorArticles : list Competitor) : string :=
  join newline
    (mapi (fun c i => "
--- Reference Article " +:+ JS.showNat (i + 1) +:+ ": " +:+ dq +:+ c_title c +:+ dq +:+ " ---
URL: " +:+ c_url c +:+ "
Content Summary:
" +:+ JS.orElse (JS.substring (c_content c) 0 2000) (c_snippet c) +:+ "
")
       0%nat competitorArticles).

Definition enhancePrompt (originalArticle : Article)
           (competitorArticles : list Competitor) : string :=
  let competitorContent := enhanceCompetitorContent competitorArticles in
  "You are an expert Content Editor & SEO Specialist. Your task is to scientifically enhance a blog article by comparing it against top-ranking competitors text-by-text.

## CORE OBJECTIVE
1. **Understand**: Fully scan the Original Article's header and content to grasp the core topic and flow.
2. **Compare**: Scan the Competitor Articles provided. For each section/point, check:
   - " +:+ dq +:+ "Does the competitor explain this better?" +:+ dq +:+ "
   - " +:+ dq +:+ "Does the competitor include valid points/examples/statistics we missed?" +:+ dq +:+ "
3. **Enhance**: If you find missing points, **INSERT** new paragraphs. DO NOT rewrite existing paragraphs.
   - **UNIQUE WRITING**: Do NOT copy-paste. Rewrite competitor points in your own words.
   - **SEO**: Ensure the new text uses natural semantic keywords.
4. **PRESERVE (CRITICAL)**: 
   - NEVER delete, shorten, or modify ANY existing sentence from the original.
   - NEVER rewrite existing paragraphs. Keep them EXACTLY as they are, word-for-word.
   - Your job is ONLY to INSERT new paragraphs BETWEEN existing ones.
   - The original article MUST remain 100% intact in the output.

## 1. Original Article (PRESERVE EVERY WORD)
Title: " +:+ a_title originalArticle +:+ "
Full Content:
" +:+ JS.substring (a_content originalArticle) 0 100000 +:+ "

## 2. Top Ranking Competitors (SOURCE MATERIAL)
" +:+ competitorContent +:+ "

## 3. Enhancement Rules (STRICT ALGORITHM)
- **Step 1**: Identify gaps. If competitors talk about " +:+ dq +:+ "X" +:+ dq +:+ " and we don't, add a NEW paragraph about " +:+ dq +:+ "X" +:+ dq +:+ ".
- **Step 2**: Identify quality gaps. If competitors have a " +:+ dq +:+ "Pro Tip" +:+ dq +:+ " or " +:+ dq +:+ "Statistic" +:+ dq +:+ " we lack, add it as a NEW paragraph.
- **Step 3**: **INSERT** the new content naturally BETWEEN existing paragraphs. NEVER replace text.
- **Step 4**: **HIGHLIGHTING**: Wrap ONLY the newly added paragraphs in <mark> tags.
    - Original text: NO highlighting (keep as-is)
    - New paragraphs you add: <mark>Your new paragraph here.</mark>
    - DO NOT highlight original content. Only highlight what YOU wrote.

## 4. Output Requirements
- Return the **FULL HTML** of the article with your enhancements.
- **Keep ALL original <img> tags exactly where they are.**
- **Keep ALL original <iframe> tags (YouTube embeds, videos) EXACTLY as they are. DO NOT REMOVE THEM.**
- **Keep ALL original <video> and <embed> tags intact.**
- **Keep ALL original headings and structure.**
- **Formatting**: Output valid HTML only. No markdown blocks.

## 5. CRITICAL: HUMAN-LIKE WRITING STYLE (ANTI-AI DETECTION)
Your writing MUST pass AI detection tools. Follow these rules strictly:
- **Vary sentence length dramatically**: Mix very short punchy sentences. Then write longer ones with multiple clauses that flow naturally.
- **Use contractions naturally**: don't, won't, can't, it's, you're, we've, that's
- **Add rhetorical questions**: " +:+ dq +:+ "But wait, what does this actually mean for your business?" +:+ dq +:+ "
- **Use informal transitions**: Honestly, Look, Here's the thing, Now, So, And yes, Plus
- **Include personal opinions**: " +:+ dq +:+ "Frankly, this is where most businesses drop the ball." +:+ dq +:+ "
- **Add colloquial phrases**: " +:+ dq +:+ "bottom line" +:+ dq +:+ ", " +:+ dq +:+ "at the end of the day" +:+ dq +:+ ", " +:+ dq +:+ "let's be real" +:+ dq +:+ ", " +:+ dq +:+ "game-changer" +:+ dq +:+ "
- **Break grammar rules occasionally**: Start sentences with " +:+ dq +:+ "And" +:+ dq +:+ " or " +:+ dq +:+ "But" +:+ dq +:+ ". Use fragments for emphasis.
- **Reference real-world context**: " +:+ dq +:+ "Think about the last time you..." +:+ dq +:+ " or " +:+ dq +:+ "We've all been there..." +:+ dq +:+ "
- **Avoid overly formal synonyms**: use " +:+ dq +:+ "use" +:+ dq +:+ " not " +:+ dq +:+ "utilize" +:+ dq +:+ ", " +:+ dq +:+ "help" +:+ dq +:+ " not " +:+ dq +:+ "facilitate" +:+ dq +:+ ", " +:+ dq +:+ "show" +:+ dq +:+ " not " +:+ dq +:+ "demonstrate" +:+ dq.

Definition enhanceArticle (GROQ_API_KEY : option string) (client : Client)
           (originalArticle : Article) (competitorArticles : list Competitor)
  : Outcome Enhanced :=
  _ ← initializeClient GROQ_API_KEY;
  let prompt := enhancePrompt originalArticle competitorArticles in
  match client prompt with
  | Resolves choices =>
      let enhancedContent := JS.orElseOpt (firstContent choices) "" in
      mret {| en_content := enhancedContent;
              en_title := JS.orElseOpt (extractTitle enhancedContent)
                            ("Enhanced: " +:+ a_title originalArticle) |}
  | Rejects e => Throws e
  end.

(** The gap analysis that is published with the article.  The six
    fields are whatever the parsed response holds under their names. *)
Record GapAnalysis := {
  missing : JValue;
  improve : JValue;
  strengths : JValue;
  keywords_missing : JValue;
  overall_score : JValue;
  recommendations : JValue;
  error : option string;
}.

Definition gapCompetitorContent (competitorArticles : list Competitor) : string :=
  join newline
    (mapi (fun c i => "
Article " +:+ JS.showNat (i + 1) +:+ ": " +:+ dq +:+ c_title c +:+ dq +:+ "
Key Topics: " +:+ JS.orElse (JS.substring (c_content c) 0 1500) (c_snippet c) +:+ "
")
       0%nat competitorArticles).

Definition gapPrompt (originalArticle : Article)
           (competitorArticles : list Competitor) : string :=
  let competitorContent := gapCompetitorContent competitorArticles in
  "Analyze the original article against these competitor articles and identify gaps.

## Original Article
Title: " +:+ a_title originalArticle +:+ "
Content Summary:
" +:+ JS.substring (stripHtml (a_content originalArticle)) 0 3000 +:+ "

## Competitor Articles
" +:+ competitorContent +:+ "

## Analysis Task
Compare the original with competitors and return a JSON object with:
1. " +:+ dq +:+ "missing" +:+ dq +:+ " - Topics/points competitors cover that the original doesn't (array of strings)
2. " +:+ dq +:+ "improve" +:+ dq +:+ " - Areas where original could be stronger (array of strings)
3. " +:+ dq +:+ "strengths" +:+ dq +:+ " - What the original does well (array of strings)
4. " +:+ dq +:+ "keywords_missing" +:+ dq +:+ " - Important keywords/phrases competitors use that we don't (array)
5. " +:+ dq +:+ "overall_score" +:+ dq +:+ " - Quality score 1-10 compared to competitors
6. " +:+ dq +:+ "recommendations" +:+ dq +:+ " - Top 3 specific improvements (array)

Return ONLY valid JSON, no markdown formatting or explanation.".

(** The structure returned by the [catch] of the gap analysis. *)
Definition defaultAnalysis (message : string) : GapAnalysis :=
  {| missing := JArray [JString (JSON.u16 "Unable to analyze - please check API key")];
     improve := JArray [];
     strengths := JArray [];
     keywords_missing := JArray [];
     overall_score := JNum false 0 0;
     recommendations := JArray [];
     error := Some message |}.

(** The text handed to [JSON.parse]: the content, or ["{}"], without
    its code fences and trimmed. *)
Definition cleanAnalysisText (choices : list Choice) : string :=
  let analysisText := JS.orElseOpt (firstContent choices) "{}" in
  JS.trim
    (JS.removeAllWithNewline "```" 0
       (JS.removeAllWithNewline "```json" 0 analysisText)).

(** The object built from the parsed response. *)
Definition readAnalysis (analysis : JValue) : Outcome GapAnalysis :=
  missing' ← JSON.getProp analysis "missing";
  improve' ← JSON.getProp analysis "improve";
  strengths' ← JSON.getProp analysis "strengths";
  keywords_missing' ← JSON.getProp analysis "keywords_missing";
  overall_score' ← JSON.getProp analysis "overall_score";
  recommendations' ← JSON.getProp analysis "recommendations";
  mret {| missing := JSON.orElse missing' (JArray []);
          improve := JSON.orElse improve' (JArray []);
          strengths := JSON.orElse strengths' (JArray []);
          keywords_missing := JSON.orElse keywords_missing' (JArray []);
          overall_score := JSON.orElse overall_score' (JNum false 5 0);
          recommendations := JSON.orElse recommendations' (JArray []);
          error := None |}.

(** The left side of [x || d] is lacking or falsy: the cases in which
    the default [d] is taken. *)
Definition lacking (x : option JValue) : bool :=
  match x with
  | Some v => negb (JSON.truthy v)
  | None => true
  end.

(** What [readAnalysis] builds from a parsed response that is not
    [null]. *)
Definition analysisOf (analysis : JValue) : GapAnalysis :=
  {| missing := JSON.orElse (JSON.ownProperty analysis "missing") (JArray []);
     improve := JSON.orElse (JSON.ownProperty analysis "improve") (JArray []);
     strengths := JSON.orElse (JSON.ownProperty analysis "strengths") (JArray []);
     keywords_missing :=
       JSON.orElse (JSON.ownProperty analysis "keywords_missing") (JArray []);
     overall_score :=
       JSON.orElse (JSON.ownProperty analysis "overall_score") (JNum false 5 0);
     recommendations :=
       JSON.orElse (JSON.ownProperty analysis "recommendations") (JArray []);
     error := None |}.

Definition performGapAnalysis (rt : Runtime) (GROQ_API_KEY : option string)
           (client : Client) (originalArticle : Article)
           (competitorArticles : list Competitor) : Outcome GapAnalysis :=
  _ ← initializeClient GROQ_API_KEY;
  let prompt := gapPrompt originalArticle competitorArticles in
  mret
    (tryCatch
       (match client prompt with
        | Resolves choices =>
            analysis ← JSON_parse rt (cleanAnalysisText choices);
            readAnalysis analysis
        | Rejects e => Throws e
        end)
       defaultAnalysis).

End LlmEnhancer.

(** ** services/contentScraper.js *)

Module ContentScraper.
Import GoogleSearcher.

(** What [scrapeArticleContent(url)] resolves to, when not to [null]:
    the fields that [scrapeMultipleArticles] reads. *)
Record Scraped := {
  s_textContent : string;
  s_content : string;
  s_excerpt : option string;
  s_image_url : option string;
}.

(** [scrape] is the page reader: [None] when it resolves to [null]. *)
Definition scrapeMultipleArticles (scrape : string -> option Scraped)
           (urls : list Candidate) : list Competitor :=
  omap (fun urlInfo =>
          match scrape (cand_url urlInfo) with
          | Some content =>
              Some {| c_title := cand_title urlInfo;
                      c_url := cand_url urlInfo;
                      c_snippet := cand_snippet urlInfo;
                      c_content := s_textContent content;
                      c_htmlContent := s_content content;
                      c_excerpt := JS.orElseOpt (s_excerpt content) (cand_snippet urlInfo);
                      c_image_url := s_image_url content |}
          | None => None
          end) urls.

End ContentScraper.

(** ** The article store *)

Module Store.

(** The storage service, as [ArticleController] gives it and section 6
    of the specification describes it.  A store is the list of its rows,
    each an article with its status; a listing filters by status, as
    [index] does; creating adds a row under a fresh identifier and
    answers a body that holds the row, as [store] does. *)
Record Row := {
  row_article : Article;
  row_status : string;
}.

Definition Store := list Row.

Definition listArticles (status : string) (store : Store) : list Article :=
  map row_article (List.filter (fun r => String.eqb (row_status r) status) store).

Definition nextId (store : Store) : N := N.of_nat (length store) + 1.

(** The body with which [ArticleController::store] answers a POST: the
    properties [success], [message] and [data], the last one being the
    row created. *)
Record Created := {
  created_success : bool;
  created_message : string;
  created_data : Article;
}.

End Store.

(** ** processAll.js *)

Module ProcessAll.
Import GoogleSearcher ContentScraper LlmEnhancer Store.

Definition COMPETITOR_COUNT : nat := 2.

Record Env := {
  GROQ_API_KEY : option string;
  SERP_API_KEY : option string;
}.

Record CompetitorSummary := {
  source_url : string;
  cs_title : string;
  content_summary : string;
}.

(** The body of the POST that publishes an enhanced article. *)
Record Payload := {
  p_title : string;
  p_content : string;
  p_excerpt : option string;
  p_author : option string;
  p_published_at : option string;
  p_featured_image : option string;
  p_original_url : option string;
  p_status : string;
  p_references : list string;
  p_gap_analysis : GapAnalysis;
  p_competitor_articles : list CompetitorSummary;
}.

(** What the network answers while one item is processed. *)
Record ItemWorld := {
  w_serp : SerpResponse;
  w_ddg : DdgResponse;
  w_scrape : string -> option Scraped;
  w_gap : Client;
  w_enhance : Client;
  (** the message of the error when the POST fails *)
  w_publishFails : Payload -> option string;
}.

(** What the network answers during a run. *)
Record World := {
  (** the message of the error when a listing fails *)
  w_originalsFail : option string;
  w_updatedFail : option string;
  (** the answers for the item at each index of the loop *)
  w_item : nat -> ItemWorld;
}.

(** [publishArticle]: the row is added when the POST succeeds, and the
    function returns [response.data], the body of the answer. *)
Definition publishArticle (w : ItemWorld) (articleData : Payload) (store : Store)
  : Outcome (Created * Store) :=
  match w_publishFails w articleData with
  | Some e => Throws e
  | None =>
      let created :=
        {| a_id := nextId store;
           a_title := p_title articleData;
           a_content := p_content articleData;
           a_excerpt := p_excerpt articleData;
           a_author := p_author articleData;
           a_published_at := p_published_at articleData;
           a_featured_image := p_featured_image articleData;
           a_original_url := p_original_url articleData |} in
      Returns ({| created_success := true;
                  created_message := "Article created successfully";
                  created_data := created |},
               store ++ [{| row_article := created;
                            row_status := p_status articleData |}])
  end.

(** [enhancedArticle.id], read on the body that [publishArticle]
    returned.  The body has the properties [success], [message] and
    [data] and no property [id]: the read gives [undefined], whatever the
    row created is. *)
Definition enhancedArticle_id (enhancedArticle : Created) : option N := None.

Fixpoint mapOutcome {A B} (f : A -> Outcome B) (arr : list A) : Outcome (list B) :=
  match arr with
  | [] => Returns []
  | x :: rest =>
      y ← f x;
      ys ← mapOutcome f rest;
      mret (y :: ys)
  end.

Definition citationCard (rt : Runtime) (c : Competitor) : Outcome string :=
  match URL_hostname rt (c_url c) with
  | None => Throws "Invalid URL"
  | Some hostname =>
      let snippet :=
        JS.orElse (c_snippet c)
          (JS.orElse (c_excerpt c) "Read the full article to learn more.") in
      let cleanSnippet :=
        if 120 <? JS.strlen snippet
        then JS.substring snippet 0 120 +:+ "..."
        else snippet in
      let imageHtml :=
        match c_image_url c with
        | Some src =>
            if JS.truthy (Some src)
            then "<img src=" +:+ dq +:+ src +:+ dq +:+ " alt=" +:+ dq +:+ c_title c +:+ dq +:+ " loading=" +:+ dq +:+ "lazy" +:+ dq +:+ " onerror=" +:+ dq +:+ "this.style.display='none';this.parentElement.querySelector('.related-image-placeholder').style.display='flex'" +:+ dq +:+ ">
                   <div class=" +:+ dq +:+ "related-image-placeholder" +:+ dq +:+ " style=" +:+ dq +:+ "display:none" +:+ dq +:+ ">" +:+ c_title c +:+ "</div>"
            else "<div class=" +:+ dq +:+ "related-image-placeholder" +:+ dq +:+ ">" +:+ c_title c +:+ "</div>"
        | None => "<div class=" +:+ dq +:+ "related-image-placeholder" +:+ dq +:+ ">" +:+ c_title c +:+ "</div>"
        end in
      Returns ("
    <a href=" +:+ dq +:+ c_url c +:+ dq +:+ " target=" +:+ dq +:+ "_blank" +:+ dq +:+ " rel=" +:+ dq +:+ "noopener" +:+ dq +:+ " class=" +:+ dq +:+ "related-article-card" +:+ dq +:+ ">
        <div class=" +:+ dq +:+ "related-image" +:+ dq +:+ ">
            " +:+ imageHtml +:+ "
        </div>
        <div style=" +:+ dq +:+ "padding: 1rem;" +:+ dq +:+ ">
            <h3>" +:+ c_title c +:+ "</h3>
            <div class=" +:+ dq +:+ "related-meta" +:+ dq +:+ ">Source: " +:+ hostname +:+ "</div>
            <p class=" +:+ dq +:+ "related-excerpt" +:+ dq +:+ ">" +:+ cleanSnippet +:+ "</p>
        </div>
    </a>")
  end.

Definition citationSection (citationCards firstUrl : string) : string :=
  "
<section class=" +:+ dq +:+ "related-articles-section" +:+ dq +:+ ">
  <h2>Reference Articles</h2>
  <p class=" +:+ dq +:+ "section-subtitle" +:+ dq +:+ ">These articles were analyzed by our AI to enhance the content above</p>
  <div class=" +:+ dq +:+ "related-articles-grid" +:+ dq +:+ ">
    " +:+ citationCards +:+ "
  </div>
  <button class=" +:+ dq +:+ "see-more-btn" +:+ dq +:+ " onclick=" +:+ dq +:+ "window.open('" +:+ firstUrl +:+ "', '_blank')" +:+ dq +:+ ">See more recommendations</button>
</section>".

Definition generateCitations (rt : Runtime) (competitors : list Competitor)
  : Outcome string :=
  match competitors with
  | [] => Returns ""
  | first :: _ =>
      cards ← mapOutcome (citationCard rt) competitors;
      mret (citationSection (join newline cards) (c_url first))
  end.

Inductive ProcessResult :=
| Success (articleId : option N) (score : JValue)
| Failure (reason : string).

Definition buildPayload (article : Article) (enhanced : Enhanced)
           (citationHtml : string) (gapAnalysis : GapAnalysis)
           (competitorArticles : list Competitor) : Payload :=
  {| p_title := en_title enhanced;
     p_content := en_content enhanced +:+ citationHtml;
     p_excerpt := a_excerpt article;
     p_author := a_author article;
     p_published_at := a_published_at article;
     p_featured_image := a_featured_image article;
     p_original_url := a_original_url article;
     p_status := "updated";
     p_references := map c_url competitorArticles;
     p_gap_analysis := gapAnalysis;
     p_competitor_articles :=
       map (fun c => {| source_url := c_url c;
                        cs_title := c_title c;
                        content_summary :=
                          JS.orElse (c_excerpt c) (JS.substring (c_content c) 0 300) |})
           competitorArticles |}.

(** The [try] block of [processArticle]; the store is threaded through
    it, and comes back changed when the article was published. *)
Definition processArticleTry (rt : Runtime) (env : Env) (w : ItemWorld)
           (article : Article) (store : Store) : Outcome (ProcessResult * Store) :=
  let searchResults :=
    searchRelatedArticles rt (SERP_API_KEY env) (w_serp w) (w_ddg w) COMPETITOR_COUNT in
  if bool_decide (length searchResults = 0%nat)
  then Returns (Failure "No competitors found", store)
  else
    let competitorArticles := scrapeMultipleArticles (w_scrape w) searchResults in
    if bool_decide (length competitorArticles = 0%nat)
    then Returns (Failure "Scraping failed", store)
    else
      gapAnalysis ← performGapAnalysis rt (GROQ_API_KEY env) (w_gap w) article competitorArticles;
      enhanced ← enhanceArticle (GROQ_API_KEY env) (w_enhance w) article competitorArticles;
      citationHtml ← generateCitations rt competitorArticles;
      '(enhancedArticle, store') ← publishArticle w
           (buildPayload article enhanced citationHtml gapAnalysis competitorArticles) store;
      mret (Success (enhancedArticle_id enhancedArticle) (overall_score gapAnalysis),
            store').

(** [index] and [total] are only printed. *)
Definition processArticle (rt : Runtime) (env : Env) (w : ItemWorld)
           (article : Article) (index total : nat) (store : Store)
  : ProcessResult * Store :=
  tryCatch (processArticleTry rt env w article store)
           (fun message => (Failure message, store)).

Record ErrorEntry := {
  err_title : string;
  err_reason : string;
}.

(** The object [results] of [main]. *)
Record Results := {
  success : nat;
  failed : nat;
  skipped : nat;
  errors : list ErrorEntry;
}.

(** The state of a run: [results], the store, and, for the statements
    below, the calls of [processArticle] made so far with what each
    returned. *)
Record Run := {
  results : Results;
  store : Store;
  attempted : list (Article * ProcessResult);
}.

(** The set built by [enhancedArticles.forEach(..)]. *)
Definition collectUrls (enhancedArticles : list Article) : gset string :=
  foldl (fun urls a =>
           match a_original_url a with
           | Some u => if JS.truthy (Some u) then {[ u ]} ∪ urls else urls
           | None => urls
           end) ∅ enhancedArticles.

(** [urls.has(u)]; the set holds strings only. *)
Definition has (urls : gset string) (u : option string) : bool :=
  match u with
  | Some x => bool_decide (x ∈ urls)
  | None => false
  end.

(** The branch on [result.success] in the loop: the counters after the
    item at index [i].  The title of a failure is read from
    [articles[i]], as the code does. *)
Definition countResult (articles : list Article) (i : nat) (r : Results)
           (result : ProcessResult) : Outcome Results :=
  match result with
  | Success _ _ =>
      Returns {| success := S (success r); failed := failed r;
                 skipped := skipped r; errors := errors r |}
  | Failure reason =>
      match articles !! i with
      | Some a =>
          Returns {| success := success r; failed := S (failed r);
                     skipped := skipped r;
                     errors := errors r ++ [{| err_title := a_title a;
                                               err_reason := reason |}] |}
      | None => Throws "Cannot read properties of undefined (reading 'title')"
      end
  end.

(** The [for] loop from index [i] on; [todo] is what is left of
    [articlesToProcess].  The pause between two items has no effect on
    the state and is left out. *)
Fixpoint loop (rt : Runtime) (env : Env) (w : World) (articles : list Article)
         (total : nat) (i : nat) (todo : list Article) (run : Run) : Outcome Run :=
  match todo with
  | [] => Returns run
  | item :: rest =>
      let '(result, store') := processArticle rt env (w_item w i) item i total (store run) in
      r' ← countResult articles i (results run) result;
      let run' := {| results := r'; store := store';
                     attempted := attempted run ++ [(item, result)] |} in
      if (10 <=? success r')%nat then Returns run'
      else loop rt env w articles total (S i) rest run'
  end.

(** The loop as a relation between the states of a run: from index [i]
    and the items [todo], the run [run] ends as [final]. *)
Inductive Iterates (rt : Runtime) (env : Env) (w : World) (articles : list Article)
          (total : nat) : nat -> list Article -> Run -> Run -> Prop :=
| Iterates_end (i : nat) (run : Run) :
    Iterates rt env w articles total i [] run run
| Iterates_cap (i : nat) (item : Article) (rest : list Article) (run : Run)
               (result : ProcessResult) (store' : Store) (r' : Results) :
    processArticle rt env (w_item w i) item i total (store run) = (result, store') ->
    countResult articles i (results run) result = Returns r' ->
    (10 <= success r')%nat ->
    Iterates rt env w articles total i (item :: rest) run
      {| results := r'; store := store';
         attempted := attempted run ++ [(item, result)] |}
| Iterates_next (i : nat) (item : Article) (rest : list Article) (run final : Run)
                (result : ProcessResult) (store' : Store) (r' : Results) :
    processArticle rt env (w_item w i) item i total (store run) = (result, store') ->
    countResult articles i (results run) result = Returns r' ->
    (success r' < 10)%nat ->
    Iterates rt env w articles total (S i) rest
      {| results := r'; store := store';
         attempted := attempted run ++ [(item, result)] |} final ->
    Iterates rt env w articles total i (item :: rest) run final.

Definition articlesToProcess (alreadyEnhancedUrls : gset string)
           (articles : list Article) : list Article :=
  List.filter (fun a => negb (has alreadyEnhancedUrls (a_original_url a))) articles.

(** The set of the duplicate check: empty when the listing fails. *)
Definition alreadyEnhanced (w : World) (store : Store) : gset string :=
  match w_updatedFail w with
  | Some _ => ∅
  | None => collectUrls (listArticles "updated" store)
  end.

(** The state in which [main] enters the loop. *)
Definition initialRun (w : World) (before : Store) : Run :=
  {| results :=
       {| success := 0; failed := 0;
          skipped := length (listArticles "original" before)
                     - length (articlesToProcess (alreadyEnhanced w before)
                                 (listArticles "original" before));
          errors := [] |};
     store := before;
     attempted := [] |}.

Definition main (rt : Runtime) (env : Env) (w : World) (before : Store) : Outcome Run :=
  match w_originalsFail w with
  | Some e => Throws e
  | None =>
      let articles := listArticles "original" before in
      let todo := articlesToProcess (alreadyEnhanced w before) articles in
      loop rt env w articles (length todo) 0 todo (initialRun w before)
  end.

(** The articles that the duplicate check leaves out. *)
Definition skippedArticles (alreadyEnhancedUrls : gset string)
           (articles : list Article) : list Article :=
  List.filter (fun a => has alreadyEnhancedUrls (a_original_url a)) articles.

(** The items that a run considered: those left out as duplicates and
    those handed to [processArticle]. *)
Definition considered (w : World) (before : Store) (run : Run) : list Article :=
  skippedArticles (alreadyEnhanced w before) (listArticles "original" before)
  ++ map fst (attempted run).

Definition isSuccess (result : ProcessResult) : bool :=
  match result with
  | Success _ _ => true
  | Failure _ => false
  end.

Definition countSuccess (calls : list (Article * ProcessResult)) : nat :=
  length (List.filter (fun call => isSuccess call.2) calls).

Definition countFailure (calls : list (Article * ProcessResult)) : nat :=
  length (List.filter (fun call => negb (isSuccess call.2)) calls).

End ProcessAll.


(** ** The addition marker and the content-preservation check *)

Module Preservation.

(** The marker that the enhancement prompt prescribes for every inserted
    paragraph ([llmEnhancer.js], "Wrap ONLY the newly added paragraphs in
    <mark> tags"). *)
Definition openMark : string := "<mark>".
Definition closeMark : string := "</mark>".

(** A body with insertions: the text before the first insertion, then
    each inserted paragraph with the original text that follows it. *)
Fixpoint withAdditions (first : string) (rest : list (string * string)) : string :=
  match rest with
  | [] => first
  | (paragraph, following) :: rest' =>
      first +:+ openMark +:+ paragraph +:+ closeMark +:+ withAdditions following rest'
  end.

(** The same body with nothing inserted. *)
Fixpoint withoutAdditions (first : string) (rest : list (string * string)) : string :=
  match rest with
  | [] => first
  | (_, following) :: rest' => first +:+ withoutAdditions following rest'
  end.

(** Modelled from the spec: the sources have no function that strips
    addition markers; sections 3 and 8 describe the check as "stripping
    all addition markers" from the enhanced body.  Every segment from an
    opening marker to the nearest closing marker is removed, as
    [body.replace(/<mark>.*?<\/mark>/gs, '')] does; an opening marker
    that no closing marker follows stays.  [inMark] is true inside a
    segment, [skip] counts the code units of a marker still to drop. *)
Fixpoint stripFrom (inMark : bool) (skip : nat) (s : string) : string :=
  match s with
  | EmptyString => EmptyString
  | String a s' =>
      match skip with
      | S k => stripFrom inMark k s'
      | O =>
          if inMark
          then if JS.startsWith s closeMark then stripFrom false 6 s'
               else stripFrom true 0 s'
          else if JS.startsWith s openMark && JS.includes (JS.dropN 6 s) closeMark
               then stripFrom true 5 s'
               else String a (stripFrom false 0 s')
      end
  end.

Definition stripAdditions (body : string) : string := stripFrom false 0 body.

(** The content-preservation property for a stripping function: whenever
    the generative service answers the prompt with the body of the
    article and marked insertions, stripping what [enhanceArticle]
    returns gives the body back. *)
Definition preserves (strip : string -> string) : Prop :=
  forall (key : option string) (client : LlmEnhancer.Client)
         (article : Article) (competitors : list Competitor)
         (first : string) (rest : list (string * string))
         (enhanced : LlmEnhancer.Enhanced),
    a_content article = withoutAdditions first rest ->
    client (LlmEnhancer.enhancePrompt article competitors)
    = LlmEnhancer.Resolves
        [{| LlmEnhancer.ch_message :=
              Some {| LlmEnhancer.m_content := Some (withAdditions first rest) |} |}] ->
    LlmEnhancer.enhanceArticle key client article competitors = Returns enhanced ->
    strip (LlmEnhancer.en_content enhanced) = a_content article.

End Preservation.

(** ** A reference runtime and sample data for the examples *)

Module Samples.
Import GoogleSearcher ContentScraper LlmEnhancer Store ProcessAll.

(** The host of [http://host...] and [https://host...], which ends at the
    first of [/ ? # :]; other texts are refused.  It stands for the URL
    parser of the runtime on the URLs of the examples only. *)
Fixpoint hostPart (s : string) : string :=
  match s with
  | EmptyString => EmptyString
  | String a s' =>
      if Ascii.eqb a "/" || Ascii.eqb a "?" || Ascii.eqb a "#" || Ascii.eqb a ":"
      then EmptyString
      else String (JS.lowerChar a) (hostPart s')
  end.

Definition sampleHostname (url : string) : option string :=
  let host :=
    if JS.startsWith url "https://" then hostPart (JS.dropN 8 url)
    else if JS.startsWith url "http://" then hostPart (JS.dropN 7 url)
    else EmptyString in
  match host with
  | EmptyString => None
  | _ => Some host
  end.

(** Percent-decoding, which stands for [decodeURIComponent] in the
    examples.  An escape [%XX] below [%80] is the code unit [XX]; the
    two escapes that encode a code point from U+0080 to U+00FF in UTF-8
    are that code unit; a [%] that two hexadecimal digits do not follow,
    a continuation byte without its lead and a lead without its
    continuation are refused, as the URIError of the runtime.  The
    escapes of a code point above U+00FF, which no string of this model
    holds, are refused as well: the examples have none. *)
Fixpoint sampleDecode (s : string) : option string :=
  match s with
  | EmptyString => Some EmptyString
  | String a s1 =>
      if Ascii.eqb a "%"
      then
        match s1 with
        | String h (String l s3) =>
            match JSON.hexOf h, JSON.hexOf l with
            | Some x, Some y =>
                let byte := 16 * x + y in
                if byte <? 128
                then option_map (String (ascii_of_N byte)) (sampleDecode s3)
                else if (byte =? 194) || (byte =? 195)
                then
                  match s3 with
                  | String p (String h' (String l' s6)) =>
                      match JSON.hexOf h', JSON.hexOf l' with
                      | Some x', Some y' =>
                          let next := 16 * x' + y' in
                          if Ascii.eqb p "%" && (128 <=? next) && (next <=? 191)
                          then option_map
                                 (String (ascii_of_N ((byte - 192) * 64 + (next - 128))))
                                 (sampleDecode s6)
                          else None
                      | _, _ => None
                      end
                  | _ => None
                  end
                else None
            | _, _ => None
            end
        | _ => None
        end
      else option_map (String a) (sampleDecode s1)
  end.

Definition runtime : Runtime :=
  {| JSON_parse := JSON.parse;
     URL_hostname := sampleHostname;
     decodeURIComponent := sampleDecode |}.

Definition env : Env :=
  {| GROQ_API_KEY := Some "gsk_live"; SERP_API_KEY := Some "serp_live" |}.

Definition envNoGroqKey : Env :=
  {| GROQ_API_KEY := None; SERP_API_KEY := Some "serp_live" |}.

Definition article (id : N) (title : string) (url : option string) : Article :=
  {| a_id := id; a_title := title; a_content := "<p>Chatbots help.</p>";
     a_excerpt := None; a_author := Some "Ann"; a_published_at := None;
     a_featured_image := None; a_original_url := url |}.

Definition original (a : Article) : Row :=
  {| row_article := a; row_status := "original" |}.

Definition updated (a : Article) : Row :=
  {| row_article := a; row_status := "updated" |}.

Definition says (text : string) : Client :=
  fun _ => Resolves [{| ch_message := Some {| m_content := Some text |} |}].

Definition page : Scraped :=
  {| s_textContent := "Ten ways chatbots help support teams.";
     s_content := "<p>Ten ways chatbots help support teams.</p>";
     s_excerpt := Some "Ten ways";
     s_image_url := None |}.

Definition hit (link : string) : SerpResult :=
  {| r_link := link; r_title := "Chatbots"; r_snippet := Some "About chatbots" |}.

(** An item for which every stage answers; the gap analysis is the text
    [analysisText]. *)
Definition goodItem (analysisText : string) : ItemWorld :=
  {| w_serp := SerpData (Some [hit "https://www.tidio.com/blog/chatbots";
                               hit "https://www.facebook.com/tidio"]);
     w_ddg := DdgFails "unreachable";
     w_scrape := fun _ => Some page;
     w_gap := says analysisText;
     w_enhance := says "<h1>Chatbot Benefits</h1><p>Chatbots help.</p><mark>They scale.</mark>";
     w_publishFails := fun _ => None |}.

(** An item for which no provider lists a competitor. *)
Definition noCompetitorItem : ItemWorld :=
  {| w_serp := SerpData (Some []);
     w_ddg := DdgFails "unreachable";
     w_scrape := fun _ => Some page;
     w_gap := says "{}";
     w_enhance := says "<p>Chatbots help.</p>";
     w_publishFails := fun _ => None |}.

(** The competitors are found and none can be read. *)
Definition unreadableItem : ItemWorld :=
  {| w_serp := SerpData (Some [hit "https://www.tidio.com/blog/chatbots"]);
     w_ddg := DdgFails "unreachable";
     w_scrape := fun _ => None;
     w_gap := says "{}";
     w_enhance := says "<p>Chatbots help.</p>";
     w_publishFails := fun _ => None |}.

Definition world (item : ItemWorld) : World :=
  {| w_originalsFail := None; w_updatedFail := None; w_item := fun _ => item |}.

(** An answer in which [missing] is [null], [improve] is [0],
    [strengths] is a list, and the other fields are lacking. *)
Definition falsyFieldsText : string :=
  "{" +:+ dq +:+ "missing" +:+ dq +:+ ": null, "
      +:+ dq +:+ "improve" +:+ dq +:+ ": 0, "
      +:+ dq +:+ "strengths" +:+ dq +:+ ": [true]}".

Definition scoreText (score : string) : string :=
  "{" +:+ dq +:+ "overall_score" +:+ dq +:+ ": " +:+ score +:+ "}".

Definition competitor (url : string) : Competitor :=
  {| c_title := "Chatbots"; c_url := url; c_snippet := "About chatbots";
     c_content := "Ten ways chatbots help support teams.";
     c_htmlContent := "<p>Ten ways chatbots help support teams.</p>";
     c_excerpt := "Ten ways"; c_image_url := None |}.

End Samples.

(** ** services/contentScraper.js: the cleaning of extracted text *)

Module ContentCleaning.

(** For [/\n\s*\n/]: how many code units of [s], a text that follows a
    line feed, the match takes: the run of spaces at its head up to the
    last line feed of that run; [None] when the run has no line feed. *)
Fixpoint breakLength (s : string) : option nat :=
  match s with
  | EmptyString => None
  | String a s' =>
      if JS.isSpace a
      then match breakLength s' with
           | Some n => Some (S n)
           | None => if N_of_ascii a =? 10 then Some 1%nat else None
           end
      else None
  end.

(** [text.replace(/\n\s*\n/g, '\n\n')]; [skip] counts the code units of
    the current match still to drop. *)
Fixpoint normalizeBreaks (skip : nat) (s : string) : string :=
  match s with
  | EmptyString => EmptyString
  | String a s' =>
      match skip with
      | S k => normalizeBreaks k s'
      | O =>
          if N_of_ascii a =? 10
          then match breakLength s' with
               | Some n => newline +:+ newline +:+ normalizeBreaks n s'
               | None => String a (normalizeBreaks O s')
               end
          else String a (normalizeBreaks O s')
      end
  end.

(** [cleanText]: the spaces collapsed, the paragraph breaks normalized,
    both ends trimmed, at most 10000 code units kept. *)
Definition cleanText (text : string) : string :=
  JS.substring
    (JS.trim (normalizeBreaks 0 (JS.collapseSpaces false text)))
    0 10000.

End ContentCleaning.

(** ** index.js: the script for one article *)

Module SingleArticle.
Import GoogleSearcher ContentScraper LlmEnhancer Store ProcessAll.

(** What the network answers while the script runs: the latest
    original, or the message of the error of [fetchLatestArticle], and
    the answers of the stages. *)
Record World := {
  w_latest : Outcome Article;
  w_stages : ItemWorld;
}.

(** How the process ends: [main] returns the identifier of the published
    article, or the [catch] calls [process.exit(1)]. *)
Inductive Ending :=
| Published (id : N)
| Exit (code : nat).

(** [publishArticle] of [services/articleFetcher.js]: the POST is that
    of [processAll.js]; what is returned is [response.data.data], the
    row created, when the body reports success. *)
Definition publishArticle (w : ItemWorld) (articleData : Payload) (store : Store)
  : Outcome (Article * Store) :=
  '(body, store') ← ProcessAll.publishArticle w articleData store;
  if created_success body
  then mret (created_data body, store')
  else Throws "Failed to publish article".

(** The [try] block of [main].  No stage is left out when no competitor
    is found.  [generateCitations] is, text for text, that of
    [processAll.js]; the published object has the same fields. *)
Definition mainTry (rt : Runtime) (env : Env) (w : World) (store : Store)
  : Outcome (N * Store) :=
  article ← w_latest w;
  let searchResults :=
    searchRelatedArticles rt (SERP_API_KEY env) (w_serp (w_stages w))
      (w_ddg (w_stages w)) COMPETITOR_COUNT in
  let competitorArticles :=
    scrapeMultipleArticles (w_scrape (w_stages w)) searchResults in
  gapAnalysis ← performGapAnalysis rt (GROQ_API_KEY env) (w_gap (w_stages w))
                  article competitorArticles;
  enhanced ← enhanceArticle (GROQ_API_KEY env) (w_enhance (w_stages w))
               article competitorArticles;
  citationHtml ← generateCitations rt competitorArticles;
  '(enhancedArticle, store') ← publishArticle (w_stages w)
    (buildPayload article enhanced citationHtml gapAnalysis competitorArticles) store;
  mret (a_id enhancedArticle, store').

Definition main (rt : Runtime) (env : Env) (w : World) (store : Store)
  : Ending * Store :=
  tryCatch
    ('(id, store') ← mainTry rt env w store; mret (Published id, store'))
    (fun _ => (Exit 1, store)).

End SingleArticle.

(** ** pages/HomePage.jsx: the pages of the article list *)

Module HomePage.

Definition articlesPerPage : nat := 10.

(** [Math.ceil(filteredArticles.length / articlesPerPage)] *)
Definition totalPages (count : nat) : nat :=
  if (count mod articlesPerPage =? 0)%nat
  then (count / articlesPerPage)%nat
  else S (count / articlesPerPage).

(** [filteredArticles.slice(startIndex, startIndex + articlesPerPage)]
    with [startIndex = (currentPage - 1) * articlesPerPage].  At the
    page 0 the slice runs from the index -10, counted from the end, to
    the index 0, and is empty. *)
Definition paginatedArticles {A} (filteredArticles : list A) (currentPage : nat)
  : list A :=
  match currentPage with
  | O => []
  | S before =>
      take articlesPerPage (drop (before * articlesPerPage) filteredArticles)
  end.






End HomePage.

(** ** More sample data *)

Module MoreSamples.
Import GoogleSearcher ContentScraper LlmEnhancer Store ProcessAll.

(** A text of [n] letters [a] followed by [tail]. *)
Fixpoint padded (n : nat) (tail : string) : string :=
  match n with
  | O => tail
  | S n' => String "a" (padded n' tail)
  end.

Definition articleWith (content : string) : Article :=
  {| a_id := 1; a_title := "Chatbot Benefits"; a_content := content;
     a_excerpt := Some "Why chatbots"; a_author := Some "Ann";
     a_published_at := Some "2024-01-05T10:00:00Z";
     a_featured_image := Some "https://b.example/1.png";
     a_original_url := Some "https://b.example/1" |}.

Definition redirect (target : string) : DdgElement :=
  {| e_titleText := "Chatbot guide";
     e_href := Some ("//duckduckgo.com/l/?uddg=" +:+ target +:+ "&rut=1");
     e_snippetText := "A guide" |}.

(** The generative service is unreachable for the gap analysis only. *)
Definition gapDownItem : ItemWorld :=
  {| w_serp := SerpData (Some [Samples.hit "https://www.tidio.com/blog/chatbots"]);
     w_ddg := DdgFails "unreachable";
     w_scrape := fun _ => Some Samples.page;
     w_gap := fun _ => Rejects "429 rate limit";
     w_enhance := Samples.says "<h1>Chatbot Benefits</h1><p>Chatbots help.</p>";
     w_publishFails := fun _ => None |}.

(** The generative service is unreachable for the enhancement. *)
Definition enhanceDownItem : ItemWorld :=
  {| w_serp := SerpData (Some [Samples.hit "https://www.tidio.com/blog/chatbots"]);
     w_ddg := DdgFails "unreachable";
     w_scrape := fun _ => Some Samples.page;
     w_gap := Samples.says "{}";
     w_enhance := fun _ => Rejects "429 rate limit";
     w_publishFails := fun _ => None |}.

(** The enhancement call is answered without any choice. *)
Definition emptyAnswerItem : ItemWorld :=
  {| w_serp := SerpData (Some [Samples.hit "https://www.tidio.com/blog/chatbots"]);
     w_ddg := DdgFails "unreachable";
     w_scrape := fun _ => Some Samples.page;
     w_gap := Samples.says "{}";
     w_enhance := fun _ => Resolves [];
     w_publishFails := fun _ => None |}.

(** The storage service refuses the POST. *)
Definition postDownItem : ItemWorld :=
  {| w_serp := SerpData (Some [Samples.hit "https://www.tidio.com/blog/chatbots"]);
     w_ddg := DdgFails "unreachable";
     w_scrape := fun _ => Some Samples.page;
     w_gap := Samples.says "{}";
     w_enhance := Samples.says "<p>Chatbots help.</p>";
     w_publishFails := fun _ => Some "Request failed with status code 500" |}.

(** A store with two original articles. *)
Definition twoOriginals : Store :=
  [Samples.original (Samples.article 1 "Chatbot Benefits" (Some "https://b.example/1"));
   Samples.original (Samples.article 2 "Live Chat" (Some "https://b.example/2"))].

(** No competitor is found for the first item; the page of the
    competitor of the later ones cannot be read. *)
Definition failingWorld : World :=
  {| w_originalsFail := None; w_updatedFail := None;
     w_item := fun i => match i with
                        | O => Samples.noCompetitorItem
                        | S _ => Samples.unreadableItem
                        end |}.

(** A store with an original article and the article derived from it. *)
Definition enhancedOnce : Store :=
  [Samples.original (Samples.article 1 "Chatbot Benefits" (Some "https://b.example/1"));
   Samples.updated (Samples.article 2 "Chatbot Benefits" (Some "https://b.example/1"))].

(** A competitor whose title is a piece of markup. *)
Definition markupCompetitor : Competitor :=
  {| c_title := "<script>alert(1)</script>";
     c_url := "https://x.example/post";
     c_snippet := ""; c_content := ""; c_htmlContent := "";
     c_excerpt := ""; c_image_url := None |}.

End MoreSamples.

(** ** Shapes of text, for the statements about [stripHtml] *)

Module TextShape.

(** A match of [/<[^>]*>/] exists in [s]: a [<] that a [>] follows. *)
Fixpoint hasTag (s : string) : bool :=
  match s with
  | EmptyString => false
  | String a s' => (Ascii.eqb a "<" && JS.includes s' ">") || hasTag s'
  end.

(** Every white-space code unit of [s] is a space that stands alone;
    [afterSpace] tells that a space precedes [s]. *)
Fixpoint normalSpaces (afterSpace : bool) (s : string) : bool :=
  match s with
  | EmptyString => true
  | String a s' =>
      if JS.isSpace a
      then negb afterSpace && Ascii.eqb a " " && normalSpaces true s'
      else normalSpaces false s'
  end.

(** [s] does not begin with white space. *)
Definition headOk (s : string) : bool :=
  match s with
  | EmptyString => true
  | String a _ => negb (JS.isSpace a)
  end.

(** [s] has no [<] and no line terminator. *)
Fixpoint plainLine (s : string) : bool :=
  match s with
  | EmptyString => true
  | String a s' =>
      negb (Ascii.eqb a "<") && negb (N_of_ascii a =? 10) && negb (N_of_ascii a =? 13)
      && plainLine s'
  end.

End TextShape.

(** ** The candidates whose page can be read *)

Module Reading.
Import ContentScraper.


End Reading.

(** ** The report of a run, read off its calls *)

Module Report.
Import ProcessAll.

(** The reasons of the calls that failed, in the order of the calls. *)
Definition failureReasons (calls : list (Article * ProcessResult)) : list string :=
  omap (fun call => match call.2 with
                    | Failure reason => Some reason
                    | Success _ _ => None
                    end) calls.

End Report.


(** * Properties *)

(** ** Strings *)

Section StringFacts.
Import JS.

Lemma startsWith_toLowerCase (s p : string) :
  startsWith s p = true -> startsWith (toLowerCase s) (toLowerCase p) = true.
Proof.
  revert s. induction p as [|a p IH]; intros [|b s]; simpl; try done.
  rewrite !andb_true_iff. intros [Hab Hsp]. split; [|by apply IH].
  apply Ascii.eqb_eq in Hab. subst. apply Ascii.eqb_refl.
Qed.

Lemma includes_toLowerCase (s p : string) :
  includes s p = true -> includes (toLowerCase s) (toLowerCase p) = true.
Proof.
  induction s as [|b s IH]; simpl; rewrite !orb_true_iff.
  - intros [H|H]; [|done]. left. by apply (startsWith_toLowerCase EmptyString).
  - intros [H|H]; [left | right; by apply IH].
    by apply (startsWith_toLowerCase (String b s)).
Qed.

Lemma startsWith_empty (s : string) : startsWith s "" = true.
Proof. by destruct s. Qed.

Lemma startsWith_app_l (s t p : string) :
  startsWith s p = true -> startsWith (s +:+ t) p = true.
Proof.
  revert s. induction p as [|a p IH]; intros s; [intros _; apply startsWith_empty|].
  destruct s as [|b s]; simpl; [done|].
  rewrite !andb_true_iff. intros [Hab Hsp]. split; [done | by apply IH].
Qed.

(** A match at the head of [s +:+ t] lies in [s], or [s] is a proper
    prefix of the pattern and [t] begins with the rest of it. *)
Lemma startsWith_app_inv (s t p : string) :
  startsWith (s +:+ t) p = true ->
  startsWith s p = true \/
  ((String.length s < String.length p)%nat /\
   startsWith t (dropN (String.length s) p) = true).
Proof.
  revert p. induction s as [|b s IH]; intros [|a p]; simpl; auto.
  - intros H. right. split; [lia | done].
  - rewrite !andb_true_iff. intros [Hab H].
    destruct (IH _ H) as [Hl | [Hlen Hr]]; [left; done | right].
    split; [lia | done].
Qed.

Lemma includes_app_l (s t p : string) :
  includes s p = true -> includes (s +:+ t) p = true.
Proof.
  induction s as [|b s IH]; simpl; rewrite ?orb_true_iff.
  - intros [H|H]; [|done]. destruct p; [|done]. by destruct t.
  - intros [H|H].
    + left. by apply (startsWith_app_l (String b s)).
    + right. by apply IH.
Qed.

Lemma includes_app_r (s t p : string) :
  includes t p = true -> includes (s +:+ t) p = true.
Proof.
  intros H. induction s as [|b s IH]; simpl; [done|].
  rewrite IH. apply orb_true_r.
Qed.

Lemma includes_app_false (s t p : string) :
  includes (s +:+ t) p = false ->
  includes s p = false /\ includes t p = false.
Proof.
  intros H. split.
  - destruct (includes s p) eqn:E; [|done].
    by rewrite (includes_app_l _ t _ E) in H.
  - destruct (includes t p) eqn:E; [|done].
    by rewrite (includes_app_r s _ _ E) in H.
Qed.

Lemma orElseOpt_Some_empty (s : string) : orElseOpt (Some s) "" = s.
Proof. by destruct s. Qed.

End StringFacts.

(** ** Competitor discovery *)

Section Discovery.
Import JS GoogleSearcher.

Lemma excludePatterns_lower (pattern : string) :
  In pattern excludePatterns -> toLowerCase pattern = pattern.
Proof.
  unfold excludePatterns. simpl.
  intros H. repeat (destruct H as [<-|H]; [reflexivity|]). destruct H.
Qed.

Lemma includePatterns_lower (pattern : string) :
  In pattern includePatterns -> toLowerCase pattern = pattern.
Proof.
  unfold includePatterns. simpl.
  intros H. repeat (destruct H as [<-|H]; [reflexivity|]). destruct H.
Qed.

(** The filter rejects a URL in which an exclusion pattern occurs, in
    whatever case the URL is written. *)
Lemma isBlogOrArticle_excluded (url title pattern : string) :
  In pattern excludePatterns ->
  includes (toLowerCase url) pattern = true ->
  isBlogOrArticle url title = false.
Proof.
  intros Hin Hinc. unfold isBlogOrArticle, some.
  replace (existsb _ excludePatterns) with true; [done|].
  symmetry. apply existsb_exists. eauto.
Qed.

Lemma isBlogOrArticle_included (url title pattern : string) :
  In pattern includePatterns ->
  includes (toLowerCase url) pattern = true ->
  some (fun q => includes (toLowerCase url) q) excludePatterns = false ->
  isBlogOrArticle url title = true.
Proof.
  intros Hin Hinc Hex. unfold isBlogOrArticle. rewrite Hex.
  replace (some _ includePatterns) with true; [done|].
  symmetry. apply existsb_exists. eauto.
Qed.

(** Every candidate that the DuckDuckGo loop pushes passed the filter. *)
Lemma eachResult_filtered (rt : Runtime) (count : nat) (elements : list DdgElement)
      (results out : list Candidate) :
  Forall (fun c => isBlogOrArticle (cand_url c) (cand_title c) = true) results ->
  eachResult rt count elements results = Returns out ->
  Forall (fun c => isBlogOrArticle (cand_url c) (cand_title c) = true) out.
Proof.
  revert results. induction elements as [|element rest IH]; intros results Hres.
  - simpl. by intros [= <-].
  - cbn [eachResult].
    destruct (count + 5 <=? length results)%nat; [by intros [= <-]|].
    destruct (resolveRedirect rt (e_href element)) as [[u|]|e];
      cbn [mbind Outcome_bind bindO]; [| by apply IH | done].
    destruct (truthy (Some u) && truthy (Some (trim (e_titleText element)))
              && isBlogOrArticle u (trim (e_titleText element))
              && notBeyondChats u) eqn:Hpush; [|by apply IH].
    apply IH. apply Forall_app. split; [done|].
    repeat constructor. simpl.
    rewrite !andb_true_iff in Hpush. tauto.
Qed.

Lemma searchWithDuckDuckGo_filtered (rt : Runtime) (page : DdgResponse) (count : nat) :
  Forall (fun c => isBlogOrArticle (cand_url c) (cand_title c) = true)
         (searchWithDuckDuckGo rt page count).
Proof.
  unfold searchWithDuckDuckGo. destruct page as [e|elements]; simpl; [constructor|].
  destruct (eachResult rt count elements []) as [out|e] eqn:E; simpl; [|constructor].
  apply Forall_take. eapply eachResult_filtered; [|exact E]. constructor.
Qed.

Lemma searchWithSerpAPI_filtered (rt : Runtime) (response : SerpResponse)
      (page : DdgResponse) (count : nat) :
  Forall (fun c => isBlogOrArticle (cand_url c) (cand_title c) = true)
         (searchWithSerpAPI rt response page count).
Proof.
  unfold searchWithSerpAPI. destruct response as [e|organic_results].
  - apply searchWithDuckDuckGo_filtered.
  - apply Forall_map, Forall_take. simpl.
    apply List.Forall_forall. intros r Hr.
    apply filter_In in Hr as [Hr _]. by apply filter_In in Hr as [_ Hr].
Qed.

Lemma searchRelatedArticles_filtered (rt : Runtime) (key : option string)
      (response : SerpResponse) (page : DdgResponse) (count : nat) :
  Forall (fun c => isBlogOrArticle (cand_url c) (cand_title c) = true)
         (searchRelatedArticles rt key response page count).
Proof.
  unfold searchRelatedArticles.
  destruct (_ && _); [apply searchWithSerpAPI_filtered | apply searchWithDuckDuckGo_filtered].
Qed.

(** C8. Discovery filtering: a candidate whose URL contains one of the
    exclusion patterns, the social-media domains among them, is rejected
    by [isBlogOrArticle] and is not among the results of
    [searchRelatedArticles], whatever the providers answer; a candidate
    whose URL contains an article-shaped path segment such as [/blog]
    passes the filter unless an exclusion pattern matches it too. *)
Theorem discovery_filtering (url title pattern : string)
        (Hcontains : includes url pattern = true) :
  (In pattern excludePatterns ->
   isBlogOrArticle url title = false /\
   forall rt key response page count c,
     c ∈ searchRelatedArticles rt key response page count -> cand_url c <> url) /\
  (In pattern includePatterns ->
   some (fun q => includes (toLowerCase url) q) excludePatterns = false ->
   isBlogOrArticle url title = true).
Proof.
  split.
  - intros Hin.
    assert (Hlow : includes (toLowerCase url) pattern = true).
    { rewrite <- (excludePatterns_lower pattern Hin). by apply includes_toLowerCase. }
    split; [by eapply isBlogOrArticle_excluded|].
    intros rt key response page count c Hc Hurl.
    pose proof (searchRelatedArticles_filtered rt key response page count) as Hall.
    rewrite List.Forall_forall in Hall.
    apply list_elem_of_In, Hall in Hc. rewrite Hurl in Hc.
    by rewrite (isBlogOrArticle_excluded url (cand_title c) pattern) in Hc.
  - intros Hin Hex.
    apply (isBlogOrArticle_included url title pattern); [done| |done].
    rewrite <- (includePatterns_lower pattern Hin). by apply includes_toLowerCase.
Qed.

(** The theorem at a Facebook page, which the provider's answer of the
    sample item lists and the results leave out, and at a blog post. *)
Lemma discovery_filtering_witness :
  (isBlogOrArticle "https://www.facebook.com/tidio" "Chatbots" = false /\
   forall c,
     c ∈ searchRelatedArticles Samples.runtime (Some "serp_live")
           (ProcessAll.w_serp (Samples.goodItem "{}"))
           (ProcessAll.w_ddg (Samples.goodItem "{}")) 2 ->
     cand_url c <> "https://www.facebook.com/tidio") /\
  isBlogOrArticle "https://www.tidio.com/blog/chatbots" "Chatbots" = true.
Proof.
  split.
  - pose proof (proj1 (discovery_filtering "https://www.facebook.com/tidio"
                         "Chatbots" "facebook.com" eq_refl)) as H.
    destruct H as [H1 H2]; [simpl; tauto|]. split; [exact H1|].
    intros c. apply H2.
  - apply (proj2 (discovery_filtering "https://www.tidio.com/blog/chatbots"
                    "Chatbots" "/blog" eq_refl)); [simpl; tauto | reflexivity].
Defined.

End Discovery.

(** ** The text of a citation card *)

Section CitationText.
Import JS ProcessAll.

Lemma startsWith_refl (s : string) : startsWith s s = true.
Proof. induction s as [|a s IH]; [done|]. simpl. by rewrite Ascii.eqb_refl, IH. Qed.

Lemma includes_refl (s : string) : includes s s = true.
Proof. destruct s; simpl; [done|]. by rewrite Ascii.eqb_refl, startsWith_refl. Qed.

Lemma includes_join (sep : string) (cards : list string) (card p : string) :
  card ∈ cards -> includes card p = true -> includes (join sep cards) p = true.
Proof.
  intros Hin Hp. induction cards as [|first rest IH]; [by apply elem_of_nil in Hin|].
  apply elem_of_cons in Hin as [<- | Hin].
  - destruct rest; [done|]. cbn [join]. by apply includes_app_l.
  - specialize (IH Hin). destruct rest as [|second rest]; [by apply elem_of_nil in Hin|].
    change (join sep (first :: second :: rest))
      with (first +:+ sep +:+ join sep (second :: rest)).
    by apply includes_app_r, includes_app_r.
Qed.

Lemma mapOutcome_Forall2 {A B} (f : A -> Outcome B) (arr : list A) (ys : list B) :
  mapOutcome f arr = Returns ys -> Forall2 (fun x y => f x = Returns y) arr ys.
Proof.
  revert ys. induction arr as [|x rest IH]; intros ys; cbn [mapOutcome].
  - intros [= <-]. constructor.
  - destruct (f x) as [y|e] eqn:Hx; cbn [mbind Outcome_bind bindO]; [|done].
    destruct (mapOutcome f rest) as [ys'|e]; cbn [mbind mret Outcome_bind Outcome_ret bindO];
      [|done].
    intros [= <-]. constructor; [done | by apply IH].
Qed.

Ltac find_part part :=
  first [ apply includes_app_l; change (includes part part = true); apply includes_refl
        | apply includes_app_r; find_part part ].

Lemma citationCard_includes (rt : Runtime) (c : Competitor) (card : string) :
  citationCard rt c = Returns card ->
  includes card (c_url c) = true /\
  includes card (c_title c) = true /\
  exists hostname, URL_hostname rt (c_url c) = Some hostname /\
                   includes card hostname = true.
Proof.
  unfold citationCard. destruct (URL_hostname rt (c_url c)) as [hostname|]; [|done].
  cbv zeta. intros [= <-]. repeat split.
  - find_part (c_url c).
  - do 8 apply includes_app_r. do 8 apply includes_app_r. find_part (c_title c).
  - exists hostname. split; [done|].
    do 8 apply includes_app_r. do 8 apply includes_app_r. find_part hostname.
Qed.




End CitationText.

(** ** The citation assembler *)

Section Citations.
Import ProcessAll.






End Citations.

(** ** The gap analysis *)

Section GapAnalysis.
Import LlmEnhancer.

Lemma readAnalysis_not_null (analysis : JValue) :
  analysis <> JNull -> readAnalysis analysis = Returns (analysisOf analysis).
Proof. by destruct analysis. Qed.

Lemma readAnalysis_null :
  readAnalysis JNull = Throws "Cannot read properties of null (reading 'missing')".
Proof. reflexivity. Qed.

Lemma orElse_truthy (x : option JValue) (d : JValue) :
  JSON.truthy d = true -> JSON.truthy (JSON.orElse x d) = true.
Proof.
  intros Hd. destruct x as [v|]; simpl; [|done].
  by destruct (JSON.truthy v) eqn:E.
Qed.

Lemma truthy_not_zero (v : JValue) :
  JSON.truthy v = true -> ~ JSON.denotesInteger v 0.
Proof.
  destruct v as [| |neg m e| | |]; simpl; try tauto.
  unfold JSON.roundsToZero. rewrite negb_true_iff, orb_false_iff.
  intros [Hm _]. apply N.eqb_neq in Hm.
  assert (Hs : (if neg then - Z.of_N m else Z.of_N m)%Z <> 0%Z) by (destruct neg; lia).
  destruct (0 <=? e)%Z eqn:He; [|lia].
  apply Z.leb_le in He. intros H. apply Z.mul_eq_0 in H as [H|H]; [done|].
  pose proof (Z.pow_pos_nonneg 10 e). lia.
Qed.

(** The analysis returned once the client is initialised and the
    service has answered. *)
Lemma performGapAnalysis_answered (rt : Runtime) (key : option string)
      (client : Client) (article : Article) (competitors : list Competitor)
      (choices : list Choice) :
  initializeClient key = Returns tt ->
  client (gapPrompt article competitors) = Resolves choices ->
  performGapAnalysis rt key client article competitors
  = Returns match JSON_parse rt (cleanAnalysisText choices) with
            | Throws e => defaultAnalysis e
            | Returns JNull =>
                defaultAnalysis "Cannot read properties of null (reading 'missing')"
            | Returns analysis => analysisOf analysis
            end.
Proof.
  intros Hkey Hup. unfold performGapAnalysis. rewrite Hkey, Hup. simpl.
  destruct (JSON_parse rt (cleanAnalysisText choices)) as [analysis|e]; simpl; [|done].
  by destruct analysis.
Qed.

(** The stage returns whatever the service does, once the client is
    initialised. *)
Lemma performGapAnalysis_returns (rt : Runtime) (key : option string)
      (client : Client) (article : Article) (competitors : list Competitor) :
  initializeClient key = Returns tt ->
  exists g, performGapAnalysis rt key client article competitors = Returns g.
Proof.
  intros Hkey. unfold performGapAnalysis. rewrite Hkey. simpl. eauto.
Qed.

(** C6, as the code has it.  Once the client is initialised and the
    service has answered, the gap analysis returns and never throws.
    When the answer does not parse, or parses to [null], the result
    carries the error message, the score 0, empty lists for [improve],
    [strengths], [keywords_missing] and [recommendations], and a
    one-element list with an apology for [missing].  When it parses to
    anything else, no error marker is attached; each list field that the
    answer lacks, or holds with a falsy value, is the empty list, and a
    lacking or falsy score is 5; every other field is the value that the
    answer holds under its name. *)
Theorem gap_analysis_defaulting (rt : Runtime) (key : option string)
        (client : Client) (article : Article) (competitors : list Competitor)
        (choices : list Choice)
        (Hkey : initializeClient key = Returns tt)
        (Hanswer : client (gapPrompt article competitors) = Resolves choices) :
  exists g,
    performGapAnalysis rt key client article competitors = Returns g /\
    (forall e,
        JSON_parse rt (cleanAnalysisText choices) = Throws e \/
        (JSON_parse rt (cleanAnalysisText choices) = Returns JNull /\
         e = "Cannot read properties of null (reading 'missing')"%string) ->
        missing g = JArray [JString (JSON.u16 "Unable to analyze - please check API key")] /\
        improve g = JArray [] /\ strengths g = JArray [] /\
        keywords_missing g = JArray [] /\ recommendations g = JArray [] /\
        overall_score g = JNum false 0 0 /\
        error g = Some e) /\
    (forall analysis,
        JSON_parse rt (cleanAnalysisText choices) = Returns analysis ->
        analysis <> JNull ->
        error g = None /\
        (lacking (JSON.ownProperty analysis "missing") = true -> missing g = JArray []) /\
        (lacking (JSON.ownProperty analysis "improve") = true -> improve g = JArray []) /\
        (lacking (JSON.ownProperty analysis "strengths") = true ->
         strengths g = JArray []) /\
        (lacking (JSON.ownProperty analysis "keywords_missing") = true ->
         keywords_missing g = JArray []) /\
        (lacking (JSON.ownProperty analysis "recommendations") = true ->
         recommendations g = JArray []) /\
        (lacking (JSON.ownProperty analysis "overall_score") = true ->
         overall_score g = JNum false 5 0) /\
        (lacking (JSON.ownProperty analysis "missing") = false ->
         JSON.ownProperty analysis "missing" = Some (missing g)) /\
        (lacking (JSON.ownProperty analysis "improve") = false ->
         JSON.ownProperty analysis "improve" = Some (improve g)) /\
        (lacking (JSON.ownProperty analysis "strengths") = false ->
         JSON.ownProperty analysis "strengths" = Some (strengths g)) /\
        (lacking (JSON.ownProperty analysis "keywords_missing") = false ->
         JSON.ownProperty analysis "keywords_missing" = Some (keywords_missing g)) /\
        (lacking (JSON.ownProperty analysis "recommendations") = false ->
         JSON.ownProperty analysis "recommendations" = Some (recommendations g)) /\
        (lacking (JSON.ownProperty analysis "overall_score") = false ->
         JSON.ownProperty analysis "overall_score" = Some (overall_score g))).
Proof.
  assert (Hdefault : forall x d, lacking x = true -> JSON.orElse x d = d).
  { intros [v|] d; cbn [lacking JSON.orElse]; [|done].
    by destruct (JSON.truthy v). }
  assert (Hkept : forall x d, lacking x = false -> x = Some (JSON.orElse x d)).
  { intros [v|] d; cbn [lacking JSON.orElse]; [|done].
    by destruct (JSON.truthy v). }
  eexists. split; [by apply performGapAnalysis_answered|]. split.
  - intros e [Hparse | [Hparse ->]]; by rewrite Hparse.
  - intros analysis Hparse Hnn. rewrite Hparse.
    replace (match analysis with JNull => _ | _ => analysisOf analysis end)
      with (analysisOf analysis) by (by destruct analysis).
    cbn [analysisOf missing improve strengths keywords_missing recommendations
         overall_score error].
    split; [done|].
    repeat split; first [apply Hdefault | apply Hkept].
Qed.

(** The theorem at an answer in a code fence in which [missing] is
    [null], [improve] is 0, [strengths] is a list, and the other fields
    are lacking. *)
Lemma gap_analysis_defaulting_witness :
  exists g,
    performGapAnalysis Samples.runtime (Some "gsk_live")
      (Samples.says ("```json
" +:+ Samples.falsyFieldsText +:+ "
```")) (Samples.article 1 "Chatbot Benefits" None) [] = Returns g /\
    error g = None /\ missing g = JArray [] /\ improve g = JArray [] /\
    strengths g = JArray [JBool true] /\
    recommendations g = JArray [] /\ overall_score g = JNum false 5 0.
Proof.
  destruct (gap_analysis_defaulting Samples.runtime (Some "gsk_live")
              (Samples.says ("```json
" +:+ Samples.falsyFieldsText +:+ "
```")) (Samples.article 1 "Chatbot Benefits" None) []
              [{| ch_message := Some {| m_content := Some ("```json
" +:+ Samples.falsyFieldsText +:+ "
```") |} |}] eq_refl eq_refl) as (g & Hg & _ & Hobj).
  exists g. split; [exact Hg|].
  destruct (Hobj (JObject [(JSON.u16 "missing", JNull);
                           (JSON.u16 "improve", JNum false 0 0);
                           (JSON.u16 "strengths", JArray [JBool true])]))
    as (He & Hm & Hi & _ & _ & Hr & Hs & _ & _ & Hst & _); [reflexivity | done |].
  split; [exact He|]. split; [by apply Hm|]. split; [by apply Hi|].
  split; [|split; [by apply Hr | by apply Hs]].
  specialize (Hst eq_refl). by injection Hst as <-.
Defined.

(** C6 as stated fails on both of its cases: an answer that parses and
    lacks every field gets the score 5 and no error marker, and an answer
    that does not parse gets a [missing] list that is not empty. *)
Lemma gap_analysis_defaulting_counterexample :
  (exists g,
      performGapAnalysis Samples.runtime (Some "gsk_live") (Samples.says "{}")
        (Samples.article 1 "Chatbot Benefits" None) [] = Returns g /\
      overall_score g = JNum false 5 0 /\ error g = None) /\
  (exists g,
      performGapAnalysis Samples.runtime (Some "gsk_live") (Samples.says "I cannot help")
        (Samples.article 1 "Chatbot Benefits" None) [] = Returns g /\
      missing g <> JArray [] /\ error g <> None).
Proof. split; eexists; (split; [reflexivity|]); simpl; done. Qed.

(** C7, as the code has it.  A result of the gap analysis either comes
    from the failure path, with an error marker and the score 0, or has
    no error marker and carries as its score the [overall_score] of the
    parsed answer, whatever that value is, or 5 when the answer has none
    or a falsy one; on this second path the score is never 0. *)
Theorem score_of_gap_analysis (rt : Runtime) (key : option string)
        (client : Client) (article : Article) (competitors : list Competitor)
        (g : GapAnalysis)
        (Hresult : performGapAnalysis rt key client article competitors = Returns g) :
  (error g <> None /\ overall_score g = JNum false 0 0) \/
  (error g = None /\
   ~ JSON.denotesInteger (overall_score g) 0 /\
   exists choices analysis,
     client (gapPrompt article competitors) = Resolves choices /\
     JSON_parse rt (cleanAnalysisText choices) = Returns analysis /\
     overall_score g
     = JSON.orElse (JSON.ownProperty analysis "overall_score") (JNum false 5 0)).
Proof.
  unfold performGapAnalysis in Hresult.
  destruct (initializeClient key) as [[]|e]; simpl in Hresult; [|done].
  injection Hresult as <-.
  destruct (client (gapPrompt article competitors)) as [e|choices] eqn:Hup; simpl.
  { left. done. }
  destruct (JSON_parse rt (cleanAnalysisText choices)) as [analysis|e] eqn:Hparse; simpl.
  2: { left. done. }
  assert (analysis = JNull \/ analysis <> JNull) as [->|Hnn]
    by (destruct analysis; auto; right; discriminate).
  { left. done. }
  right. rewrite (readAnalysis_not_null _ Hnn). simpl.
  split; [done|]. split.
  - apply truthy_not_zero, orElse_truthy. reflexivity.
  - by exists choices, analysis.
Qed.

(** The theorem at an answer whose score is 7. *)
Lemma score_of_gap_analysis_witness :
  let g := {| missing := JArray []; improve := JArray []; strengths := JArray [];
              keywords_missing := JArray []; overall_score := JNum false 7 0;
              recommendations := JArray []; error := None |} in
  (error g <> None /\ overall_score g = JNum false 0 0) \/
  (error g = None /\
   ~ JSON.denotesInteger (overall_score g) 0 /\
   exists choices analysis,
     Samples.says (Samples.scoreText "7")
       (gapPrompt (Samples.article 1 "Chatbot Benefits" None) []) = Resolves choices /\
     JSON.parse (cleanAnalysisText choices) = Returns analysis /\
     overall_score g
     = JSON.orElse (JSON.ownProperty analysis "overall_score") (JNum false 5 0)).
Proof.
  exact (score_of_gap_analysis Samples.runtime (Some "gsk_live")
           (Samples.says (Samples.scoreText "7"))
           (Samples.article 1 "Chatbot Benefits" None) [] _ eq_refl).
Defined.

(** C7 as stated fails: the score of the answer is not checked, so an
    answer that gives 42, or a text, as its score yields a result whose
    score is no integer from 0 to 10. *)
Lemma score_of_gap_analysis_counterexample :
  (exists g,
      performGapAnalysis Samples.runtime (Some "gsk_live")
        (Samples.says (Samples.scoreText "42"))
        (Samples.article 1 "Chatbot Benefits" None) [] = Returns g /\
      overall_score g = JNum false 42 0 /\
      ~ exists k, (0 <= k <= 10)%Z /\ JSON.denotesInteger (overall_score g) k) /\
  (exists g,
      performGapAnalysis Samples.runtime (Some "gsk_live")
        (Samples.says (Samples.scoreText (dq +:+ "high" +:+ dq)))
        (Samples.article 1 "Chatbot Benefits" None) [] = Returns g /\
      overall_score g = JString (JSON.u16 "high") /\
      ~ exists k, (0 <= k <= 10)%Z /\ JSON.denotesInteger (overall_score g) k).
Proof.
  split; eexists; (split; [reflexivity|]); (split; [reflexivity|]).
  - intros (k & Hk & Hden). simpl in Hden. lia.
  - intros (k & Hk & Hden). exact Hden.
Qed.

End GapAnalysis.

(** ** Content preservation *)

Section ContentPreservation.
Import JS LlmEnhancer Preservation.

Lemma append_empty_r (s : string) : s +:+ "" = s.
Proof.
  induction s as [|a s IH]; [done|].
  change (String a (s +:+ "") = String a s). by f_equal.
Qed.

(** No proper suffix of a marker is a prefix of a text that is empty or
    begins with a marker. *)
Lemma no_overlap (n : nat) (mark x y : string) :
  mark = openMark \/ mark = closeMark ->
  (0 < n)%nat ->
  x = EmptyString \/ x = openMark +:+ y \/ x = closeMark +:+ y ->
  startsWith x (dropN n mark) = true ->
  (String.length mark <= n)%nat.
Proof.
  intros Hmark Hn Hx H.
  destruct (le_lt_dec (String.length mark) n) as [|Hlt]; [done|exfalso].
  destruct Hmark as [-> | ->]; simpl in Hlt;
    do 8 (destruct n as [|n]; [first [lia | destruct Hx as [->|[->| ->]]; simpl in H; done]|]);
    lia.
Qed.

(** Outside a marked segment, a text without opening marker is copied
    up to the marker, or the end, that follows it. *)
Lemma stripFrom_outside (t x y : string) :
  includes t openMark = false ->
  x = EmptyString \/ x = openMark +:+ y ->
  stripFrom false 0 (t +:+ x) = t +:+ stripFrom false 0 x.
Proof.
  intros Hfree Hx. induction t as [|a t IH]; [done|].
  cbn [includes] in Hfree. apply orb_false_iff in Hfree as [Hhead Hrest].
  change (String a t +:+ x) with (String a (t +:+ x)).
  cbn [stripFrom].
  replace (startsWith (String a (t +:+ x)) openMark) with false.
  { simpl. by rewrite IH. }
  symmetry. apply not_true_is_false. intros H.
  apply (startsWith_app_inv (String a t) x openMark) in H as [H | [Hlen H]].
  - by rewrite H in Hhead.
  - apply (no_overlap _ openMark x y) in H; [lia | by left | simpl; lia | tauto].
Qed.

(** Inside a marked segment, a paragraph without closing marker is
    dropped together with the closing marker that follows it. *)
Lemma stripFrom_inside (p rest : string) :
  includes p closeMark = false ->
  stripFrom true 0 (p +:+ closeMark +:+ rest) = stripFrom false 0 rest.
Proof.
  intros Hfree. induction p as [|a p IH]; [by destruct rest|].
  cbn [includes] in Hfree. apply orb_false_iff in Hfree as [Hhead Hrest].
  change (String a p +:+ closeMark +:+ rest) with (String a (p +:+ closeMark +:+ rest)).
  cbn [stripFrom].
  replace (startsWith (String a (p +:+ closeMark +:+ rest)) closeMark) with false.
  { by apply IH. }
  symmetry. apply not_true_is_false. intros H.
  apply (startsWith_app_inv (String a p) (closeMark +:+ rest) closeMark) in H
    as [H | [Hlen H]].
  - by rewrite H in Hhead.
  - apply (no_overlap _ closeMark _ rest) in H; [lia | by right | simpl; lia | tauto].
Qed.

(** An opening marker that a closing one follows opens a segment. *)
Lemma stripFrom_open (p rest : string) :
  stripFrom false 0 (openMark +:+ p +:+ closeMark +:+ rest)
  = stripFrom true 0 (p +:+ closeMark +:+ rest).
Proof.
  assert (H : includes (p +:+ closeMark +:+ rest) closeMark = true).
  { apply includes_app_r, includes_app_l. reflexivity. }
  change (openMark +:+ p +:+ closeMark +:+ rest)
    with (String "<" (String "m" (String "a" (String "r" (String "k"
           (String ">" (p +:+ closeMark +:+ rest))))))).
  cbn [stripFrom].
  replace (startsWith _ openMark && includes _ closeMark) with true; [reflexivity|].
  symmetry. apply andb_true_iff. split; [|exact H].
  cbn. apply startsWith_empty.
Qed.

Lemma stripAdditions_withAdditions (rest : list (string * string)) (first : string) :
  includes (withoutAdditions first rest) openMark = false ->
  Forall (fun insertion => includes insertion.1 closeMark = false) rest ->
  stripAdditions (withAdditions first rest) = withoutAdditions first rest.
Proof.
  unfold stripAdditions. revert first.
  induction rest as [|[p following] rest IH]; intros first Hbody Hparas.
  - simpl in *. rewrite <- (append_empty_r first) at 1.
    rewrite (stripFrom_outside first "" ""); [apply append_empty_r | done | by left].
  - simpl in Hbody. apply includes_app_false in Hbody as [Hfirst Hbody].
    apply Forall_cons in Hparas as [Hp Hparas]. simpl in Hp.
    cbn [withAdditions withoutAdditions].
    rewrite (stripFrom_outside first _ (p +:+ closeMark +:+ withAdditions following rest));
      [|done | by right].
    by rewrite stripFrom_open, stripFrom_inside, IH.
Qed.

(** C1, as the code has it.  [enhanceArticle] returns the text of the
    generative service unchanged; when that text is a source body that
    contains no opening marker, with insertions that are wrapped in
    markers and contain no closing marker, stripping the marked segments
    from the returned content gives the source body back. *)
Theorem content_preservation (key : option string) (client : Client)
        (article : Article) (competitors : list Competitor)
        (first : string) (rest : list (string * string))
        (Hkey : initializeClient key = Returns tt)
        (Hbody : a_content article = withoutAdditions first rest)
        (Hplain : includes (a_content article) openMark = false)
        (Hparagraphs : Forall (fun insertion => includes insertion.1 closeMark = false) rest)
        (Hgenerator :
           client (enhancePrompt article competitors)
           = Resolves [{| ch_message :=
                            Some {| m_content := Some (withAdditions first rest) |} |}]) :
  exists enhanced,
    enhanceArticle key client article competitors = Returns enhanced /\
    en_content enhanced = withAdditions first rest /\
    stripAdditions (en_content enhanced) = a_content article.
Proof.
  unfold enhanceArticle. rewrite Hkey. cbn [mbind Outcome_bind bindO].
  rewrite Hgenerator. cbn [firstContent ch_message m_content].
  rewrite orElseOpt_Some_empty.
  eexists. split; [reflexivity|]. cbn [en_content]. split; [done|].
  rewrite Hbody in *. by apply stripAdditions_withAdditions.
Qed.

(** The theorem at a body of two paragraphs with one insertion between
    them. *)
Lemma content_preservation_witness :
  exists enhanced,
    enhanceArticle (Some "gsk_live")
      (Samples.says "<p>Chatbots help.</p><mark>They scale.</mark><p>Try one.</p>")
      {| a_id := 1; a_title := "Chatbot Benefits";
         a_content := "<p>Chatbots help.</p><p>Try one.</p>";
         a_excerpt := None; a_author := None; a_published_at := None;
         a_featured_image := None; a_original_url := None |} []
    = Returns enhanced /\
    en_content enhanced = "<p>Chatbots help.</p><mark>They scale.</mark><p>Try one.</p>"%string /\
    stripAdditions (en_content enhanced) = "<p>Chatbots help.</p><p>Try one.</p>"%string.
Proof.
  apply (content_preservation (Some "gsk_live")
           (Samples.says "<p>Chatbots help.</p><mark>They scale.</mark><p>Try one.</p>")
           {| a_id := 1; a_title := "Chatbot Benefits";
              a_content := "<p>Chatbots help.</p><p>Try one.</p>";
              a_excerpt := None; a_author := None; a_published_at := None;
              a_featured_image := None; a_original_url := None |} []
           "<p>Chatbots help.</p>" [("They scale.", "<p>Try one.</p>")]%string);
    try reflexivity.
  repeat constructor.
Defined.

(** C1 as stated, for every source body, fails whatever the stripping
    function is: a body that itself holds a marked segment, returned
    with nothing inserted, and the empty body, returned with that segment
    inserted, give the same enhanced content. *)
Lemma content_preservation_counterexample :
  ~ exists strip : string -> string, preserves strip.
Proof.
  intros [strip Hstrip].
  pose (body s := {| a_id := 1; a_title := "Chatbot Benefits"; a_content := s;
                     a_excerpt := None; a_author := None; a_published_at := None;
                     a_featured_image := None; a_original_url := None |}).
  pose proof (Hstrip (Some "gsk_live") (Samples.says "<mark>x</mark>")
                (body "<mark>x</mark>"%string) [] "<mark>x</mark>"%string [] _
                eq_refl eq_refl eq_refl) as H1.
  pose proof (Hstrip (Some "gsk_live") (Samples.says "<mark>x</mark>")
                (body ""%string) [] ""%string [("x", "")]%string _
                eq_refl eq_refl eq_refl) as H2.
  simpl in H1, H2. congruence.
Qed.

(** The condition on the inserted paragraphs is needed: a paragraph that
    holds a closing marker ends its segment early, and what follows it
    in the paragraph survives the stripping. *)
Lemma content_preservation_needs_plain_paragraphs :
  withoutAdditions "" [("a</mark>b", "")]%string = ""%string /\
  stripAdditions (withAdditions "" [("a</mark>b", "")]%string) = "b</mark>"%string.
Proof. split; reflexivity. Qed.

End ContentPreservation.

(** ** The batch orchestrator *)

Section Orchestrator.
Import GoogleSearcher ContentScraper LlmEnhancer Store ProcessAll.

Ltac step_outcome :=
  cbn [mbind mret Outcome_bind Outcome_ret bindO tryCatch] in *.

(** *** One item *)

(** [processArticle] leaves the store as it is when it fails, and adds
    one row, derived and with the original URL of the article, when it
    succeeds. *)
Lemma processArticle_store (rt : Runtime) (env : Env) (w : ItemWorld)
      (article : Article) (index total : nat) (store store' : Store)
      (result : ProcessResult) :
  processArticle rt env w article index total store = (result, store') ->
  match result with
  | Failure _ => store' = store
  | Success _ _ =>
      exists row, store' = store ++ [row] /\
                  row_status row = "updated"%string /\
                  a_original_url (row_article row) = a_original_url article
  end.
Proof.
  unfold processArticle, processArticleTry.
  destruct (bool_decide (length (searchRelatedArticles _ _ _ _ _) = 0%nat));
    [step_outcome; by intros [= <- <-]|].
  destruct (bool_decide (length (scrapeMultipleArticles _ _) = 0%nat));
    [step_outcome; by intros [= <- <-]|].
  destruct (performGapAnalysis _ _ _ _ _) as [gap|e];
    step_outcome; [|by intros [= <- <-]].
  destruct (enhanceArticle _ _ _ _) as [enhanced|e];
    step_outcome; [|by intros [= <- <-]].
  destruct (generateCitations _ _) as [citationHtml|e];
    step_outcome; [|by intros [= <- <-]].
  unfold publishArticle.
  destruct (w_publishFails _ _) as [e|]; step_outcome; intros [= <- <-]; [done|].
  eexists. split; [reflexivity|]. split; reflexivity.
Qed.

(** Without a usable credential no item succeeds: the error of
    [initializeClient] is caught by [processArticle] and becomes the
    reason of a failure, unless the item had no competitor to begin
    with. *)
Lemma processArticle_without_key (rt : Runtime) (env : Env) (w : ItemWorld)
      (article : Article) (index total : nat) (store : Store) :
  initializeClient (GROQ_API_KEY env) = Throws keyMissingMessage ->
  exists reason,
    processArticle rt env w article index total store = (Failure reason, store) /\
    (reason = "No competitors found" \/ reason = "Scraping failed" \/
     reason = keyMissingMessage)%string.
Proof.
  intros Hkey. unfold processArticle, processArticleTry.
  destruct (bool_decide (length (searchRelatedArticles _ _ _ _ _) = 0%nat));
    [step_outcome; eauto|].
  destruct (bool_decide (length (scrapeMultipleArticles _ _) = 0%nat));
    [step_outcome; eauto 6|].
  unfold performGapAnalysis. rewrite Hkey. step_outcome. eauto 6.
Qed.

(** An item without competitor, found or readable, is a failure with
    the reason that names the stage. *)
Lemma processArticle_no_input (rt : Runtime) (env : Env) (w : ItemWorld)
      (article : Article) (index total : nat) (store : Store) :
  let searchResults :=
    searchRelatedArticles rt (SERP_API_KEY env) (w_serp w) (w_ddg w) COMPETITOR_COUNT in
  (searchResults = [] ->
   processArticle rt env w article index total store
   = (Failure "No competitors found", store)) /\
  (searchResults <> [] -> scrapeMultipleArticles (w_scrape w) searchResults = [] ->
   processArticle rt env w article index total store
   = (Failure "Scraping failed", store)).
Proof.
  intros searchResults. unfold processArticle, processArticleTry.
  fold searchResults. split.
  - intros ->. reflexivity.
  - intros Hne ->. rewrite bool_decide_eq_false_2; [reflexivity|].
    by destruct searchResults.
Qed.

(** *** The loop *)

Lemma loop_Iterates (rt : Runtime) (env : Env) (w : World) (articles : list Article)
      (total : nat) (todo : list Article) (i : nat) (run final : Run) :
  loop rt env w articles total i todo run = Returns final ->
  Iterates rt env w articles total i todo run final.
Proof.
  revert i run. induction todo as [|item rest IH]; intros i run; cbn [loop].
  - intros [= <-]. constructor.
  - destruct (processArticle _ _ _ _ _ _ _) as [result store'] eqn:Hitem.
    destruct (countResult _ _ _ _) as [r'|e] eqn:Hcount; step_outcome; [|done].
    intros Hloop. destruct (10 <=? success r')%nat eqn:Hcap.
    + injection Hloop as <-. apply Iterates_cap; [done | done | by apply Nat.leb_le].
    + eapply Iterates_next; [done | done | by apply Nat.leb_gt | by apply IH].
Qed.

(** The loop returns as long as [articles] has an entry at each of its
    indices, which holds for [articlesToProcess], a part of [articles]. *)
Lemma loop_returns (rt : Runtime) (env : Env) (w : World) (articles : list Article)
      (total : nat) (todo : list Article) (i : nat) (run : Run) :
  (i + length todo <= length articles)%nat ->
  exists final, loop rt env w articles total i todo run = Returns final.
Proof.
  revert i run. induction todo as [|item rest IH]; intros i run Hlen; cbn [loop].
  - eauto.
  - destruct (processArticle _ _ _ _ _ _ _) as [result store'].
    assert (exists r', countResult articles i (results run) result = Returns r')
      as [r' ->].
    { unfold countResult. destruct result; [eauto|].
      destruct (articles !! i) eqn:E; [eauto|].
      apply lookup_ge_None in E. simpl in Hlen. lia. }
    step_outcome. destruct (10 <=? success r')%nat; [eauto|].
    apply IH. simpl in Hlen. lia.
Qed.

Lemma countResult_counts (articles : list Article) (i : nat) (r r' : Results)
      (result : ProcessResult) :
  countResult articles i r result = Returns r' ->
  success r' = (success r + (if isSuccess result then 1 else 0))%nat /\
  failed r' = (failed r + (if isSuccess result then 0 else 1))%nat /\
  skipped r' = skipped r.
Proof.
  unfold countResult. destruct result; simpl.
  - intros [= <-]. simpl. lia.
  - destruct (articles !! i); [|done]. intros [= <-]. simpl. lia.
Qed.

Lemma countSuccess_cons (item : Article) (result : ProcessResult)
      (calls : list (Article * ProcessResult)) :
  countSuccess ((item, result) :: calls)
  = ((if isSuccess result then 1 else 0) + countSuccess calls)%nat.
Proof. unfold countSuccess. simpl. by destruct (isSuccess result). Qed.

Lemma countFailure_cons (item : Article) (result : ProcessResult)
      (calls : list (Article * ProcessResult)) :
  countFailure ((item, result) :: calls)
  = ((if isSuccess result then 0 else 1) + countFailure calls)%nat.
Proof. unfold countFailure. simpl. by destruct (isSuccess result). Qed.

Lemma countSuccess_app (l1 l2 : list (Article * ProcessResult)) :
  countSuccess (l1 ++ l2) = (countSuccess l1 + countSuccess l2)%nat.
Proof. unfold countSuccess. by rewrite List.filter_app, length_app. Qed.

Lemma countFailure_app (l1 l2 : list (Article * ProcessResult)) :
  countFailure (l1 ++ l2) = (countFailure l1 + countFailure l2)%nat.
Proof. unfold countFailure. by rewrite List.filter_app, length_app. Qed.

(** What the loop did, read off the final state: the calls it made are
    the items of [todo] in order, up to the end or to the tenth success;
    each call moved exactly one of the two counters. *)
Lemma Iterates_accounting (rt : Runtime) (env : Env) (w : World)
      (articles : list Article) (total i : nat) (todo : list Article) (run final : Run) :
  Iterates rt env w articles total i todo run final ->
  exists calls later,
    attempted final = attempted run ++ calls /\
    todo = map fst calls ++ later /\
    success (results final) = (success (results run) + countSuccess calls)%nat /\
    failed (results final) = (failed (results run) + countFailure calls)%nat /\
    skipped (results final) = skipped (results run) /\
    (later = [] \/ (10 <= success (results final))%nat).
Proof.
  induction 1 as [i run
                 | i item rest run result store' r' Hitem Hcount Hcap
                 | i item rest run final result store' r' Hitem Hcount Hcap Hnext IH].
  - exists [], []. rewrite app_nil_r. unfold countSuccess, countFailure. simpl.
    repeat split; try lia. by left.
  - apply countResult_counts in Hcount as (Hs & Hf & Hk).
    exists [(item, result)], rest.
    rewrite countSuccess_cons, countFailure_cons.
    unfold countSuccess, countFailure. cbn [results attempted List.filter length map fst].
    repeat split; try lia; try done; by right.
  - apply countResult_counts in Hcount as (Hs & Hf & Hk).
    destruct IH as (calls & later & Hatt & Htodo & Hs' & Hf' & Hk' & Hcap').
    exists ((item, result) :: calls), later.
    rewrite countSuccess_cons, countFailure_cons.
    cbn [results attempted] in *.
    rewrite <- app_assoc in Hatt.
    repeat split; try done; try lia.
    cbn [map fst]. by rewrite Htodo.
Qed.

(** *** Run accounting *)

Lemma count_calls (calls : list (Article * ProcessResult)) :
  (countSuccess calls + countFailure calls)%nat = length calls.
Proof. unfold countSuccess, countFailure. apply filter_length. Qed.

Lemma Iterates_cap_bound (rt : Runtime) (env : Env) (w : World)
      (articles : list Article) (total i : nat) (todo : list Article) (run final : Run) :
  Iterates rt env w articles total i todo run final ->
  (success (results run) < 10)%nat -> (success (results final) <= 10)%nat.
Proof.
  induction 1 as [i run
                 | i item rest run result store' r' Hitem Hcount Hcap
                 | i item rest run final result store' r' Hitem Hcount Hcap Hnext IH];
    intros Hlt; cbn [results] in *.
  - lia.
  - apply countResult_counts in Hcount as (Hs & _). destruct (isSuccess result); lia.
  - by apply IH.
Qed.

Lemma articlesToProcess_length (urls : gset string) (articles : list Article) :
  (length (skippedArticles urls articles)
   + length (articlesToProcess urls articles))%nat = length articles.
Proof. unfold skippedArticles, articlesToProcess. apply filter_length. Qed.

(** A run that got its list of originals returns. *)
Lemma main_returns (rt : Runtime) (env : Env) (w : World) (before : Store) :
  w_originalsFail w = None -> exists run, main rt env w before = Returns run.
Proof.
  intros Hfetch. unfold main. rewrite Hfetch. apply loop_returns.
  pose proof (articlesToProcess_length (alreadyEnhanced w before)
                (listArticles "original" before)). lia.
Qed.

Lemma main_Iterates (rt : Runtime) (env : Env) (w : World) (before : Store) (run : Run) :
  main rt env w before = Returns run ->
  let todo := articlesToProcess (alreadyEnhanced w before)
                (listArticles "original" before) in
  Iterates rt env w (listArticles "original" before) (length todo) 0 todo
           (initialRun w before) run.
Proof.
  unfold main. destruct (w_originalsFail w); [done|]. apply loop_Iterates.
Qed.

(** C3, as the code has it.  Run accounting: in a run that completed,
    the three counters add up to the number of items considered, those
    left out by the duplicate check and those handed to
    [processArticle]; each of the former is counted as skipped, each of
    the latter as succeeded or as failed by what [processArticle]
    returned for it.  The items handed over are those pending, in order,
    all of them unless the run stopped at its tenth success.  The total
    that the summary prints is the number of original articles: the
    three counters and the pending items that were not attempted add up
    to it, so the counters alone do whenever the run has fewer than ten
    successes. *)
Theorem run_accounting (rt : Runtime) (env : Env) (w : World) (before : Store)
        (run : Run)
        (Hcompleted : main rt env w before = Returns run) :
  let r := results run in
  let articles := listArticles "original" before in
  (success r + failed r + skipped r)%nat = length (considered w before run) /\
  success r = countSuccess (attempted run) /\
  failed r = countFailure (attempted run) /\
  skipped r = length (skippedArticles (alreadyEnhanced w before) articles) /\
  (exists notAttempted,
      articlesToProcess (alreadyEnhanced w before) articles
      = map fst (attempted run) ++ notAttempted /\
      (notAttempted = [] \/ success r = 10%nat) /\
      (success r + failed r + skipped r + length notAttempted)%nat = length articles) /\
  ((success r < 10)%nat ->
   (success r + failed r + skipped r)%nat = length articles).
Proof.
  intros r articles. apply main_Iterates in Hcompleted.
  pose proof (Iterates_cap_bound _ _ _ _ _ _ _ _ _ Hcompleted) as Hbound.
  apply Iterates_accounting in Hcompleted
    as (calls & later & Hatt & Htodo & Hs & Hf & Hk & Hcap).
  cbn [initialRun results attempted success failed skipped] in *.
  rewrite app_nil_l in Hatt. subst calls. fold r in Hs, Hf, Hk, Hcap, Hbound.
  pose proof (articlesToProcess_length (alreadyEnhanced w before) articles) as Hlen.
  fold articles in Hk, Htodo.
  pose proof (count_calls (attempted run)) as Hcalls.
  assert (Hskip : skipped r
                  = length (skippedArticles (alreadyEnhanced w before) articles)) by lia.
  assert (Htotal : (success r + failed r + skipped r + length later)%nat
                   = length articles).
  { rewrite Htodo, length_app, length_map in Hlen. lia. }
  repeat split; try done.
  - unfold considered. fold articles. rewrite length_app, length_map. lia.
  - exists later. split; [done|]. split; [|exact Htotal].
    destruct Hcap as [->|Hcap]; [by left | right; lia].
  - intros Hfew. destruct Hcap as [->|Hcap]; [|lia]. cbn [length] in Htotal. lia.
Qed.

(** The theorem at a run over two originals, of which the second has no
    competitor: the counters add up to the two items considered, which
    is also the total, the run having fewer than ten successes. *)
Lemma run_accounting_witness :
  exists run,
    main Samples.runtime Samples.env
      {| w_originalsFail := None; w_updatedFail := None;
         w_item := fun i => match i with
                            | O => Samples.goodItem "{}"
                            | _ => Samples.noCompetitorItem
                            end |}
      [Samples.original (Samples.article 1 "Chatbot Benefits" (Some "https://b.example/1"));
       Samples.original (Samples.article 2 "Live Chat" (Some "https://b.example/2"))]
    = Returns run /\
    (success (results run), failed (results run), skipped (results run))
    = (1, 1, 0)%nat /\
    (success (results run) + failed (results run) + skipped (results run))%nat
    = length (considered
                {| w_originalsFail := None; w_updatedFail := None;
                   w_item := fun i => match i with
                                      | O => Samples.goodItem "{}"
                                      | _ => Samples.noCompetitorItem
                                      end |}
                [Samples.original
                   (Samples.article 1 "Chatbot Benefits" (Some "https://b.example/1"));
                 Samples.original
                   (Samples.article 2 "Live Chat" (Some "https://b.example/2"))]
                run) /\
    (success (results run) + failed (results run) + skipped (results run))%nat
    = length (listArticles "original"
                [Samples.original
                   (Samples.article 1 "Chatbot Benefits" (Some "https://b.example/1"));
                 Samples.original
                   (Samples.article 2 "Live Chat" (Some "https://b.example/2"))]).
Proof.
  eexists. split; [vm_compute; reflexivity|]. split; [reflexivity|].
  match goal with
  | |- _ = length (considered ?w ?before ?run) /\ _ =>
      pose proof (run_accounting Samples.runtime Samples.env w before run) as H
  end.
  specialize (H ltac:(vm_compute; reflexivity)). cbv zeta in H.
  destruct H as (Hconsidered & _ & _ & _ & _ & Htotal).
  split; [exact Hconsidered|]. apply Htotal. vm_compute. lia.
Defined.

(** C3 as stated fails in a run that stops at its tenth success: of
    eleven originals that would all succeed, ten are counted and none is
    failed or skipped, while the total of the summary is the number of
    originals, eleven. *)
Lemma run_accounting_counterexample :
  let before :=
    map (fun n => Samples.original
                    (Samples.article (N.of_nat n) "Chatbot Benefits"
                       (Some ("https://b.example/" +:+ JS.showNat n))))
        (seq 1 11) in
  exists run,
    main Samples.runtime Samples.env (Samples.world (Samples.goodItem "{}")) before
    = Returns run /\
    (success (results run), failed (results run), skipped (results run))
    = (10, 0, 0)%nat /\
    length (attempted run) = 10%nat /\
    length (listArticles "original" before) = 11%nat /\
    (success (results run) + failed (results run) + skipped (results run))%nat
    <> length (listArticles "original" before).
Proof.
  eexists. split; [vm_compute; reflexivity|]. repeat split; try reflexivity.
  vm_compute. discriminate.
Qed.

(** *** The duplicate check *)

Lemma truthy_Some (u : string) : JS.truthy (Some u) = true <-> u <> EmptyString.
Proof. destruct u; simpl; split; (done || congruence). Qed.

Lemma elem_of_collectUrls (u : string) (enhancedArticles : list Article) :
  u ∈ collectUrls enhancedArticles <->
  exists d, d ∈ enhancedArticles /\ a_original_url d = Some u /\ u <> EmptyString.
Proof.
  unfold collectUrls.
  enough (forall urls : gset string,
            u ∈ foldl (fun urls a =>
                         match a_original_url a with
                         | Some u => if JS.truthy (Some u) then {[ u ]} ∪ urls else urls
                         | None => urls
                         end) urls enhancedArticles <->
            u ∈ urls \/
            exists d, d ∈ enhancedArticles /\ a_original_url d = Some u /\ u <> EmptyString)
    as H.
  { rewrite H. split; [intros [Hin|Hd]; [by apply elem_of_empty in Hin | done] | by right]. }
  induction enhancedArticles as [|a rest IH]; intros urls; cbn [foldl].
  - split; [by left | intros [H|(d & Hd & _)]; [done | by apply elem_of_nil in Hd]].
  - rewrite IH. split.
    + intros [Hin | (d & Hd & Hurl & Hne)].
      * destruct (a_original_url a) as [v|] eqn:Ha; [|by left].
        destruct (JS.truthy (Some v)) eqn:Hv; [|by left].
        apply elem_of_union in Hin as [Hin | Hin]; [|by left].
        apply elem_of_singleton in Hin. subst v. right. exists a.
        split; [by left | split; [done | by apply truthy_Some]].
      * right. exists d. split; [by right | done].
    + intros [Hin | (d & Hd & Hurl & Hne)].
      * left. destruct (a_original_url a) as [v|]; [|done].
        destruct (JS.truthy (Some v)); [|done]. apply elem_of_union. by right.
      * apply elem_of_cons in Hd as [Hd | Hd].
        -- subst d. left. rewrite Hurl. apply truthy_Some in Hne. rewrite Hne.
           apply elem_of_union. left. by apply elem_of_singleton.
        -- right. exists d. done.
Qed.

Lemma elem_of_listArticles (a : Article) (status : string) (store : Store) :
  a ∈ listArticles status store <->
  exists row, row ∈ store /\ row_status row = status /\ row_article row = a.
Proof.
  unfold listArticles. rewrite list_elem_of_fmap. split.
  - intros (row & -> & Hrow). apply list_elem_of_In, filter_In in Hrow as [Hin Hst].
    exists row. split; [by apply list_elem_of_In|]. split; [by apply String.eqb_eq | done].
  - intros (row & Hin & Hst & <-). exists row. split; [done|].
    apply list_elem_of_In, filter_In. split; [by apply list_elem_of_In|].
    by apply String.eqb_eq.
Qed.

Lemma listArticles_app (status : string) (s1 s2 : Store) :
  listArticles status (s1 ++ s2) = listArticles status s1 ++ listArticles status s2.
Proof. unfold listArticles. by rewrite List.filter_app, map_app. Qed.

Lemma listArticles_original_added (added : Store) :
  Forall (fun row => row_status row = "updated"%string) added ->
  listArticles "original" added = [].
Proof.
  induction 1 as [|row rest Hrow _ IH]; [done|].
  unfold listArticles in *. simpl. rewrite Hrow. simpl. exact IH.
Qed.

(** An article whose original URL is that of a derived article of the
    listing is seen by the check. *)
Lemma has_alreadyEnhanced (w : World) (before : Store) (a d : Article) :
  w_updatedFail w = None ->
  d ∈ listArticles "updated" before ->
  JS.truthy (a_original_url a) = true ->
  a_original_url d = a_original_url a ->
  has (alreadyEnhanced w before) (a_original_url a) = true.
Proof.
  intros Hfetch Hd Htruthy Hurl. unfold alreadyEnhanced. rewrite Hfetch.
  destruct (a_original_url a) as [u|] eqn:Ha; [|done]. simpl.
  apply bool_decide_eq_true, elem_of_collectUrls. exists d.
  split; [done|]. split; [done | by apply truthy_Some].
Qed.

(** What the check has seen is the URL of a derived article. *)
Lemma has_alreadyEnhanced_inv (w : World) (before : Store) (a : Article) :
  has (alreadyEnhanced w before) (a_original_url a) = true ->
  exists d, d ∈ listArticles "updated" before /\
            a_original_url d = a_original_url a.
Proof.
  unfold alreadyEnhanced, has. destruct (a_original_url a) as [u|]; [|done].
  intros H. apply bool_decide_eq_true in H.
  destruct (w_updatedFail w); [by apply elem_of_empty in H|].
  apply elem_of_collectUrls in H as (d & Hd & Hurl & _). eauto.
Qed.

(** The loop only adds rows, all of them derived, and one for each
    success, with the original URL of the item. *)
Lemma Iterates_store (rt : Runtime) (env : Env) (w : World)
      (articles : list Article) (total i : nat) (todo : list Article) (run final : Run) :
  Iterates rt env w articles total i todo run final ->
  exists added,
    store final = store run ++ added /\
    Forall (fun row => row_status row = "updated"%string) added /\
    forall item result,
      (item, result) ∈ attempted final ->
      (item, result) ∈ attempted run \/
      (isSuccess result = true ->
       exists row, row ∈ added /\
                   a_original_url (row_article row) = a_original_url item).
Proof.
  assert (Hone : forall i item run result store',
             processArticle rt env (w_item w i) item i total (store run) = (result, store') ->
             exists added,
               store' = store run ++ added /\
               Forall (fun row => row_status row = "updated"%string) added /\
               (isSuccess result = true ->
                exists row, row ∈ added /\
                            a_original_url (row_article row) = a_original_url item)).
  { intros j item run0 result store' Hitem. apply processArticle_store in Hitem.
    destruct result as [id score|reason].
    - destruct Hitem as (row & -> & Hst & Hurl). exists [row].
      split; [done|]. split; [by repeat constructor|].
      intros _. exists row. split; [by left | done].
    - subst store'. exists []. rewrite app_nil_r. split; [done|].
      split; [constructor | done]. }
  induction 1 as [i run
                 | i item rest run result store' r' Hitem Hcount Hcap
                 | i item rest run final result store' r' Hitem Hcount Hcap Hnext IH].
  - exists []. rewrite app_nil_r. split; [done|]. split; [constructor | by left].
  - destruct (Hone _ _ _ _ _ Hitem) as (added & -> & Hst & Hurl).
    exists added. cbn [store attempted]. split; [done|]. split; [done|].
    intros item' result' Hin. apply elem_of_app in Hin as [Hin | Hin]; [by left|].
    apply list_elem_of_singleton in Hin as [= -> ->]. by right.
  - destruct (Hone _ _ _ _ _ Hitem) as (added1 & -> & Hst1 & Hurl1).
    destruct IH as (added2 & Hstore & Hst2 & Hurl2). cbn [store attempted] in *.
    exists (added1 ++ added2). rewrite app_assoc. split; [done|].
    split; [by apply Forall_app|].
    intros item' result' Hin. destruct (Hurl2 _ _ Hin) as [Hin' | Hrow].
    + apply elem_of_app in Hin' as [Hin' | Hin']; [by left|].
      apply list_elem_of_singleton in Hin' as [= -> ->]. right. intros Hs.
      destruct (Hurl1 Hs) as (row & Hrow & Hu). exists row.
      split; [apply elem_of_app; by left | done].
    + right. intros Hs. destruct (Hrow Hs) as (row & Hrow' & Hu). exists row.
      split; [apply elem_of_app; by right | done].
Qed.

Lemma countSuccess_all (calls : list (Article * ProcessResult)) :
  countSuccess calls = length calls ->
  forall item result, (item, result) ∈ calls -> isSuccess result = true.
Proof.
  induction calls as [|[a r] calls IH]; intros Hcount item result Hin.
  - by apply elem_of_nil in Hin.
  - rewrite countSuccess_cons in Hcount. cbn [length] in Hcount.
    assert (countSuccess calls <= length calls)%nat
      by (unfold countSuccess; apply filter_length_le).
    apply elem_of_cons in Hin as [[= -> ->] | Hin].
    + destruct (isSuccess r); [done | lia].
    + apply (IH ltac:(destruct (isSuccess r); lia) item result Hin).
Qed.

(** C2, as the code has it.  When the listing of the derived articles
    succeeds, a source article whose original URL is not empty and is the
    original URL of a derived article is left out of the processing.
    Hence a second run over the store left by a run that published every
    pending article yields no success and calls [processArticle] for no
    item, provided every source article has an original URL that is not
    empty. *)
Theorem dedup_idempotence (rt : Runtime) (env : Env) (w : World) (before : Store)
        (Hlisting : w_updatedFail w = None) :
  (forall a d,
      a ∈ listArticles "original" before ->
      d ∈ listArticles "updated" before ->
      JS.truthy (a_original_url a) = true ->
      a_original_url d = a_original_url a ->
      (a ∉ articlesToProcess (alreadyEnhanced w before) (listArticles "original" before)) /\
      forall run, main rt env w before = Returns run -> a ∉ map fst (attempted run)) /\
  (forall rt1 env1 w1 earlier run1,
      main rt1 env1 w1 earlier = Returns run1 ->
      success (results run1)
      = length (articlesToProcess (alreadyEnhanced w1 earlier)
                  (listArticles "original" earlier)) ->
      (forall a, a ∈ listArticles "original" earlier ->
                 JS.truthy (a_original_url a) = true) ->
      before = store run1 ->
      w_originalsFail w = None ->
      exists run,
        main rt env w before = Returns run /\
        success (results run) = 0%nat /\ attempted run = []).
Proof.
  assert (Hleft : forall a d,
             a ∈ listArticles "original" before ->
             d ∈ listArticles "updated" before ->
             JS.truthy (a_original_url a) = true ->
             a_original_url d = a_original_url a ->
             a ∉ articlesToProcess (alreadyEnhanced w before)
                   (listArticles "original" before)).
  { intros a d Ha Hd Htruthy Hurl Hin.
    apply list_elem_of_In, filter_In in Hin as [_ Hin].
    by rewrite (has_alreadyEnhanced w before a d) in Hin. }
  split.
  - intros a d Ha Hd Htruthy Hurl. split; [by eapply Hleft|].
    intros run Hrun Hin. apply (Hleft a d); try done.
    apply main_Iterates, Iterates_accounting in Hrun
      as (calls & later & Hatt & Htodo & _).
    cbn [initialRun attempted] in Hatt. rewrite app_nil_l in Hatt. subst calls.
    rewrite Htodo. apply elem_of_app. by left.
  - intros rt1 env1 w1 earlier run1 Hrun1 Hfull Htruthy -> Hfetch.
    pose proof (main_Iterates _ _ _ _ _ Hrun1) as Hit. cbn zeta in Hit.
    pose proof (Iterates_accounting _ _ _ _ _ _ _ _ _ Hit)
      as (calls & later & Hatt & Htodo & Hs & _).
    pose proof (Iterates_store _ _ _ _ _ _ _ _ _ Hit) as (added & Hstore & Hst & Hrows).
    cbn [initialRun attempted store results success] in *.
    rewrite app_nil_l in Hatt. subst calls.
    (* every pending article was attempted, and with success *)
    assert (Hlen : length (articlesToProcess (alreadyEnhanced w1 earlier)
                             (listArticles "original" earlier))
                   = (length (attempted run1) + length later)%nat).
    { rewrite Htodo at 1. by rewrite length_app, length_map. }
    pose proof (count_calls (attempted run1)) as Hcalls.
    assert (Hall : countSuccess (attempted run1) = length (attempted run1)) by lia.
    assert (later = []) as -> by (apply length_zero_iff_nil; lia).
    rewrite app_nil_r in Htodo.
    (* the originals are those of the earlier store *)
    assert (Horig : listArticles "original" (store run1)
                    = listArticles "original" earlier).
    { rewrite Hstore, listArticles_app, (listArticles_original_added added Hst).
      apply app_nil_r. }
    (* each of them has a derived article in the new store *)
    assert (Hnone : articlesToProcess (alreadyEnhanced w (store run1))
                      (listArticles "original" (store run1)) = []).
    { apply elem_of_nil_inv. intros a Ha.
      pose proof Ha as Ha'. apply list_elem_of_In, filter_In in Ha' as [Ha' _].
      apply list_elem_of_In in Ha'.
      assert (Ha0 : a ∈ listArticles "original" earlier) by (by rewrite <- Horig).
      assert (exists d, d ∈ listArticles "updated" (store run1) /\
                        a_original_url d = a_original_url a) as (d & Hd & Hurl).
      { destruct (has (alreadyEnhanced w1 earlier) (a_original_url a)) eqn:Hhas.
        - apply has_alreadyEnhanced_inv in Hhas as (d & Hd & Hurl).
          exists d. split; [|done]. rewrite Hstore, listArticles_app.
          apply elem_of_app. by left.
        - assert (Hpending : a ∈ articlesToProcess (alreadyEnhanced w1 earlier)
                               (listArticles "original" earlier)).
          { apply list_elem_of_In, filter_In. split; [by apply list_elem_of_In|].
            by rewrite Hhas. }
          rewrite Htodo in Hpending.
          apply list_elem_of_fmap in Hpending as ([item result] & -> & Hcall).
          destruct (Hrows _ _ Hcall) as [Hin | Hrow]; [by apply elem_of_nil in Hin|].
          destruct Hrow as (row & Hrow & Hurl); [by eapply countSuccess_all|].
          exists (row_article row). split; [|done].
          apply elem_of_listArticles. exists row.
          split; [rewrite Hstore; apply elem_of_app; by right|].
          split; [|done]. rewrite List.Forall_forall in Hst.
          by apply Hst, list_elem_of_In. }
      exact (Hleft a d Ha' Hd (Htruthy a Ha0) Hurl Ha). }
    unfold main. rewrite Hfetch. cbn zeta. rewrite Hnone. cbn [loop].
    eexists. split; [reflexivity | done].
Qed.

(** The theorem at a store of one original with its URL: the first run
    publishes it, the second run finds nothing to do. *)
Lemma dedup_idempotence_witness :
  match main Samples.runtime Samples.env (Samples.world (Samples.goodItem "{}"))
          [Samples.original
             (Samples.article 1 "Chatbot Benefits" (Some "https://b.example/1"))] with
  | Returns run1 =>
      success (results run1) = 1%nat /\
      exists run2,
        main Samples.runtime Samples.env (Samples.world (Samples.goodItem "{}"))
          (store run1) = Returns run2 /\
        success (results run2) = 0%nat /\ attempted run2 = []
  | Throws _ => False
  end.
Proof.
  destruct (main Samples.runtime Samples.env (Samples.world (Samples.goodItem "{}"))
              [Samples.original
                 (Samples.article 1 "Chatbot Benefits" (Some "https://b.example/1"))])
    as [run1|e] eqn:Hrun1; [|vm_compute in Hrun1; discriminate].
  assert (Hs : success (results run1) = 1%nat).
  { vm_compute in Hrun1. by injection Hrun1 as <-. }
  split; [exact Hs|].
  apply (proj2 (dedup_idempotence Samples.runtime Samples.env
                  (Samples.world (Samples.goodItem "{}")) (store run1) eq_refl)
               Samples.runtime Samples.env (Samples.world (Samples.goodItem "{}"))
               [Samples.original
                  (Samples.article 1 "Chatbot Benefits" (Some "https://b.example/1"))]
               run1 Hrun1).
  - rewrite Hs. vm_compute. reflexivity.
  - intros a Ha. apply list_elem_of_singleton in Ha as ->. reflexivity.
  - reflexivity.
  - reflexivity.
Defined.

(** C2 as stated fails in two ways.  A source article without original
    URL: the run that publishes it leaves a derived article without
    original URL, which the duplicate check passes over, and the next
    run over the unchanged store enhances the article again.  A listing
    of the derived articles that fails: the run goes on without
    duplicate check and enhances an article whose original URL is that
    of a derived article. *)
Lemma dedup_idempotence_counterexample :
  (exists run1 run2,
      main Samples.runtime Samples.env (Samples.world (Samples.goodItem "{}"))
        [Samples.original (Samples.article 1 "Chatbot Benefits" None)] = Returns run1 /\
      (success (results run1), failed (results run1)) = (1, 0)%nat /\
      a_original_url <$> listArticles "updated" (store run1) = [None] /\
      main Samples.runtime Samples.env (Samples.world (Samples.goodItem "{}"))
        (store run1) = Returns run2 /\
      success (results run2) = 1%nat /\
      map fst (attempted run2) = [Samples.article 1 "Chatbot Benefits" None]) /\
  (exists run,
      main Samples.runtime Samples.env
        {| w_originalsFail := None; w_updatedFail := Some "timeout of 5000ms exceeded";
           w_item := fun _ => Samples.goodItem "{}" |}
        [Samples.original
           (Samples.article 1 "Chatbot Benefits" (Some "https://b.example/1"));
         Samples.updated
           (Samples.article 2 "Chatbot Benefits, enhanced" (Some "https://b.example/1"))]
      = Returns run /\
      success (results run) = 1%nat /\
      map fst (attempted run)
      = [Samples.article 1 "Chatbot Benefits" (Some "https://b.example/1")]).
Proof.
  split.
  - do 2 eexists. split; [vm_compute; reflexivity|].
    split; [reflexivity|]. split; [reflexivity|].
    split; [vm_compute; reflexivity|]. split; reflexivity.
  - eexists. split; [vm_compute; reflexivity|]. split; reflexivity.
Qed.

(** *** Errors of configuration *)

Lemma initializeClient_unusable (key : option string) :
  key = None \/ key = Some "your_groq_api_key_here"%string ->
  initializeClient key = Throws keyMissingMessage.
Proof. by intros [-> | ->]. Qed.

Lemma Iterates_without_key (rt : Runtime) (env : Env) (w : World)
      (articles : list Article) (total i : nat) (todo : list Article) (run final : Run) :
  initializeClient (GROQ_API_KEY env) = Throws keyMissingMessage ->
  Iterates rt env w articles total i todo run final ->
  (success (results run) < 10)%nat ->
  exists calls,
    attempted final = attempted run ++ calls /\
    map fst calls = todo /\
    Forall (fun call => call.2 = Failure "No competitors found" \/
                        call.2 = Failure "Scraping failed" \/
                        call.2 = Failure keyMissingMessage) calls /\
    success (results final) = success (results run) /\
    store final = store run.
Proof.
  intros Hkey.
  induction 1 as [i run
                 | i item rest run result store' r' Hitem Hcount Hcap
                 | i item rest run final result store' r' Hitem Hcount Hcap Hnext IH];
    intros Hlt.
  - exists []. rewrite app_nil_r. repeat split; done.
  - destruct (processArticle_without_key rt env (w_item w i) item i total (store run) Hkey)
      as (reason & Hfail & _).
    rewrite Hfail in Hitem. injection Hitem as <- <-.
    apply countResult_counts in Hcount as (Hs & _). simpl in Hs. lia.
  - destruct (processArticle_without_key rt env (w_item w i) item i total (store run) Hkey)
      as (reason & Hfail & Hreason).
    rewrite Hfail in Hitem. injection Hitem as <- <-.
    apply countResult_counts in Hcount as (Hs & _). simpl in Hs.
    destruct IH as (calls & Hatt & Htodo & Hall & Hsucc & Hstore);
      [cbn [results]; lia|].
    cbn [results attempted store] in *.
    exists ((item, Failure reason) :: calls). rewrite <- app_assoc in Hatt.
    split; [done|]. split; [cbn [map fst]; by rewrite Htodo|].
    split; [|split; [lia | done]].
    constructor; [|done]. cbn [snd].
    destruct Hreason as [-> | [-> | ->]]; tauto.
Qed.

(** C5, as the code has it.  When the credential of the generative
    service is missing or is the placeholder, the run is not aborted:
    every pending item is handed to [processArticle], in order; each one
    fails, those with readable competitors for the reason that the
    credential is not set, and is counted as failed; nothing is
    published and the run returns its summary. *)
Theorem configuration_error_per_item (rt : Runtime) (env : Env) (w : World)
        (before : Store)
        (Hkey : GROQ_API_KEY env = None \/
                GROQ_API_KEY env = Some "your_groq_api_key_here"%string)
        (Hlisting : w_originalsFail w = None) :
  (exists run,
      main rt env w before = Returns run /\
      map fst (attempted run)
      = articlesToProcess (alreadyEnhanced w before) (listArticles "original" before) /\
      Forall (fun call => call.2 = Failure "No competitors found" \/
                          call.2 = Failure "Scraping failed" \/
                          call.2 = Failure keyMissingMessage) (attempted run) /\
      success (results run) = 0%nat /\
      failed (results run) = length (attempted run) /\
      store run = before) /\
  (forall (item : ItemWorld) (article : Article) (index total : nat) (store : Store),
      let searchResults :=
        searchRelatedArticles rt (SERP_API_KEY env) (w_serp item) (w_ddg item)
          COMPETITOR_COUNT in
      searchResults <> [] ->
      scrapeMultipleArticles (w_scrape item) searchResults <> [] ->
      processArticle rt env item article index total store
      = (Failure keyMissingMessage, store)).
Proof.
  apply initializeClient_unusable in Hkey. split.
  - destruct (main_returns rt env w before Hlisting) as [run Hrun].
    exists run. split; [done|].
    pose proof (main_Iterates _ _ _ _ _ Hrun) as Hit. cbn zeta in Hit.
    pose proof (Iterates_accounting _ _ _ _ _ _ _ _ _ Hit)
      as (calls' & later & Hatt' & _ & _ & Hf & _).
    destruct (Iterates_without_key _ _ _ _ _ _ _ _ _ Hkey Hit)
      as (calls & Hatt & Htodo & Hall & Hs & Hstore); [cbn; lia|].
    cbn [initialRun attempted results success failed store] in *.
    rewrite app_nil_l in Hatt, Hatt'. subst calls calls'.
    repeat split; try done.
    pose proof (count_calls (attempted run)) as Hcount.
    pose proof (Iterates_accounting _ _ _ _ _ _ _ _ _ Hit)
      as (calls' & later' & Hatt' & _ & Hs' & _).
    cbn [initialRun attempted results success] in *.
    rewrite app_nil_l in Hatt'. subst calls'. lia.
  - intros item article index total store searchResults Hfound Hread.
    unfold processArticle, processArticleTry. fold searchResults.
    rewrite bool_decide_eq_false_2 by (by destruct searchResults).
    rewrite bool_decide_eq_false_2
      by (by destruct (scrapeMultipleArticles (w_scrape item) searchResults)).
    unfold performGapAnalysis. rewrite Hkey. reflexivity.
Qed.

(** The theorem at a run without credential over one original. *)
Lemma configuration_error_per_item_witness :
  exists run,
    main Samples.runtime Samples.envNoGroqKey (Samples.world (Samples.goodItem "{}"))
      [Samples.original (Samples.article 1 "Chatbot Benefits" None)] = Returns run /\
    success (results run) = 0%nat /\
    failed (results run) = length (attempted run).
Proof.
  destruct (proj1 (configuration_error_per_item Samples.runtime Samples.envNoGroqKey
                     (Samples.world (Samples.goodItem "{}"))
                     [Samples.original (Samples.article 1 "Chatbot Benefits" None)]
                     (or_introl eq_refl) eq_refl))
    as (run & Hrun & _ & _ & Hs & Hf & _).
  by exists run.
Defined.

(** C5 as stated fails: without credential, a run over two originals
    with readable competitors calls [processArticle] for both, counts two
    failures with the message of the configuration error as their
    reason, and returns. *)
Lemma configuration_error_per_item_counterexample :
  exists run,
    main Samples.runtime Samples.envNoGroqKey (Samples.world (Samples.goodItem "{}"))
      [Samples.original (Samples.article 1 "Chatbot Benefits" None);
       Samples.original (Samples.article 2 "Live Chat" None)] = Returns run /\
    map snd (attempted run)
    = [Failure keyMissingMessage; Failure keyMissingMessage] /\
    failed (results run) = 2%nat /\
    map err_reason (errors (results run)) = [keyMissingMessage; keyMissingMessage].
Proof.
  eexists. split; [vm_compute; reflexivity|]. repeat split; reflexivity.
Qed.

(** *** Items without usable input, and the report of failures *)

(** C4 fails on the code.  An item for which discovery finds no
    competitor, or extraction reads none, comes back from
    [processArticle] as a failure, as does every result that is not a
    success; the loop adds one to [failed] and an entry to the list of
    failures for it, and leaves [skipped] as it is. *)
Theorem no_viable_input_counted_failed (rt : Runtime) (env : Env) (item : ItemWorld)
        (article : Article) (index total : nat) (store : Store)
        (articles : list Article) (i : nat) (a : Article) (r : Results)
        (Hinput :
           let searchResults :=
             searchRelatedArticles rt (SERP_API_KEY env) (w_serp item) (w_ddg item)
               COMPETITOR_COUNT in
           searchResults = [] \/
           scrapeMultipleArticles (w_scrape item) searchResults = [])
        (Hentry : articles !! i = Some a) :
  exists reason,
    (reason = "No competitors found" \/ reason = "Scraping failed")%string /\
    processArticle rt env item article index total store = (Failure reason, store) /\
    countResult articles i r (Failure reason)
    = Returns {| success := success r; failed := S (failed r); skipped := skipped r;
                 errors := errors r ++ [{| err_title := a_title a;
                                           err_reason := reason |}] |}.
Proof.
  cbn zeta in Hinput.
  pose proof (processArticle_no_input rt env item article index total store)
    as [Hnone Hunread]. cbn zeta in Hnone, Hunread.
  destruct (searchRelatedArticles rt (SERP_API_KEY env) (w_serp item) (w_ddg item)
              COMPETITOR_COUNT) as [|c cs] eqn:Hsearch.
  - exists "No competitors found"%string. split; [by left|]. split; [by apply Hnone|].
    unfold countResult. by rewrite Hentry.
  - destruct Hinput as [Hinput | Hinput]; [done|].
    exists "Scraping failed"%string. split; [by right|]. split; [by apply Hunread|].
    unfold countResult. by rewrite Hentry.
Qed.

(** The theorem at an item without competitor, in a fresh run. *)
Lemma no_viable_input_counted_failed_witness :
  exists reason,
    (reason = "No competitors found" \/ reason = "Scraping failed")%string /\
    processArticle Samples.runtime Samples.env Samples.noCompetitorItem
      (Samples.article 1 "Chatbot Benefits" None) 0 1 []
    = (Failure reason, []) /\
    countResult [Samples.article 1 "Chatbot Benefits" None] 0
      {| success := 0; failed := 0; skipped := 0; errors := [] |} (Failure reason)
    = Returns {| success := 0; failed := 1; skipped := 0;
                 errors := [{| err_title := "Chatbot Benefits";
                               err_reason := reason |}] |}.
Proof.
  exact (no_viable_input_counted_failed Samples.runtime Samples.env
           Samples.noCompetitorItem (Samples.article 1 "Chatbot Benefits" None) 0 1 []
           [Samples.article 1 "Chatbot Benefits" None] 0
           (Samples.article 1 "Chatbot Benefits" None)
           {| success := 0; failed := 0; skipped := 0; errors := [] |}
           (or_introl eq_refl) eq_refl).
Defined.

(** The summary of a run over one original without competitor, and of
    one whose competitors cannot be read. *)
Lemma no_viable_input_summary :
  (exists run,
      main Samples.runtime Samples.env (Samples.world Samples.noCompetitorItem)
        [Samples.original (Samples.article 1 "Chatbot Benefits" None)] = Returns run /\
      results run = {| success := 0; failed := 1; skipped := 0;
                       errors := [{| err_title := "Chatbot Benefits";
                                     err_reason := "No competitors found" |}] |}) /\
  (exists run,
      main Samples.runtime Samples.env (Samples.world Samples.unreadableItem)
        [Samples.original (Samples.article 1 "Chatbot Benefits" None)] = Returns run /\
      results run = {| success := 0; failed := 1; skipped := 0;
                       errors := [{| err_title := "Chatbot Benefits";
                                     err_reason := "Scraping failed" |}] |}).
Proof. split; eexists; (split; [vm_compute; reflexivity | reflexivity]). Qed.

(** C9 fails on the code.  The loop runs over [articlesToProcess] and
    reads the title of a failure from [articles] at the same index: once
    the duplicate check has left out an earlier original, the entry of
    the list of failures names another article than the one that failed.
    Here the first original is already enhanced and the second has no
    competitor. *)
Theorem failure_report_names_other_item :
  exists run,
    main Samples.runtime Samples.env (Samples.world Samples.noCompetitorItem)
      [Samples.original (Samples.article 1 "Chatbot Benefits" (Some "https://b.example/1"));
       Samples.original (Samples.article 2 "Live Chat" (Some "https://b.example/2"));
       Samples.updated (Samples.article 3 "Chatbot Benefits, enhanced"
                          (Some "https://b.example/1"))]
    = Returns run /\
    map (fun call => a_title call.1) (attempted run) = ["Live Chat"%string] /\
    map snd (attempted run) = [Failure "No competitors found"] /\
    (failed (results run), skipped (results run)) = (1, 1)%nat /\
    errors (results run) = [{| err_title := "Chatbot Benefits";
                               err_reason := "No competitors found" |}].
Proof.
  eexists. split; [vm_compute; reflexivity|]. repeat split; reflexivity.
Qed.

(** Where the duplicate check leaves out no article, the title is that
    of the item that failed. *)
Lemma failure_report_without_duplicates (urls : gset string) (articles : list Article)
      (i : nat) (item : Article) :
  skippedArticles urls articles = [] ->
  articlesToProcess urls articles !! i = Some item ->
  articles !! i = Some item.
Proof.
  intros Hnone.
  enough (articlesToProcess urls articles = articles) as -> by done.
  unfold articlesToProcess, skippedArticles in *.
  induction articles as [|a rest IH]; [done|]. simpl in *.
  destruct (has urls (a_original_url a)); [done|]. simpl. f_equal. by apply IH.
Qed.

End Orchestrator.

(** * Further properties of the code *)

(** ** Discovery: bounds, own domain, order, redirects *)

Section DiscoveryMore.
Import JS GoogleSearcher.

Lemma eachResult_own_domain (rt : Runtime) (count : nat) (elements : list DdgElement)
      (results out : list Candidate) :
  Forall (fun c => notBeyondChats (cand_url c) = true) results ->
  eachResult rt count elements results = Returns out ->
  Forall (fun c => notBeyondChats (cand_url c) = true) out.
Proof.
  revert results. induction elements as [|element rest IH]; intros results Hres.
  - simpl. by intros [= <-].
  - cbn [eachResult].
    destruct (count + 5 <=? length results)%nat; [by intros [= <-]|].
    destruct (resolveRedirect rt (e_href element)) as [[u|]|e];
      cbn [mbind Outcome_bind bindO]; [| by apply IH | done].
    destruct (truthy (Some u) && truthy (Some (trim (e_titleText element)))
              && isBlogOrArticle u (trim (e_titleText element))
              && notBeyondChats u) eqn:Hpush; [|by apply IH].
    apply IH. apply Forall_app. split; [done|].
    repeat constructor. simpl.
    rewrite !andb_true_iff in Hpush. tauto.
Qed.

(** The bound and the exclusion of the owner's domain, for both
    providers. *)
Lemma searchRelatedArticles_bounds (rt : Runtime) (key : option string)
      (response : SerpResponse) (page : DdgResponse) (count : nat) :
  (length (searchRelatedArticles rt key response page count) <= count)%nat /\
  Forall (fun c => notBeyondChats (cand_url c) = true)
         (searchRelatedArticles rt key response page count).
Proof.
  assert (Hddg : (length (searchWithDuckDuckGo rt page count) <= count)%nat /\
                 Forall (fun c => notBeyondChats (cand_url c) = true)
                        (searchWithDuckDuckGo rt page count)).
  { unfold searchWithDuckDuckGo. destruct page as [e|elements]; simpl;
      [split; [lia | constructor]|].
    destruct (eachResult rt count elements []) as [out|e] eqn:E; simpl;
      [|split; [lia | constructor]].
    split; [rewrite length_take; lia|].
    apply Forall_take. eapply eachResult_own_domain; [|exact E]. constructor. }
  unfold searchRelatedArticles. destruct (_ && _); [|exact Hddg].
  unfold searchWithSerpAPI. destruct response as [e|organic_results]; [exact Hddg|].
  split; [rewrite length_map, length_take; lia|].
  apply Forall_map, Forall_take. simpl.
  apply List.Forall_forall. intros r Hr. by apply filter_In in Hr as [_ Hr].
Qed.

(** X1. Whatever the providers answer, discovery returns at most [count]
    candidates, and none of them has a URL in which the owner's domain,
    [beyondchats.com], occurs in any case of letters. *)
Theorem search_bounded_and_external (rt : Runtime) (key : option string)
        (response : SerpResponse) (page : DdgResponse) (count : nat) :
  (length (searchRelatedArticles rt key response page count) <= count)%nat /\
  forall c, c ∈ searchRelatedArticles rt key response page count ->
            includes (toLowerCase (cand_url c)) "beyondchats.com" = false.
Proof.
  destruct (searchRelatedArticles_bounds rt key response page count) as [Hlen Hown].
  split; [exact Hlen|].
  intros c Hc. rewrite List.Forall_forall in Hown.
  apply list_elem_of_In, Hown in Hc. unfold notBeyondChats in Hc.
  by apply negb_true_iff in Hc.
Qed.

Lemma filter_sublist {A} (f : A -> bool) (l : list A) : List.filter f l `sublist_of` l.
Proof.
  induction l as [|x l IH]; simpl; [constructor|].
  destruct (f x); [by apply sublist_skip | by apply sublist_cons].
Qed.

(** X2. With a usable key and an answer of the primary provider, the
    candidates are hits of that answer, in the order of the answer: their
    URLs form a sub-list of the links listed, each with the title of its
    hit. *)
Theorem serp_results_keep_order (rt : Runtime) (key : string)
        (hits : list SerpResult) (page : DdgResponse) (count : nat)
        (Hkey : key <> EmptyString /\ key <> "your_serpapi_key_here"%string) :
  map (fun c => (cand_url c, cand_title c))
      (searchRelatedArticles rt (Some key) (SerpData (Some hits)) page count)
  `sublist_of` map (fun r => (r_link r, r_title r)) hits.
Proof.
  destruct Hkey as [Hne Hph]. unfold searchRelatedArticles.
  replace (truthy (Some key)) with true by (by destruct key).
  replace (String.eqb (default "" (Some key)) "your_serpapi_key_here") with false
    by (symmetry; by apply String.eqb_neq).
  cbn [andb negb searchWithSerpAPI default].
  rewrite map_map. cbn [cand_url cand_title].
  apply (fmap_sublist (fun r => (r_link r, r_title r))).
  etransitivity; [apply sublist_take|].
  etransitivity; apply filter_sublist.
Qed.

(** The theorem at an answer of three hits, of which the second is a
    page of a social network. *)
Lemma serp_results_keep_order_witness :
  map (fun c => (cand_url c, cand_title c))
      (searchRelatedArticles Samples.runtime (Some "serp_live")
         (SerpData (Some [Samples.hit "https://a.example/blog/1";
                          Samples.hit "https://www.facebook.com/a";
                          Samples.hit "https://b.example/blog/2"]))
         (DdgFails "unreachable") 2)
  `sublist_of`
  map (fun r => (r_link r, r_title r))
      [Samples.hit "https://a.example/blog/1";
       Samples.hit "https://www.facebook.com/a";
       Samples.hit "https://b.example/blog/2"].
Proof.
  apply (serp_results_keep_order Samples.runtime "serp_live"). split; discriminate.
Defined.

Lemma eachResult_throws (rt : Runtime) (count : nat) (bad : DdgElement)
      (post pre : list DdgElement) (results : list Candidate) :
  (exists e, resolveRedirect rt (e_href bad) = Throws e) ->
  (length results + length pre < count + 5)%nat ->
  exists e, eachResult rt count (pre ++ bad :: post) results = Throws e.
Proof.
  intros [e Hbad]. revert results.
  induction pre as [|element pre IH]; intros results Hlen.
  - cbn [app eachResult].
    replace (count + 5 <=? length results)%nat with false
      by (symmetry; apply Nat.leb_gt; simpl in Hlen; lia).
    rewrite Hbad. eauto.
  - cbn [app eachResult]. simpl in Hlen.
    replace (count + 5 <=? length results)%nat with false
      by (symmetry; apply Nat.leb_gt; lia).
    destruct (resolveRedirect rt (e_href element)) as [[u|]|e'];
      cbn [mbind Outcome_bind bindO]; [| apply IH; lia | eauto].
    destruct (_ && _); apply IH; [rewrite length_app; simpl; lia | lia].
Qed.

(** X3. One redirect link that [decodeURIComponent] refuses empties the
    whole answer of the fallback provider: when such an element is
    reached, the candidates collected before it are dropped with it and
    the search returns no candidate. *)
Theorem malformed_redirect_empties_search (rt : Runtime) (count : nat)
        (pre post : list DdgElement) (bad : DdgElement) (href captured : string)
        (Hreached : (length pre < count + 5)%nat)
        (Hhref : e_href bad = Some href)
        (Hcaptured : includes href "uddg=" = true /\ matchUddg href = Some captured)
        (Hrefused : decodeURIComponent rt captured = None) :
  searchWithDuckDuckGo rt (DdgPage (pre ++ bad :: post)) count = [].
Proof.
  destruct Hcaptured as [Hinc Hmatch].
  destruct (eachResult_throws rt count bad post pre []) as [e He].
  - exists "URI malformed"%string. unfold resolveRedirect. rewrite Hhref, Hinc.
    replace (truthy (Some href)) with true by (by destruct href).
    cbn [andb]. by rewrite Hmatch, Hrefused.
  - simpl. lia.
  - unfold searchWithDuckDuckGo. by rewrite He.
Qed.

(** The theorem at a page whose second link carries a percent sign that
    no escape follows, which [decodeURIComponent] refuses: the first
    link, a blog post, is lost as well.  A link whose escapes are well
    formed is decoded and kept. *)
Lemma malformed_redirect_empties_search_witness :
  searchWithDuckDuckGo Samples.runtime
    (DdgPage [MoreSamples.redirect "https://a.example/blog/1";
              MoreSamples.redirect "https://b.example/blog/50%-off"]) 2 = [] /\
  length (searchWithDuckDuckGo Samples.runtime
            (DdgPage [MoreSamples.redirect "https://a.example/blog/1"]) 2) = 1%nat /\
  map cand_url
      (searchWithDuckDuckGo Samples.runtime
         (DdgPage [MoreSamples.redirect "https%3A%2F%2Fb.example%2Fblog%2Fcaf%C3%A9"]) 2)
  = [String.append "https://b.example/blog/caf" (String (ascii_of_N 233) EmptyString)].
Proof.
  split; [|split; reflexivity].
  apply (malformed_redirect_empties_search Samples.runtime 2
           [MoreSamples.redirect "https://a.example/blog/1"] []
           (MoreSamples.redirect "https://b.example/blog/50%-off")
           "//duckduckgo.com/l/?uddg=https://b.example/blog/50%-off&rut=1"
           "https://b.example/blog/50%-off");
    [simpl; lia | reflexivity | split; reflexivity | reflexivity].
Defined.

Lemma lowerChar_idem (c : ascii) : lowerChar (lowerChar c) = lowerChar c.
Proof. destruct c as [[] [] [] [] [] [] [] []]; reflexivity. Qed.

Lemma toLowerCase_idem (s : string) : toLowerCase (toLowerCase s) = toLowerCase s.
Proof.
  induction s as [|a s IH]; [done|]. cbn [toLowerCase]. by rewrite lowerChar_idem, IH.
Qed.

(** X4. The article filter ignores the case of letters: a URL and a
    title are judged as their lower-case forms are, so two candidates
    that differ in case only get the same verdict. *)
Theorem isBlogOrArticle_ignores_case (url title : string) :
  isBlogOrArticle (toLowerCase url) (toLowerCase title) = isBlogOrArticle url title /\
  forall url' title',
    toLowerCase url' = toLowerCase url -> toLowerCase title' = toLowerCase title ->
    isBlogOrArticle url' title' = isBlogOrArticle url title.
Proof.
  split.
  - unfold isBlogOrArticle. by rewrite !toLowerCase_idem.
  - intros url' title' Hu Ht. unfold isBlogOrArticle. by rewrite Hu, Ht.
Qed.

End DiscoveryMore.

(** ** Text: tags, white space, titles *)

Section TextMore.
Import JS LlmEnhancer TextShape.

Lemma includes_unit (a c : ascii) (s : string) :
  includes (String a s) (String c EmptyString)
  = Ascii.eqb c a || includes s (String c EmptyString).
Proof. cbn [includes startsWith]. by rewrite startsWith_empty, andb_true_r. Qed.

Lemma isSpace_not (a c : ascii) :
  isSpace c = false -> isSpace a = true -> Ascii.eqb c a = false.
Proof.
  intros Hc Ha. destruct (Ascii.eqb_spec c a) as [->|]; [congruence | done].
Qed.

Lemma replaceTags_no_gt (s : string) (inTag : bool) :
  includes s ">" = false -> includes (replaceTags inTag s) ">" = false.
Proof.
  revert inTag. induction s as [|a s IH]; intros inTag; [by destruct inTag|].
  rewrite includes_unit. intros H. apply orb_false_iff in H as [Ha Hs].
  cbn [replaceTags]. rewrite Ascii.eqb_sym, Ha, Hs, andb_false_r.
  destruct inTag; [by apply IH|].
  rewrite includes_unit, Ha. by apply IH.
Qed.

Lemma replaceTags_hasTag (s : string) (inTag : bool) :
  hasTag (replaceTags inTag s) = false.
Proof.
  revert inTag. induction s as [|a s IH]; intros inTag; [by destruct inTag|].
  cbn [replaceTags]. destruct inTag.
  - destruct (Ascii.eqb a ">"); apply IH.
  - destruct (Ascii.eqb a "<" && includes s ">") eqn:Hopen.
    + cbn [hasTag]. by rewrite IH.
    + cbn [hasTag]. rewrite IH, orb_false_r.
      apply andb_false_iff in Hopen as [H|H]; [by rewrite H|].
      by rewrite (replaceTags_no_gt s false H), andb_false_r.
Qed.

Lemma collapseSpaces_no_gt (s : string) (inRun : bool) :
  includes s ">" = false -> includes (collapseSpaces inRun s) ">" = false.
Proof.
  revert inRun. induction s as [|a s IH]; intros inRun; [done|].
  rewrite includes_unit. intros H. apply orb_false_iff in H as [Ha Hs].
  cbn [collapseSpaces]. destruct (isSpace a).
  - destruct inRun; [by apply IH|]. rewrite includes_unit. by rewrite IH.
  - rewrite includes_unit, Ha. by apply IH.
Qed.

Lemma collapseSpaces_hasTag (s : string) (inRun : bool) :
  hasTag s = false -> hasTag (collapseSpaces inRun s) = false.
Proof.
  revert inRun. induction s as [|a s IH]; intros inRun; [done|].
  cbn [hasTag]. intros H. apply orb_false_iff in H as [Ha Hs].
  cbn [collapseSpaces]. destruct (isSpace a) eqn:Hsp.
  - destruct inRun; [by apply IH|]. cbn [hasTag]. by rewrite IH.
  - cbn [hasTag]. rewrite (IH false Hs), orb_false_r.
    apply andb_false_iff in Ha as [H|H]; [by rewrite H|].
    by rewrite (collapseSpaces_no_gt s false H), andb_false_r.
Qed.

Lemma trimStart_hasTag (s : string) : hasTag s = false -> hasTag (trimStart s) = false.
Proof.
  induction s as [|a s IH]; [done|]. intros H. cbn [trimStart].
  destruct (isSpace a); [|done]. apply IH.
  cbn [hasTag] in H. by apply orb_false_iff in H as [_ H].
Qed.

Lemma trimEnd_no_gt (s : string) :
  includes s ">" = false -> includes (trimEnd s) ">" = false.
Proof.
  induction s as [|a s IH]; [done|]. rewrite includes_unit. intros H.
  apply orb_false_iff in H as [Ha Hs]. cbn [trimEnd].
  destruct (allSpace (String a s)); [done|]. rewrite includes_unit, Ha. by apply IH.
Qed.

Lemma trimEnd_hasTag (s : string) : hasTag s = false -> hasTag (trimEnd s) = false.
Proof.
  induction s as [|a s IH]; [done|]. cbn [hasTag]. intros H.
  apply orb_false_iff in H as [Ha Hs]. cbn [trimEnd].
  destruct (allSpace (String a s)); [done|]. cbn [hasTag].
  rewrite (IH Hs), orb_false_r.
  apply andb_false_iff in Ha as [H|H]; [by rewrite H|].
  by rewrite (trimEnd_no_gt s H), andb_false_r.
Qed.

Lemma collapseSpaces_normal (s : string) (inRun : bool) :
  normalSpaces inRun (collapseSpaces inRun s) = true.
Proof.
  revert inRun. induction s as [|a s IH]; intros inRun; [done|].
  cbn [collapseSpaces]. destruct (isSpace a) eqn:Hsp.
  - destruct inRun; [apply IH|]. cbn [normalSpaces]. simpl. apply IH.
  - cbn [normalSpaces]. rewrite Hsp. apply IH.
Qed.

Lemma normalSpaces_weaken (s : string) (afterSpace : bool) :
  normalSpaces afterSpace s = true -> normalSpaces false s = true.
Proof.
  destruct s as [|a s]; [done|]. cbn [normalSpaces].
  destruct (isSpace a); [|done]. destruct afterSpace; [done | done].
Qed.

Lemma trimStart_normal (s : string) (afterSpace : bool) :
  normalSpaces afterSpace s = true -> normalSpaces false (trimStart s) = true.
Proof.
  revert afterSpace. induction s as [|a s IH]; intros afterSpace; [done|].
  cbn [normalSpaces trimStart]. destruct (isSpace a) eqn:Hsp.
  - rewrite !andb_true_iff. intros [_ H]. by apply (IH true).
  - intros H. cbn [normalSpaces]. by rewrite Hsp.
Qed.

Lemma trimEnd_normal (s : string) (afterSpace : bool) :
  normalSpaces afterSpace s = true -> normalSpaces afterSpace (trimEnd s) = true.
Proof.
  revert afterSpace. induction s as [|a s IH]; intros afterSpace; [done|].
  cbn [trimEnd]. destruct (allSpace (String a s)); [done|].
  cbn [normalSpaces]. destruct (isSpace a).
  - rewrite !andb_true_iff. intros [H1 H2]. split; [done | by apply IH].
  - apply IH.
Qed.

Lemma collapseSpaces_of_normal (s : string) (inRun : bool) :
  normalSpaces inRun s = true -> collapseSpaces inRun s = s.
Proof.
  revert inRun. induction s as [|a s IH]; intros inRun; [done|].
  cbn [normalSpaces collapseSpaces]. destruct (isSpace a).
  - rewrite !andb_true_iff. intros [[Hrun Ha] Hs].
    destruct inRun; [done|]. apply Ascii.eqb_eq in Ha as ->. by rewrite (IH true Hs).
  - intros Hs. by rewrite (IH false Hs).
Qed.

Lemma replaceTags_of_plain (s : string) : hasTag s = false -> replaceTags false s = s.
Proof.
  induction s as [|a s IH]; [done|]. cbn [hasTag]. intros H.
  apply orb_false_iff in H as [Ha Hs]. cbn [replaceTags]. by rewrite Ha, (IH Hs).
Qed.

Lemma trimStart_headOk (s : string) : headOk (trimStart s) = true.
Proof.
  induction s as [|a s IH]; [done|]. cbn [trimStart].
  destruct (isSpace a) eqn:Hsp; [done|]. cbn [headOk]. by rewrite Hsp.
Qed.

Lemma trimStart_of_headOk (s : string) : headOk s = true -> trimStart s = s.
Proof.
  destruct s as [|a s]; [done|]. cbn [headOk trimStart]. by destruct (isSpace a).
Qed.

Lemma trimEnd_headOk (s : string) : headOk s = true -> headOk (trimEnd s) = true.
Proof.
  destruct s as [|a s]; [done|]. cbn [headOk trimEnd]. intros H.
  destruct (allSpace (String a s)); [done|]. done.
Qed.

Lemma allSpace_trimEnd (s : string) : allSpace (trimEnd s) = allSpace s.
Proof.
  induction s as [|a s IH]; [done|]. cbn [trimEnd].
  destruct (allSpace (String a s)) eqn:E; [done|].
  cbn [allSpace] in *. by rewrite IH.
Qed.

Lemma trimEnd_idem (s : string) : trimEnd (trimEnd s) = trimEnd s.
Proof.
  induction s as [|a s IH]; [done|]. cbn [trimEnd].
  destruct (allSpace (String a s)) eqn:E; [done|].
  cbn [trimEnd]. replace (allSpace (String a (trimEnd s))) with false.
  - by rewrite IH.
  - cbn [allSpace] in *. by rewrite allSpace_trimEnd.
Qed.

Lemma trim_idem (s : string) : trim (trim s) = trim s.
Proof.
  unfold trim. rewrite (trimStart_of_headOk (trimEnd (trimStart s))).
  - apply trimEnd_idem.
  - apply trimEnd_headOk, trimStart_headOk.
Qed.

Lemma orElse_empty (s : string) : orElse s "" = s.
Proof. by destruct s. Qed.

Lemma stripHtml_shape (html : string) :
  hasTag (stripHtml html) = false /\
  trim (stripHtml html) = stripHtml html /\
  normalSpaces false (stripHtml html) = true.
Proof.
  unfold stripHtml. rewrite orElse_empty. split; [|split].
  - unfold trim. apply trimEnd_hasTag, trimStart_hasTag, collapseSpaces_hasTag,
      replaceTags_hasTag.
  - apply trim_idem.
  - unfold trim. apply trimEnd_normal, (trimStart_normal _ false), collapseSpaces_normal.
Qed.

(** X5. What [stripHtml] returns holds no tag (no [<] that a [>]
    follows), no white space at either end, and no white space inside
    but single spaces. *)
Theorem stripHtml_plain_text (html : string) :
  hasTag (stripHtml html) = false /\
  trim (stripHtml html) = stripHtml html /\
  normalSpaces false (stripHtml html) = true.
Proof. apply stripHtml_shape. Qed.

(** X6. [stripHtml] is idempotent: stripping a stripped text changes
    nothing. *)
Theorem stripHtml_idempotent (html : string) :
  stripHtml (stripHtml html) = stripHtml html.
Proof.
  destruct (stripHtml_shape html) as (Htag & Htrim & Hnormal).
  unfold stripHtml at 1. rewrite orElse_empty.
  by rewrite (replaceTags_of_plain _ Htag), (collapseSpaces_of_normal _ _ Hnormal).
Qed.

Lemma extractTitle_empty : extractTitle "" = None.
Proof. reflexivity. Qed.

(** X7. The title of an enhancement is never empty: it is the text of
    the first [h1] heading of the content, stripped of tags, when that
    text is not empty, and the original title after ["Enhanced: "]
    otherwise. *)
Theorem enhanced_title_never_empty (key : option string) (client : Client)
        (article : Article) (competitors : list Competitor) (enhanced : Enhanced)
        (Hresult : enhanceArticle key client article competitors = Returns enhanced) :
  en_title enhanced <> EmptyString /\
  (en_title enhanced = ("Enhanced: " +:+ a_title article)%string \/
   (exists heading,
       matchH1 (en_content enhanced) = Some heading /\
       en_title enhanced = stripHtml heading /\
       hasTag (en_title enhanced) = false)).
Proof.
  unfold enhanceArticle in Hresult.
  destruct (initializeClient key) as [[]|e]; cbn [mbind Outcome_bind bindO] in Hresult;
    [|done].
  destruct (client (enhancePrompt article competitors)) as [e|choices]; [done|].
  cbn [mret Outcome_ret] in Hresult. injection Hresult as <-. cbn [en_title en_content].
  unfold extractTitle.
  destruct (matchH1 (orElseOpt (firstContent choices) "")) as [heading|] eqn:Hmatch;
    cbn [orElseOpt].
  - destruct (stripHtml heading) as [|c t] eqn:Hstrip; cbn [orElse].
    + split; [done | by left].
    + split; [done|]. right. exists heading. split; [done|]. split; [done|].
      rewrite <- Hstrip. apply stripHtml_shape.
  - split; [done | by left].
Qed.

(** The theorem at an answer with a heading in upper-case tags. *)
Lemma enhanced_title_never_empty_witness :
  exists enhanced,
    enhanceArticle (Some "gsk_live")
      (Samples.says "<H1 class='t'> Chatbots  <em>now</em></H1><p>Chatbots help.</p>")
      (Samples.article 1 "Chatbot Benefits" None) [] = Returns enhanced /\
    en_title enhanced = "Chatbots now"%string /\
    en_title enhanced <> EmptyString.
Proof.
  eexists. split; [reflexivity|]. split; [reflexivity|].
  apply (enhanced_title_never_empty (Some "gsk_live")
           (Samples.says "<H1 class='t'> Chatbots  <em>now</em></H1><p>Chatbots help.</p>")
           (Samples.article 1 "Chatbot Benefits" None) []).
  reflexivity.
Defined.

Lemma takeN_padded (n : nat) (tail : string) :
  takeN (N.of_nat n) (MoreSamples.padded n tail) = MoreSamples.padded n "".
Proof.
  induction n as [|n IH].
  - simpl. by destruct tail.
  - cbn [MoreSamples.padded takeN].
    replace (N.of_nat (S n) =? 0) with false by (symmetry; apply N.eqb_neq; lia).
    replace (N.pred (N.of_nat (S n))) with (N.of_nat n) by lia. by rewrite IH.
Qed.

Lemma padded_inj (n : nat) (s t : string) :
  MoreSamples.padded n s = MoreSamples.padded n t -> s = t.
Proof. induction n as [|n IH]; [done|]. simpl. intros [= H]. by apply IH. Qed.

(** X9. The generative service sees the first 100000 code units of the
    body only: two articles with one title whose bodies agree on them
    get the same enhancement.  Hence, when the bodies differ further on,
    no stripping function gives both bodies back from the enhanced
    contents. *)
Theorem enhancement_sees_truncated_body (key : option string) (client : Client)
        (article1 article2 : Article) (competitors : list Competitor)
        (Htitle : a_title article1 = a_title article2)
        (Hagree : substring (a_content article1) 0 100000
                  = substring (a_content article2) 0 100000) :
  enhanceArticle key client article1 competitors
  = enhanceArticle key client article2 competitors /\
  (a_content article1 <> a_content article2 ->
   forall (strip : string -> string) (enhanced1 enhanced2 : Enhanced),
     enhanceArticle key client article1 competitors = Returns enhanced1 ->
     enhanceArticle key client article2 competitors = Returns enhanced2 ->
     ~ (strip (en_content enhanced1) = a_content article1 /\
        strip (en_content enhanced2) = a_content article2)).
Proof.
  assert (Hsame : enhanceArticle key client article1 competitors
                  = enhanceArticle key client article2 competitors).
  { unfold enhanceArticle, enhancePrompt. by rewrite Htitle, Hagree. }
  split; [exact Hsame|].
  intros Hdiffer strip enhanced1 enhanced2 H1 H2 [Hs1 Hs2].
  rewrite Hsame, H2 in H1. injection H1 as <-. congruence.
Qed.

(** The theorem at two bodies of 100001 code units that differ in the
    last one. *)
Lemma enhancement_sees_truncated_body_witness :
  let long tail := MoreSamples.articleWith (MoreSamples.padded (N.to_nat 100000) tail) in
  enhanceArticle (Some "gsk_live") (Samples.says "<p>a</p>") (long "x"%string) []
  = enhanceArticle (Some "gsk_live") (Samples.says "<p>a</p>") (long "y"%string) [] /\
  a_content (long "x"%string) <> a_content (long "y"%string).
Proof.
  intros long. split.
  - apply (enhancement_sees_truncated_body (Some "gsk_live") (Samples.says "<p>a</p>")
             (long "x"%string) (long "y"%string) []); [reflexivity|].
    unfold long, MoreSamples.articleWith, substring. cbn [a_content].
    change (N.max 0 100000 - N.min 0 100000) with (N.of_nat (N.to_nat 100000)).
    change (N.to_nat (N.min 0 100000)) with 0%nat. cbn [dropN].
    by rewrite !takeN_padded.
  - unfold long. cbn [MoreSamples.articleWith a_content]. intros H.
    apply padded_inj in H. discriminate.
Defined.

End TextMore.

(** ** The title read from the enhanced content *)

Section TitleMore.
Import JS LlmEnhancer TextShape.

Lemma afterGt_app (attributes rest : string) :
  includes attributes ">" = false ->
  afterGt (attributes +:+ ">" +:+ rest) = Some rest.
Proof.
  induction attributes as [|a attributes IH]; [reflexivity|].
  rewrite includes_unit. intros H. apply orb_false_iff in H as [Ha Hrest].
  change (String a attributes +:+ ">" +:+ rest)
    with (String a (attributes +:+ ">" +:+ rest)).
  cbn [afterGt]. rewrite Ascii.eqb_sym, Ha. by apply IH.
Qed.

Lemma upperAZ_lt (a : ascii) : Ascii.eqb (upperAZ "<") (upperAZ a) = Ascii.eqb "<" a.
Proof. by destruct a as [[] [] [] [] [] [] [] []]. Qed.

Lemma startsWithCI_close (rest : string) :
  startsWithCI (String "<" (String "/" (String "h" (String "1" (String ">" rest)))))
    "</h1>" = true.
Proof. by destruct rest. Qed.

Lemma startsWithCI_open (rest : string) :
  startsWithCI (String "<" (String "h" (String "1" rest))) "<h1" = true.
Proof. by destruct rest. Qed.

Lemma untilCloseH1_plain (text rest : string) :
  plainLine text = true ->
  untilCloseH1 (text +:+ "</h1>" +:+ rest) = Some text.
Proof.
  induction text as [|a text IH].
  { intros _.
    change ("" +:+ "</h1>" +:+ rest)
      with (String "<" (String "/" (String "h" (String "1" (String ">" rest))))).
    cbn [untilCloseH1]. by rewrite startsWithCI_close. }
  cbn [plainLine]. rewrite !andb_true_iff, !negb_true_iff.
  intros [[[Hlt Hlf] Hcr] Hplain].
  change (String a text +:+ "</h1>" +:+ rest)
    with (String a (text +:+ "</h1>" +:+ rest)).
  cbn [untilCloseH1 startsWithCI].
  rewrite upperAZ_lt, Ascii.eqb_sym, Hlt, Hlf, Hcr. cbn [andb orb].
  by rewrite (IH Hplain).
Qed.

(** X24. The title is read from the first [h1] heading of the enhanced
    content: for a content that begins with an [h1] tag, with or without
    attributes, whose text has no tag and no line break, [extractTitle]
    returns that text with its white space normalized, whatever follows
    the heading. *)
Theorem extractTitle_reads_the_heading (attributes text rest : string)
        (Hattributes : includes attributes ">" = false)
        (Htext : plainLine text = true) :
  extractTitle ("<h1" +:+ attributes +:+ ">" +:+ text +:+ "</h1>" +:+ rest)
  = Some (stripHtml text).
Proof.
  unfold extractTitle.
  change ("<h1" +:+ attributes +:+ ">" +:+ text +:+ "</h1>" +:+ rest)
    with (String "<" (String "h" (String "1"
            (attributes +:+ ">" +:+ text +:+ "</h1>" +:+ rest)))).
  cbn [matchH1]. rewrite startsWithCI_open.
  cbn [dropN]. rewrite (afterGt_app _ _ Hattributes).
  by rewrite (untilCloseH1_plain _ _ Htext).
Qed.

(** The theorem at a heading with a class, followed by a paragraph. *)
Lemma extractTitle_reads_the_heading_witness :
  extractTitle "<h1 class='t'>Chatbot  Benefits</h1><p>Chatbots help.</p>"
  = Some "Chatbot Benefits"%string.
Proof.
  exact (extractTitle_reads_the_heading " class='t'" "Chatbot  Benefits"
           "<p>Chatbots help.</p>" eq_refl eq_refl).
Defined.

End TitleMore.

(** ** One item: outages, late failures, what is published *)

Section ItemMore.
Import GoogleSearcher ContentScraper LlmEnhancer Store ProcessAll.

Ltac outcome_step :=
  cbn [mbind mret Outcome_bind Outcome_ret bindO tryCatch] in *.

(** [processArticle] past the two checks for lack of input. *)
Lemma processArticle_with_input (rt : Runtime) (env : Env) (w : ItemWorld)
      (article : Article) (index total : nat) (store : Store) :
  let competitors :=
    scrapeMultipleArticles (w_scrape w)
      (searchRelatedArticles rt (SERP_API_KEY env) (w_serp w) (w_ddg w) COMPETITOR_COUNT) in
  competitors <> [] ->
  processArticle rt env w article index total store
  = tryCatch
      (gapAnalysis ← performGapAnalysis rt (GROQ_API_KEY env) (w_gap w) article competitors;
       enhanced ← enhanceArticle (GROQ_API_KEY env) (w_enhance w) article competitors;
       citationHtml ← generateCitations rt competitors;
       '(enhancedArticle, store') ← publishArticle w
            (buildPayload article enhanced citationHtml gapAnalysis competitors) store;
       mret (Success (enhancedArticle_id enhancedArticle) (overall_score gapAnalysis),
             store'))
      (fun message => (Failure message, store)).
Proof.
  intros competitors. subst competitors. intros Hne.
  unfold processArticle, processArticleTry.
  rewrite (bool_decide_eq_false_2
             (length (searchRelatedArticles rt (SERP_API_KEY env) (w_serp w) (w_ddg w)
                        COMPETITOR_COUNT) = 0%nat)).
  - rewrite bool_decide_eq_false_2; [done|].
    intros Hlen. apply Hne. by apply length_zero_iff_nil.
  - intros Hlen. apply Hne. apply length_zero_iff_nil in Hlen. by rewrite Hlen.
Qed.

(** X8. An empty answer of the generative service is no error for the
    enhancement, and the batch publishes it: without choice, without
    message or with an empty content, [enhanceArticle] returns the empty
    content under the title ["Enhanced: "] followed by the original
    title; and when the competitors were read, the key is usable, the
    citations are built and the POST succeeds, [processArticle] counts
    the item as a success and adds a row under that title whose content
    is the citation block alone. *)
Theorem empty_completion_is_accepted (rt : Runtime) (env : Env) (w : ItemWorld)
        (article : Article) (index total : nat) (store : Store)
        (choices : list Choice) (citationHtml : string)
        (competitors : list Competitor)
        (Hcompetitors :
           competitors
           = scrapeMultipleArticles (w_scrape w)
               (searchRelatedArticles rt (SERP_API_KEY env) (w_serp w) (w_ddg w)
                  COMPETITOR_COUNT) /\ competitors <> [])
        (Hkey : initializeClient (GROQ_API_KEY env) = Returns tt)
        (Hanswer : w_enhance w (enhancePrompt article competitors) = Resolves choices)
        (Hempty : firstContent choices = None \/ firstContent choices = Some EmptyString)
        (Hcitations : generateCitations rt competitors = Returns citationHtml)
        (Hpost : forall payload, w_publishFails w payload = None) :
  enhanceArticle (GROQ_API_KEY env) (w_enhance w) article competitors
  = Returns {| en_content := ""; en_title := "Enhanced: " +:+ a_title article |} /\
  exists score row,
    processArticle rt env w article index total store
    = (Success None score, store ++ [row]) /\
    row_status row = "updated"%string /\
    a_title (row_article row) = ("Enhanced: " +:+ a_title article)%string /\
    a_content (row_article row) = citationHtml.
Proof.
  assert (Henhanced :
            enhanceArticle (GROQ_API_KEY env) (w_enhance w) article competitors
            = Returns {| en_content := "";
                         en_title := "Enhanced: " +:+ a_title article |}).
  { unfold enhanceArticle. rewrite Hkey. outcome_step. rewrite Hanswer.
    by destruct Hempty as [-> | ->]. }
  split; [exact Henhanced|].
  destruct Hcompetitors as [-> Hne].
  rewrite (processArticle_with_input rt env w article index total store Hne).
  set (competitors := scrapeMultipleArticles _ _) in *.
  destruct (performGapAnalysis_returns rt (GROQ_API_KEY env) (w_gap w) article
              competitors Hkey) as [gap Hgap].
  rewrite Hgap. outcome_step. rewrite Henhanced. outcome_step.
  rewrite Hcitations. outcome_step.
  unfold publishArticle. rewrite Hpost. outcome_step.
  eexists _, _. split; [reflexivity|]. repeat split.
Qed.

(** The theorem at an item whose enhancement call answers without
    choice. *)
Lemma empty_completion_is_accepted_witness :
  enhanceArticle (Some "gsk_live") (w_enhance MoreSamples.emptyAnswerItem)
    (MoreSamples.articleWith "<p>Chatbots help.</p>")
    (scrapeMultipleArticles (w_scrape MoreSamples.emptyAnswerItem)
       (searchRelatedArticles Samples.runtime (Some "serp_live")
          (w_serp MoreSamples.emptyAnswerItem) (w_ddg MoreSamples.emptyAnswerItem) 2))
  = Returns {| en_content := ""; en_title := "Enhanced: Chatbot Benefits" |} /\
  exists score row,
    processArticle Samples.runtime Samples.env MoreSamples.emptyAnswerItem
      (MoreSamples.articleWith "<p>Chatbots help.</p>") 0 1 []
    = (Success None score, [row]) /\
    a_title (row_article row) = "Enhanced: Chatbot Benefits"%string.
Proof.
  edestruct (empty_completion_is_accepted Samples.runtime Samples.env
               MoreSamples.emptyAnswerItem
               (MoreSamples.articleWith "<p>Chatbots help.</p>") 0 1 [] [])
    as (Henhanced & score & row & Hitem & _ & Htitle & _).
  - split; [reflexivity | vm_compute; discriminate].
  - reflexivity.
  - reflexivity.
  - by left.
  - vm_compute. reflexivity.
  - reflexivity.
  - split; [exact Henhanced|]. exists score, row. split; [exact Hitem | exact Htitle].
Defined.

(** X10. An outage of the generative service during the gap analysis
    does not fail the item: with readable competitors and a usable key,
    when the call of the gap analysis is rejected and the later stages
    succeed, the article is published with the default analysis, which
    carries the message of the rejection, and the item succeeds with the
    score 0.  The [articleId] of the result is [undefined]: it is read
    on the body of the answer, and the row created, which has the next
    identifier of the store, lies under [data] there. *)
Theorem gap_outage_still_publishes (rt : Runtime) (env : Env) (w : ItemWorld)
        (article : Article) (index total : nat) (store : Store)
        (message citationHtml : string) (enhanced : Enhanced)
        (competitors : list Competitor)
        (Hcompetitors :
           competitors
           = scrapeMultipleArticles (w_scrape w)
               (searchRelatedArticles rt (SERP_API_KEY env) (w_serp w) (w_ddg w)
                  COMPETITOR_COUNT) /\ competitors <> [])
        (Hkey : initializeClient (GROQ_API_KEY env) = Returns tt)
        (Houtage : w_gap w (gapPrompt article competitors) = Rejects message)
        (Henhanced : enhanceArticle (GROQ_API_KEY env) (w_enhance w) article competitors
                     = Returns enhanced)
        (Hcitations : generateCitations rt competitors = Returns citationHtml)
        (Hpublish : w_publishFails w
                      (buildPayload article enhanced citationHtml
                         (defaultAnalysis message) competitors) = None) :
  exists row,
    processArticle rt env w article index total store
    = (Success None (JNum false 0 0), store ++ [row]) /\
    row_status row = "updated"%string /\
    a_id (row_article row) = nextId store /\
    a_content (row_article row) = (en_content enhanced +:+ citationHtml)%string.
Proof.
  destruct Hcompetitors as [-> Hne].
  rewrite (processArticle_with_input rt env w article index total store Hne).
  unfold performGapAnalysis. rewrite Hkey. outcome_step. rewrite Houtage. outcome_step.
  rewrite Henhanced. outcome_step. rewrite Hcitations. outcome_step.
  unfold publishArticle. rewrite Hpublish. outcome_step.
  eexists. split; [reflexivity|]. repeat split.
Qed.

(** The theorem at an item whose gap analysis is rejected. *)
Lemma gap_outage_still_publishes_witness :
  exists row,
    processArticle Samples.runtime Samples.env MoreSamples.gapDownItem
      (MoreSamples.articleWith "<p>Chatbots help.</p>") 0 1 []
    = (Success None (JNum false 0 0), [row]) /\
    row_status row = "updated"%string /\
    a_id (row_article row) = 1.
Proof.
  edestruct (gap_outage_still_publishes Samples.runtime Samples.env
               MoreSamples.gapDownItem
               (MoreSamples.articleWith "<p>Chatbots help.</p>") 0 1 []
               "429 rate limit")
    as (row & Hrow & Hstatus & Hid & _).
  - split; [reflexivity | vm_compute; discriminate].
  - reflexivity.
  - reflexivity.
  - vm_compute. reflexivity.
  - vm_compute. reflexivity.
  - reflexivity.
  - exists row. split; [exact Hrow|]. split; [exact Hstatus | exact Hid].
Defined.

(** X11. Failures after the gap analysis publish nothing and give their
    message as the reason of the item: the rejection of the enhancement
    call, and the failure of the POST, which comes after both calls of
    the generative service. *)
Theorem late_failures_publish_nothing (rt : Runtime) (env : Env) (w : ItemWorld)
        (article : Article) (index total : nat) (store : Store)
        (competitors : list Competitor)
        (Hcompetitors :
           competitors
           = scrapeMultipleArticles (w_scrape w)
               (searchRelatedArticles rt (SERP_API_KEY env) (w_serp w) (w_ddg w)
                  COMPETITOR_COUNT) /\ competitors <> [])
        (Hkey : initializeClient (GROQ_API_KEY env) = Returns tt) :
  (forall message,
      w_enhance w (enhancePrompt article competitors) = Rejects message ->
      processArticle rt env w article index total store = (Failure message, store)) /\
  (forall enhanced gapAnalysis citationHtml message,
      performGapAnalysis rt (GROQ_API_KEY env) (w_gap w) article competitors
      = Returns gapAnalysis ->
      enhanceArticle (GROQ_API_KEY env) (w_enhance w) article competitors
      = Returns enhanced ->
      generateCitations rt competitors = Returns citationHtml ->
      w_publishFails w (buildPayload article enhanced citationHtml gapAnalysis competitors)
      = Some message ->
      processArticle rt env w article index total store = (Failure message, store)).
Proof.
  destruct Hcompetitors as [-> Hne].
  rewrite (processArticle_with_input rt env w article index total store Hne).
  set (competitors := scrapeMultipleArticles _ _) in *.
  destruct (performGapAnalysis_returns rt (GROQ_API_KEY env) (w_gap w) article
              competitors Hkey) as [gap Hgap].
  rewrite Hgap. outcome_step. split.
  - intros message Hreject. unfold enhanceArticle. rewrite Hkey. outcome_step.
    by rewrite Hreject.
  - intros enhanced gap' citationHtml message [= <-] Henh Hcit Hpub.
    rewrite Henh. outcome_step. rewrite Hcit. outcome_step.
    unfold publishArticle. by rewrite Hpub.
Qed.

(** The theorem at an item whose enhancement call is rejected, and at
    one whose POST is refused. *)
Lemma late_failures_publish_nothing_witness :
  processArticle Samples.runtime Samples.env MoreSamples.enhanceDownItem
    (MoreSamples.articleWith "<p>Chatbots help.</p>") 0 1 []
  = (Failure "429 rate limit", []) /\
  processArticle Samples.runtime Samples.env MoreSamples.postDownItem
    (MoreSamples.articleWith "<p>Chatbots help.</p>") 0 1 []
  = (Failure "Request failed with status code 500", []).
Proof.
  split.
  - refine (proj1 (late_failures_publish_nothing Samples.runtime Samples.env
                     MoreSamples.enhanceDownItem
                     (MoreSamples.articleWith "<p>Chatbots help.</p>") 0 1 [] _
                     (conj eq_refl _) eq_refl) "429 rate limit" _).
    + vm_compute. discriminate.
    + reflexivity.
  - refine (proj2 (late_failures_publish_nothing Samples.runtime Samples.env
                     MoreSamples.postDownItem
                     (MoreSamples.articleWith "<p>Chatbots help.</p>") 0 1 [] _
                     (conj eq_refl _) eq_refl) _ _ _ _ _ _ _ _).
    + vm_compute. discriminate.
    + vm_compute. reflexivity.
    + vm_compute. reflexivity.
    + vm_compute. reflexivity.
    + reflexivity.
Defined.

(** X12. What a success publishes: one row, under the next identifier of
    the store and the status "updated", whose title is that of the
    enhancement, whose content is the enhanced content followed by the
    citation block, and whose excerpt, author, date, image and original
    URL are those of the source article.  The [articleId] that the
    result reports is not that identifier: it is [undefined], being read
    on the body of the answer and not on the row under [data]. *)
Theorem success_publishes_one_row (rt : Runtime) (env : Env) (w : ItemWorld)
        (article : Article) (index total : nat) (store store' : Store)
        (articleId : option N) (score : JValue)
        (Hsuccess : processArticle rt env w article index total store
                    = (Success articleId score, store')) :
  let competitors :=
    scrapeMultipleArticles (w_scrape w)
      (searchRelatedArticles rt (SERP_API_KEY env) (w_serp w) (w_ddg w) COMPETITOR_COUNT) in
  exists enhanced citationHtml,
    enhanceArticle (GROQ_API_KEY env) (w_enhance w) article competitors = Returns enhanced /\
    generateCitations rt competitors = Returns citationHtml /\
    competitors <> [] /\
    articleId = None /\
    store' = store ++ [{| row_article :=
                            {| a_id := nextId store;
                               a_title := en_title enhanced;
                               a_content := en_content enhanced +:+ citationHtml;
                               a_excerpt := a_excerpt article;
                               a_author := a_author article;
                               a_published_at := a_published_at article;
                               a_featured_image := a_featured_image article;
                               a_original_url := a_original_url article |};
                          row_status := "updated" |}].
Proof.
  intros competitors. revert Hsuccess. unfold processArticle, processArticleTry.
  fold competitors.
  destruct (bool_decide (length (searchRelatedArticles _ _ _ _ _) = 0%nat));
    [outcome_step; done|].
  destruct (bool_decide (length competitors = 0%nat)) eqn:Hlen;
    [outcome_step; done|].
  destruct (performGapAnalysis _ _ _ _ _) as [gap|e]; outcome_step; [|done].
  destruct (enhanceArticle _ _ _ _) as [enhanced|e]; outcome_step; [|done].
  destruct (generateCitations _ _) as [citationHtml|e]; outcome_step; [|done].
  unfold publishArticle.
  destruct (w_publishFails _ _) as [e|]; outcome_step; [done|].
  intros [= <- _ <-]. exists enhanced, citationHtml.
  repeat split; try reflexivity.
  intros Hnil. rewrite Hnil in Hlen. done.
Qed.

(** The theorem at the sample item for which every stage answers. *)
Lemma success_publishes_one_row_witness :
  exists enhanced citationHtml,
    enhanceArticle (Some "gsk_live") (w_enhance (Samples.goodItem "{}"))
      (MoreSamples.articleWith "<p>Chatbots help.</p>")
      (scrapeMultipleArticles (w_scrape (Samples.goodItem "{}"))
         (searchRelatedArticles Samples.runtime (Some "serp_live")
            (w_serp (Samples.goodItem "{}")) (w_ddg (Samples.goodItem "{}")) 2))
    = Returns enhanced /\
    en_title enhanced = "Chatbot Benefits"%string /\
    fst (processArticle Samples.runtime Samples.env (Samples.goodItem "{}")
           (MoreSamples.articleWith "<p>Chatbots help.</p>") 0 1 [])
    = Success None (JNum false 5 0) /\
    snd (processArticle Samples.runtime Samples.env (Samples.goodItem "{}")
           (MoreSamples.articleWith "<p>Chatbots help.</p>") 0 1 [])
    = [{| row_article :=
            {| a_id := 1;
               a_title := en_title enhanced;
               a_content := en_content enhanced +:+ citationHtml;
               a_excerpt := Some "Why chatbots";
               a_author := Some "Ann";
               a_published_at := Some "2024-01-05T10:00:00Z";
               a_featured_image := Some "https://b.example/1.png";
               a_original_url := Some "https://b.example/1" |};
          row_status := "updated" |}].
Proof.
  destruct (processArticle Samples.runtime Samples.env (Samples.goodItem "{}")
              (MoreSamples.articleWith "<p>Chatbots help.</p>") 0 1 [])
    as [result store'] eqn:Hitem.
  assert (Hresult : result = Success None (JNum false 5 0)).
  { vm_compute in Hitem. by injection Hitem as <- _. }
  subst result.
  destruct (success_publishes_one_row _ _ _ _ _ _ _ _ _ _ Hitem)
    as (enhanced & citationHtml & Henh & _ & _ & _ & Hstore).
  exists enhanced, citationHtml. split; [exact Henh|]. split.
  - vm_compute in Henh. by injection Henh as <-.
  - split; [reflexivity | exact Hstore].
Defined.

End ItemMore.

(** ** The run: what it adds to the store and what it reports *)

Section RunMore.
Import GoogleSearcher ContentScraper LlmEnhancer Store ProcessAll Report.

Lemma failureReasons_app (xs ys : list (Article * ProcessResult)) :
  failureReasons (xs ++ ys) = failureReasons xs ++ failureReasons ys.
Proof. unfold failureReasons. apply omap_app. Qed.

(** The rows that the loop adds are as many as the successes it counts. *)
Lemma Iterates_rows (rt : Runtime) (env : Env) (w : World)
      (articles : list Article) (total i : nat) (todo : list Article) (run final : Run) :
  Iterates rt env w articles total i todo run final ->
  exists added,
    store final = store run ++ added /\
    Forall (fun row => row_status row = "updated"%string) added /\
    success (results final) = (success (results run) + length added)%nat.
Proof.
  induction 1 as [i run
                 | i item rest run result store' r' Hitem Hcount Hcap
                 | i item rest run final result store' r' Hitem Hcount Hcap Hrest IH].
  - exists []. rewrite app_nil_r. cbn. repeat split; [constructor | lia].
  - apply processArticle_store in Hitem. apply countResult_counts in Hcount as (Hs & _).
    cbn [store results]. destruct result as [id score | reason]; cbn in Hs.
    + destruct Hitem as (row & -> & Hstatus & _). exists [row].
      repeat split; [by constructor | cbn; lia].
    + subst store'. exists []. rewrite app_nil_r.
      repeat split; [constructor | cbn; lia].
  - destruct IH as (added & Hstore & Hupdated & Hsuccess).
    cbn [store results] in Hstore, Hsuccess.
    apply processArticle_store in Hitem. apply countResult_counts in Hcount as (Hs & _).
    destruct result as [id score | reason]; cbn in Hs.
    + destruct Hitem as (row & -> & Hstatus & _). exists (row :: added).
      rewrite Hstore, <- app_assoc. repeat split; [by constructor | cbn; lia].
    + subst store'. exists added. repeat split; [done | done | lia].
Qed.

(** The failure list grows by one entry per failed call, in the order of
    the calls. *)
Lemma Iterates_errors (rt : Runtime) (env : Env) (w : World)
      (articles : list Article) (total i : nat) (todo : list Article) (run final : Run) :
  Iterates rt env w articles total i todo run final ->
  exists calls entries,
    attempted final = attempted run ++ calls /\
    errors (results final) = errors (results run) ++ entries /\
    map err_reason entries = failureReasons calls /\
    failed (results final) = (failed (results run) + length entries)%nat.
Proof.
  assert (Hstep : forall i r r' result,
             countResult articles i r result = Returns r' ->
             exists entries,
               errors r' = errors r ++ entries /\
               (forall item, map err_reason entries = failureReasons [(item, result)]) /\
               failed r' = (failed r + length entries)%nat).
  { intros j r r' [id score | reason]; cbn [countResult].
    - intros [= <-]. exists []. cbn. rewrite app_nil_r. repeat split; lia.
    - destruct (articles !! j) as [a|]; [|done]. intros [= <-].
      eexists [_]. cbn. repeat split; lia. }
  induction 1 as [i run
                 | i item rest run result store' r' Hitem Hcount Hcap
                 | i item rest run final result store' r' Hitem Hcount Hcap Hrest IH].
  - exists [], []. rewrite !app_nil_r. cbn. repeat split; lia.
  - apply Hstep in Hcount as (entries & He & Hr & Hf).
    exists [(item, result)], entries. cbn [attempted results].
    repeat split; done.
  - destruct IH as (calls & entries' & Hatt & Herr & Hreasons & Hfailed).
    cbn [attempted results] in Hatt, Herr, Hfailed.
    apply Hstep in Hcount as (entries & He & Hr & Hf).
    exists ((item, result) :: calls), (entries ++ entries').
    rewrite Hatt, Herr, He, <- !app_assoc, map_app, length_app.
    change ((item, result) :: calls) with ([(item, result)] ++ calls).
    rewrite failureReasons_app, <- (Hr item), Hreasons.
    repeat split; lia.
Qed.

(** X13. A run that could list the original articles always returns its
    summary.  It only appends to the store: the rows it adds all have
    the status "updated", are as many as the successes it counts, and
    are at most ten; the original articles listed after the run are
    those listed before it. *)
Theorem run_appends_at_most_ten_rows (rt : Runtime) (env : Env) (w : World)
        (before : Store)
        (Hlisted : w_originalsFail w = None) :
  exists run added,
    main rt env w before = Returns run /\
    store run = before ++ added /\
    Forall (fun row => row_status row = "updated"%string) added /\
    length added = success (results run) /\
    (length added <= 10)%nat /\
    listArticles "original" (store run) = listArticles "original" before.
Proof.
  destruct (main_returns rt env w before Hlisted) as [run Hrun].
  pose proof (main_Iterates rt env w before run Hrun) as Hloop. cbn zeta in Hloop.
  pose proof (Iterates_cap_bound _ _ _ _ _ _ _ _ _ Hloop) as Hbound.
  apply Iterates_rows in Hloop as (added & Hstore & Hupdated & Hsuccess).
  cbn [initialRun store results success] in *.
  exists run, added. repeat split; [done | done | done | lia | | ].
  - specialize (Hbound ltac:(lia)). lia.
  - rewrite Hstore, listArticles_app, (listArticles_original_added added Hupdated).
    apply app_nil_r.
Qed.

(** The theorem at a store with two original articles, for both of which
    every stage answers. *)
Lemma run_appends_at_most_ten_rows_witness :
  exists run added,
    main Samples.runtime Samples.env (Samples.world (Samples.goodItem "{}"))
      MoreSamples.twoOriginals
    = Returns run /\
    store run = MoreSamples.twoOriginals ++ added /\
    length added = success (results run).
Proof.
  destruct (run_appends_at_most_ten_rows Samples.runtime Samples.env
              (Samples.world (Samples.goodItem "{}")) MoreSamples.twoOriginals eq_refl)
    as (run & added & Hrun & Hstore & _ & Hlen & _).
  exists run, added. split; [exact Hrun|]. split; [exact Hstore | exact Hlen].
Defined.

(** X14. The failure list of a completed run has one entry for each call
    of [processArticle] that failed, in the order of the calls, with the
    reason that the call returned; its length is the number of failures
    counted. *)
Theorem failure_list_follows_calls (rt : Runtime) (env : Env) (w : World)
        (before : Store) (run : Run)
        (Hcompleted : main rt env w before = Returns run) :
  map err_reason (errors (results run)) = failureReasons (attempted run) /\
  length (errors (results run)) = failed (results run).
Proof.
  apply main_Iterates in Hcompleted. cbn zeta in Hcompleted.
  apply Iterates_errors in Hcompleted as (calls & entries & Hatt & Herr & Hreasons & Hfailed).
  cbn [initialRun attempted results errors failed] in *.
  rewrite app_nil_l in Hatt, Herr. subst calls. rewrite Herr.
  split; [done | lia].
Qed.

(** The theorem at a run over two original articles: no competitor is
    found for the first, the page of the competitor of the second cannot
    be read. *)
Lemma failure_list_follows_calls_witness :
  exists run,
    main Samples.runtime Samples.env MoreSamples.failingWorld MoreSamples.twoOriginals
    = Returns run /\
    map err_reason (errors (results run))
    = ["No competitors found"; "Scraping failed"]%string /\
    length (errors (results run)) = failed (results run).
Proof.
  eexists. split; [vm_compute; reflexivity|].
  refine (failure_list_follows_calls Samples.runtime Samples.env
            MoreSamples.failingWorld MoreSamples.twoOriginals _ _).
  vm_compute. reflexivity.
Defined.

(** X15. The duplicate check leaves an article out only for a reason: an
    original article is left out only when the listing of the derived
    articles succeeded, its original URL is not empty, and a derived
    article of the store has that original URL. *)
Theorem left_out_only_when_derived (w : World) (before : Store) (a : Article)
        (Hleft : a ∈ skippedArticles (alreadyEnhanced w before)
                       (listArticles "original" before)) :
  w_updatedFail w = None /\
  JS.truthy (a_original_url a) = true /\
  exists d, d ∈ listArticles "updated" before /\
            a_original_url d = a_original_url a.
Proof.
  apply list_elem_of_In, filter_In in Hleft as [_ Hhas].
  split; [|split].
  - unfold alreadyEnhanced in Hhas. destruct (w_updatedFail w); [|done].
    destruct (a_original_url a); cbn in Hhas; [|done].
    apply bool_decide_eq_true in Hhas. by apply elem_of_empty in Hhas.
  - unfold alreadyEnhanced in Hhas. destruct (w_updatedFail w).
    + destruct (a_original_url a); cbn in Hhas; [|done].
      apply bool_decide_eq_true in Hhas. by apply elem_of_empty in Hhas.
    + destruct (a_original_url a) as [u|] eqn:Hu; cbn [has] in Hhas; [|done].
      apply bool_decide_eq_true, elem_of_collectUrls in Hhas as (d & _ & _ & Hne).
      by apply truthy_Some.
  - exact (has_alreadyEnhanced_inv w before a Hhas).
Qed.

(** The theorem at a store with an original article and its derived
    article. *)
Lemma left_out_only_when_derived_witness :
  exists d,
    d ∈ listArticles "updated" MoreSamples.enhancedOnce /\
    a_original_url d = Some "https://b.example/1"%string.
Proof.
  refine (proj2 (proj2 (left_out_only_when_derived
                          (Samples.world (Samples.goodItem "{}"))
                          MoreSamples.enhancedOnce
                          (Samples.article 1 "Chatbot Benefits"
                             (Some "https://b.example/1")) _))).
  vm_compute. left.
Defined.

End RunMore.

(** ** The competitors: reading and cleaning *)

Section ScraperMore.
Import JS GoogleSearcher ContentScraper ContentCleaning TextShape Reading.

Lemma substring_from_0 (s : string) (n : N) : substring s 0 n = takeN n s.
Proof. unfold substring. by rewrite N.min_0_l, N.max_0_l, N.sub_0_r. Qed.

Lemma isSpace_line_feed (a : ascii) : (N_of_ascii a =? 10) = true -> isSpace a = true.
Proof. intros H. apply N.eqb_eq in H. unfold isSpace. cbn zeta. by rewrite H. Qed.

Lemma normalizeBreaks_of_normal (s : string) (afterSpace : bool) :
  normalSpaces afterSpace s = true -> normalizeBreaks 0 s = s.
Proof.
  revert afterSpace. induction s as [|a s IH]; intros afterSpace; [done|].
  cbn [normalSpaces normalizeBreaks]. destruct (isSpace a) eqn:Hsp.
  - rewrite !andb_true_iff. intros [[_ Ha] Hs]. apply Ascii.eqb_eq in Ha as ->.
    change (N_of_ascii " " =? 10) with false. cbv iota. by rewrite (IH true Hs).
  - intros Hs. destruct (N_of_ascii a =? 10) eqn:Hlf.
    + apply isSpace_line_feed in Hlf. congruence.
    + by rewrite (IH false Hs).
Qed.

Lemma normalSpaces_no_line_feed (s : string) (afterSpace : bool) :
  normalSpaces afterSpace s = true -> includes s newline = false.
Proof.
  revert afterSpace. induction s as [|a s IH]; intros afterSpace; [done|].
  unfold newline. rewrite includes_unit. fold newline. cbn [normalSpaces].
  destruct (isSpace a) eqn:Hsp.
  - rewrite !andb_true_iff. intros [[_ Ha] Hs]. apply Ascii.eqb_eq in Ha as ->.
    by rewrite (IH true Hs).
  - intros Hs. rewrite (IH false Hs), orb_false_r.
    destruct (Ascii.eqb_spec (ascii_of_N 10) a) as [<-|]; [|done].
    by vm_compute in Hsp.
Qed.

Lemma takeN_normal (n : N) (s : string) (afterSpace : bool) :
  normalSpaces afterSpace s = true -> normalSpaces afterSpace (takeN n s) = true.
Proof.
  revert n afterSpace. induction s as [|a s IH]; intros n afterSpace; [done|].
  cbn [takeN]. destruct (n =? 0); [done|]. cbn [normalSpaces].
  destruct (isSpace a).
  - rewrite !andb_true_iff. intros [H Hs]. split; [done | by apply IH].
  - apply IH.
Qed.

Lemma takeN_headOk (n : N) (s : string) : headOk s = true -> headOk (takeN n s) = true.
Proof. destruct s as [|a s]; [done|]. cbn [takeN]. by destruct (n =? 0). Qed.

Lemma takeN_strlen (n : N) (s : string) : strlen (takeN n s) <= n.
Proof.
  unfold strlen. revert n. induction s as [|a s IH]; intros n; cbn [takeN].
  - cbn. lia.
  - destruct (n =? 0) eqn:Hn; [cbn; lia|]. apply N.eqb_neq in Hn.
    cbn [String.length]. specialize (IH (N.pred n)). lia.
Qed.

(** X16. The text that [cleanText] returns is one line: the replacement
    of the paragraph breaks, which follows the collapse of all white
    space into single spaces, never finds a match, so [cleanText] is the
    collapse, the trim and the cut alone; the result has no line feed,
    its only white space is single spaces, it does not begin with one,
    and it has at most 10000 code units. *)
Theorem cleanText_is_one_line (text : string) :
  cleanText text = substring (trim (collapseSpaces false text)) 0 10000 /\
  includes (cleanText text) newline = false /\
  normalSpaces false (cleanText text) = true /\
  headOk (cleanText text) = true /\
  strlen (cleanText text) <= 10000.
Proof.
  assert (Hsame : cleanText text = takeN 10000 (trim (collapseSpaces false text))).
  { unfold cleanText.
    by rewrite (normalizeBreaks_of_normal _ false (collapseSpaces_normal text false)),
         substring_from_0. }
  assert (Hnormal : normalSpaces false (cleanText text) = true).
  { rewrite Hsame. apply takeN_normal. unfold trim.
    apply trimEnd_normal, (trimStart_normal _ false), collapseSpaces_normal. }
  rewrite substring_from_0. repeat split.
  - exact Hsame.
  - exact (normalSpaces_no_line_feed _ _ Hnormal).
  - exact Hnormal.
  - rewrite Hsame. apply takeN_headOk. unfold trim. apply trimEnd_headOk, trimStart_headOk.
  - rewrite Hsame. apply takeN_strlen.
Qed.



End ScraperMore.

(** ** The citation block *)

Section CitationsMore.
Import JS GoogleSearcher ContentScraper LlmEnhancer Store ProcessAll.

(** X18. The citation block carries the fields of every competitor as
    they are, without escaping: when [generateCitations] returns, the
    URL and the title of each competitor and the host name of its URL
    occur in the block. *)
Theorem citations_carry_fields_verbatim (rt : Runtime) (competitors : list Competitor)
        (html : string)
        (Hblock : generateCitations rt competitors = Returns html) :
  forall c, c ∈ competitors ->
    includes html (c_url c) = true /\
    includes html (c_title c) = true /\
    exists hostname, URL_hostname rt (c_url c) = Some hostname /\
                     includes html hostname = true.
Proof.
  intros c Hc. destruct competitors as [|first rest]; [by apply elem_of_nil in Hc|].
  cbn [generateCitations] in Hblock.
  destruct (mapOutcome (citationCard rt) (first :: rest)) as [cards|e] eqn:Hcards;
    cbn [mbind mret Outcome_bind Outcome_ret bindO] in Hblock; [|done].
  injection Hblock as <-.
  apply mapOutcome_Forall2 in Hcards.
  apply list_elem_of_lookup in Hc as [i Hi].
  destruct (Forall2_lookup_l _ _ _ _ _ Hcards Hi) as (card & Hcard & Hreturns).
  apply citationCard_includes in Hreturns as (Hurl & Htitle & hostname & Hhost & Hname).
  assert (Hin : card ∈ cards) by (by eapply list_elem_of_lookup_2).
  assert (Hsection : forall p, includes card p = true ->
                               includes (citationSection (join newline cards)
                                           (c_url first)) p = true).
  { intros p Hp. unfold citationSection.
    do 13 apply includes_app_r. apply includes_app_l.
    by apply (includes_join newline cards card). }
  repeat split; [by apply Hsection | by apply Hsection |].
  exists hostname. split; [done | by apply Hsection].
Qed.

(** The theorem at two competitors; the title of the second is a piece
    of markup. *)
Lemma citations_carry_fields_verbatim_witness :
  exists html,
    generateCitations Samples.runtime
      [Samples.competitor "https://www.tidio.com/blog/chatbots";
       MoreSamples.markupCompetitor]
    = Returns html /\
    includes html "<script>alert(1)</script>" = true.
Proof.
  eexists. split; [vm_compute; reflexivity|].
  refine (proj1 (proj2 (citations_carry_fields_verbatim Samples.runtime
            [Samples.competitor "https://www.tidio.com/blog/chatbots";
             MoreSamples.markupCompetitor]
            _ _ MoreSamples.markupCompetitor _))).
  - vm_compute. reflexivity.
  - right. left.
Defined.

End CitationsMore.

(** ** index.js: the script for one article *)

Section SingleMore.
Import GoogleSearcher ContentScraper LlmEnhancer Store ProcessAll.

Ltac single_step :=
  cbn [mbind mret Outcome_bind Outcome_ret bindO tryCatch] in *.

(** X19. The two scripts disagree on an article for which discovery
    finds nothing.  The script for one article goes on: with a usable
    key, an answer of the enhancement call and a POST that succeeds, it
    publishes the article, with the enhanced content alone as its
    content, no citation block being added.  The batch fails the same
    item with the reason "No competitors found" and publishes
    nothing. *)
Theorem single_script_publishes_without_competitors (rt : Runtime) (env : Env)
        (w : SingleArticle.World) (store : Store) (article : Article)
        (enhanced : Enhanced)
        (Hlatest : SingleArticle.w_latest w = Returns article)
        (Hnothing : searchRelatedArticles rt (SERP_API_KEY env)
                      (w_serp (SingleArticle.w_stages w))
                      (w_ddg (SingleArticle.w_stages w)) COMPETITOR_COUNT = [])
        (Hkey : initializeClient (GROQ_API_KEY env) = Returns tt)
        (Henhanced : enhanceArticle (GROQ_API_KEY env)
                       (w_enhance (SingleArticle.w_stages w)) article []
                     = Returns enhanced)
        (Hpost : forall payload,
                   w_publishFails (SingleArticle.w_stages w) payload = None) :
  (exists row,
      SingleArticle.main rt env w store
      = (SingleArticle.Published (nextId store), store ++ [row]) /\
      row_status row = "updated"%string /\
      a_title (row_article row) = en_title enhanced /\
      a_content (row_article row) = en_content enhanced /\
      a_original_url (row_article row) = a_original_url article) /\
  forall index total,
    processArticle rt env (SingleArticle.w_stages w) article index total store
    = (Failure "No competitors found", store).
Proof.
  split.
  - unfold SingleArticle.main, SingleArticle.mainTry.
    rewrite Hlatest. single_step. rewrite Hnothing.
    change (scrapeMultipleArticles _ []) with (@nil Competitor).
    destruct (performGapAnalysis_returns rt (GROQ_API_KEY env)
                (w_gap (SingleArticle.w_stages w)) article [] Hkey) as [gap Hgap].
    rewrite Hgap. single_step. rewrite Henhanced. single_step.
    cbn [generateCitations]. single_step.
    unfold SingleArticle.publishArticle, publishArticle. rewrite Hpost. single_step.
    eexists. split; [reflexivity|].
    cbn [row_status row_article a_title a_content a_original_url buildPayload
         p_status p_title p_content p_original_url].
    repeat split. apply append_empty_r.
  - intros index total.
    exact (proj1 (processArticle_no_input rt env (SingleArticle.w_stages w)
                    article index total store) Hnothing).
Qed.

(** The theorem at a world in which discovery finds nothing. *)
Lemma single_script_publishes_without_competitors_witness :
  (exists row,
      SingleArticle.main Samples.runtime Samples.env
        {| SingleArticle.w_latest :=
             Returns (MoreSamples.articleWith "<p>Chatbots help.</p>");
           SingleArticle.w_stages := Samples.noCompetitorItem |} []
      = (SingleArticle.Published 1, [row]) /\
      a_content (row_article row) = "<p>Chatbots help.</p>"%string) /\
  processArticle Samples.runtime Samples.env Samples.noCompetitorItem
    (MoreSamples.articleWith "<p>Chatbots help.</p>") 0 1 []
  = (Failure "No competitors found", []).
Proof.
  destruct (single_script_publishes_without_competitors Samples.runtime Samples.env
              {| SingleArticle.w_latest :=
                   Returns (MoreSamples.articleWith "<p>Chatbots help.</p>");
                 SingleArticle.w_stages := Samples.noCompetitorItem |} []
              (MoreSamples.articleWith "<p>Chatbots help.</p>")
              {| en_content := "<p>Chatbots help.</p>";
                 en_title := "Enhanced: Chatbot Benefits" |}
              eq_refl eq_refl eq_refl eq_refl (fun _ => eq_refl))
    as [(row & Hmain & _ & _ & Hcontent & _) Hbatch].
  split; [exists row; split; [exact Hmain | exact Hcontent] | exact (Hbatch 0%nat 1%nat)].
Defined.

(** X20. For the script of one article a missing credential is fatal:
    when the key of the generative service is unset or is the
    placeholder, the script ends with the exit code 1 and publishes
    nothing, whatever the network answers. *)
Theorem single_script_needs_credential (rt : Runtime) (env : Env)
        (w : SingleArticle.World) (store : Store)
        (Hkey : GROQ_API_KEY env = None \/
                GROQ_API_KEY env = Some "your_groq_api_key_here"%string) :
  SingleArticle.main rt env w store = (SingleArticle.Exit 1, store).
Proof.
  apply initializeClient_unusable in Hkey.
  unfold SingleArticle.main, SingleArticle.mainTry.
  destruct (SingleArticle.w_latest w) as [article|e]; single_step; [|done].
  unfold performGapAnalysis. rewrite Hkey. by single_step.
Qed.

(** The theorem at an environment without key, every stage being ready
    to answer. *)
Lemma single_script_needs_credential_witness :
  SingleArticle.main Samples.runtime Samples.envNoGroqKey
    {| SingleArticle.w_latest :=
         Returns (MoreSamples.articleWith "<p>Chatbots help.</p>");
       SingleArticle.w_stages := Samples.goodItem "{}" |} []
  = (SingleArticle.Exit 1, []).
Proof.
  exact (single_script_needs_credential Samples.runtime Samples.envNoGroqKey
           {| SingleArticle.w_latest :=
                Returns (MoreSamples.articleWith "<p>Chatbots help.</p>");
              SingleArticle.w_stages := Samples.goodItem "{}" |} []
           (or_introl eq_refl)).
Defined.

(** X21. However the script for one article ends, the store is sound:
    after an exit the code is 1 and the store is as it was; after a
    publication the store has one row more, with the status "updated",
    under the identifier that the script returns. *)
Theorem single_script_outcomes (rt : Runtime) (env : Env)
        (w : SingleArticle.World) (store : Store) :
  match SingleArticle.main rt env w store with
  | (SingleArticle.Exit code, store') => code = 1%nat /\ store' = store
  | (SingleArticle.Published id, store') =>
      id = nextId store /\
      exists row, store' = store ++ [row] /\
                  row_status row = "updated"%string /\
                  a_id (row_article row) = id
  end.
Proof.
  unfold SingleArticle.main, SingleArticle.mainTry.
  destruct (SingleArticle.w_latest w) as [article|e]; single_step; [|done].
  destruct (performGapAnalysis _ _ _ _ _) as [gap|e]; single_step; [|done].
  destruct (enhanceArticle _ _ _ _) as [enhanced|e]; single_step; [|done].
  destruct (generateCitations _ _) as [citationHtml|e]; single_step; [|done].
  unfold SingleArticle.publishArticle, publishArticle.
  destruct (w_publishFails _ _) as [e|]; single_step; [done|].
  split; [done|]. eexists. split; [reflexivity|]. by split.
Qed.

End SingleMore.

(** ** pages/HomePage.jsx: the pages and the page bar *)

Section Pagination.
Import HomePage.
Local Open Scope nat_scope.

Lemma totalPages_bounds (count : nat) :
  count <= totalPages count * 10 /\ (totalPages count - 1) * 10 < count + (10 - count).
Proof.
  unfold totalPages, articlesPerPage.
  pose proof (Nat.div_mod_eq count 10) as Hdiv.
  pose proof (Nat.mod_upper_bound count 10 ltac:(lia)) as Hmod.
  destruct (count mod 10 =? 0) eqn:Hzero.
  - apply Nat.eqb_eq in Hzero. lia.
  - apply Nat.eqb_neq in Hzero. lia.
Qed.

Lemma totalPages_last_page (count : nat) :
  0 < count -> (totalPages count - 1) * 10 < count /\ 1 <= totalPages count.
Proof.
  unfold totalPages, articlesPerPage. intros Hpos.
  pose proof (Nat.div_mod_eq count 10) as Hdiv.
  pose proof (Nat.mod_upper_bound count 10 ltac:(lia)) as Hmod.
  destruct (count mod 10 =? 0) eqn:Hzero.
  - apply Nat.eqb_eq in Hzero. lia.
  - apply Nat.eqb_neq in Hzero. lia.
Qed.

Lemma totalPages_0 : totalPages 0 = 0.
Proof. reflexivity. Qed.

Lemma paginatedArticles_next {A} (l : list A) (page : nat) :
  1 <= page -> paginatedArticles l (S page) = paginatedArticles (drop 10 l) page.
Proof.
  destruct page as [|before]; [lia|]. intros _.
  unfold paginatedArticles, articlesPerPage. rewrite drop_drop.
  by replace (10 + before * 10) with (S before * 10) by lia.
Qed.

Lemma pages_concat {A} (lastPage : nat) (l : list A) :
  length l <= lastPage * 10 ->
  concat (map (paginatedArticles l) (seq 1 lastPage)) = l.
Proof.
  revert l. induction lastPage as [|lastPage IH]; intros l Hlen.
  - destruct l; [done | cbn in Hlen; lia].
  - cbn [seq map concat]. rewrite <- seq_shift, map_map.
    rewrite (map_ext_in _ (paginatedArticles (drop 10 l))).
    + rewrite IH; [|rewrite length_drop; lia].
      unfold paginatedArticles, articlesPerPage. cbn [Nat.mul drop].
      apply take_drop.
    + intros page Hpage. apply in_seq in Hpage.
      apply paginatedArticles_next. lia.
Qed.

(** X22. The pages of the article list partition it: the pages 1 to
    [totalPages], one after the other, are the filtered list; a page
    holds at most ten articles; and the pages that hold an article are
    exactly the pages 1 to [totalPages]. *)
Theorem pages_partition_the_list {A} (filteredArticles : list A) :
  concat (map (paginatedArticles filteredArticles)
              (seq 1 (totalPages (length filteredArticles))))
  = filteredArticles /\
  forall currentPage,
    length (paginatedArticles filteredArticles currentPage) <= 10 /\
    (paginatedArticles filteredArticles currentPage <> [] <->
     1 <= currentPage <= totalPages (length filteredArticles)).
Proof.
  split.
  - apply pages_concat, totalPages_bounds.
  - intros currentPage.
    assert (Hlen : length (paginatedArticles filteredArticles currentPage)
                   = match currentPage with
                     | O => 0
                     | S before => Nat.min 10 (length filteredArticles - before * 10)
                     end).
    { destruct currentPage as [|before]; [done|].
      unfold paginatedArticles, articlesPerPage. by rewrite length_take, length_drop. }
    split; [destruct currentPage; lia|].
    rewrite <- length_zero_iff_nil, Hlen.
    destruct (length filteredArticles) as [|count'] eqn:Hcount.
    + rewrite totalPages_0. destruct currentPage; lia.
    + pose proof (totalPages_last_page (S count') ltac:(lia)) as [Hlast Hone].
      pose proof (totalPages_bounds (S count')) as [Hall _].
      destruct currentPage as [|before]; [lia|]. nia.
Qed.






End Pagination.
